(** * The line store and buffer core of the micro editor, embedded in Rocq.

    Go [int] values are modelled as [Z]: every counter below is bounded by
    the length of a slice, so no 64-bit wrap-around is reachable.  A
    [[]byte] and a Go [string] are both [list byte].  A run-time panic
    (index or slice bound out of range) is the [None] of [option].

    A slice is modelled by its elements.  This is exact as long as no two
    lines share a backing array, and the code never makes them share one:
    [bufio.Reader.ReadBytes] returns a fresh array for every line,
    [NewlineBelow] makes a fresh empty line, [insertByte], [DeleteToEnd],
    [DeleteFromStart] and the splice of [remove] write within the array
    of their own line, and [copy] on the lines moves whole [Line] values.
    The two places where Go's result would depend on the capacity of a
    slice are marked at [DeleteToEnd] and [JoinLines]. *)

From Stdlib Require Import ZArith Lia Bool.
From Stdlib Require Import Strings.Byte Strings.String.
From stdpp Require Import base option list strings gmap.

Local Open Scope Z_scope.

(** ** Slices *)

Definition len {A} (l : list A) : Z := Z.of_nat (length l).

(** [s[a:]] and [s[:b]] for [0 <= a, b <= len s]; the bounds are checked
    by the callers below wherever the source can violate them. *)
Definition slice_from {A} (l : list A) (a : Z) : list A := drop (Z.to_nat a) l.
Definition slice_to {A} (l : list A) (b : Z) : list A := take (Z.to_nat b) l.

(** [s[i]], with the run-time bounds check. *)
Definition index {A} (l : list A) (i : Z) : option A :=
  if (0 <=? i) && (i <? len l) then l !! Z.to_nat i else None.

Definition bytes_of (s : string) : list byte := String.list_byte_of_string s.

#[global] Instance byte_eq_dec : EqDecision byte := Byte.byte_eq_dec.

(** ** Package unicode/utf8 of the Go library (the parts the editor calls)

    The tables and [DecodeRune] follow the library source; [RuneCount]
    and the conversion to runes advance by the width [DecodeRune]
    returns, as the loops of the library do. *)

Module utf8.

Definition rune := Z.
Definition RuneError : rune := 0xFFFD.

Definition bv (b : byte) : Z := Z.of_N (Byte.to_N b).

Definition maskx : Z := 0x3F.
Definition mask2 : Z := 0x1F.
Definition mask3 : Z := 0x0F.
Definition mask4 : Z := 0x07.
Definition locb : Z := 0x80.
Definition hicb : Z := 0xBF.

Definition xx : Z := 0xF1.
Definition as_ : Z := 0xF0.
Definition s1 : Z := 0x02.
Definition s2 : Z := 0x13.
Definition s3 : Z := 0x03.
Definition s4 : Z := 0x23.
Definition s5 : Z := 0x34.
Definition s6 : Z := 0x04.
Definition s7 : Z := 0x44.

(** The table [first]: information about the first byte of an encoding. *)
Definition first (b : byte) : Z :=
  let c := bv b in
  if c <? 0x80 then as_
  else if c <? 0xC2 then xx
  else if c <? 0xE0 then s1
  else if c =? 0xE0 then s2
  else if c <? 0xED then s3
  else if c =? 0xED then s4
  else if c <? 0xF0 then s3
  else if c =? 0xF0 then s5
  else if c <? 0xF4 then s6
  else if c =? 0xF4 then s7
  else xx.

(** The table [acceptRanges]: allowed range of the second byte. *)
Definition acceptRanges (k : Z) : Z * Z :=
  if k =? 0 then (locb, hicb)
  else if k =? 1 then (0xA0, hicb)
  else if k =? 2 then (locb, 0x9F)
  else if k =? 3 then (0x90, hicb)
  else if k =? 4 then (locb, 0x8F)
  else (0, 0).

(** [DecodeRune p]: the first rune of [p] and its width in bytes; an
    empty [p] gives [(RuneError, 0)], an invalid or short encoding
    [(RuneError, 1)]. *)
Definition DecodeRune (p : list byte) : rune * Z :=
  match p with
  | [] => (RuneError, 0)
  | p0 :: t0 =>
    let x := first p0 in
    if as_ <=? x then
      (* the mask of the source selects RuneError exactly when x = xx *)
      (if x =? xx then RuneError else bv p0, 1)
    else
      let sz := Z.land x 7 in
      let accept := acceptRanges (Z.shiftr x 4) in
      if len p <? sz then (RuneError, 1) else
      match t0 with
      | [] => (RuneError, 1)
      | b1 :: t1 =>
        if (bv b1 <? fst accept) || (snd accept <? bv b1) then (RuneError, 1)
        else if sz <=? 2 then
          (Z.lor (Z.shiftl (Z.land (bv p0) mask2) 6) (Z.land (bv b1) maskx), 2)
        else
        match t1 with
        | [] => (RuneError, 1)
        | b2 :: t2 =>
          if (bv b2 <? locb) || (hicb <? bv b2) then (RuneError, 1)
          else if sz <=? 3 then
            (Z.lor (Z.lor (Z.shiftl (Z.land (bv p0) mask3) 12)
                          (Z.shiftl (Z.land (bv b1) maskx) 6))
                   (Z.land (bv b2) maskx), 3)
          else
          match t2 with
          | [] => (RuneError, 1)
          | b3 :: _ =>
            if (bv b3 <? locb) || (hicb <? bv b3) then (RuneError, 1)
            else
              (Z.lor (Z.lor (Z.lor (Z.shiftl (Z.land (bv p0) mask4) 18)
                                   (Z.shiftl (Z.land (bv b1) maskx) 12))
                            (Z.shiftl (Z.land (bv b2) maskx) 6))
                     (Z.land (bv b3) maskx), 4)
          end
        end
      end
  end.

(** [RuneCount p]: the number of runes in [p]; erroneous and short
    encodings count as single runes of width one byte.  The loop advances
    by the width of the rune at the front, which is at least one on a
    non-empty input, so [length p] iterations always suffice. *)
Fixpoint RuneCount_loop (fuel : nat) (p : list byte) : Z :=
  match fuel with
  | O => 0
  | S fuel' =>
    match p with
    | [] => 0
    | _ => 1 + RuneCount_loop fuel' (slice_from p (snd (DecodeRune p)))
    end
  end.

Definition RuneCount (p : list byte) : Z := RuneCount_loop (length p) p.

(** [[]rune(string(p))], and the editor's [toRunes]: the runes of [p] in
    order, one [RuneError] per invalid byte. *)
Fixpoint runes_loop (fuel : nat) (p : list byte) : list rune :=
  match fuel with
  | O => []
  | S fuel' =>
    match p with
    | [] => []
    | _ => let '(r, size) := DecodeRune p in r :: runes_loop fuel' (slice_from p size)
    end
  end.

Definition runes (p : list byte) : list rune := runes_loop (length p) p.

End utf8.

(** ** Locations, lines and the line array *)

(** The line feed and carriage return bytes. *)
Definition LF : byte := x0a.
Definition CR : byte := x0d.

(** Modelled from the spec: the type [Loc] is declared outside the
    sources given.  The spec has a location as a column within a line
    and a line index; the sources build it as [Loc{x, y}] and read its
    fields [X] and [Y]. *)
Record Loc := mkLoc { X : Z; Y : Z }.

#[global] Instance Loc_eq_dec : EqDecision Loc.
Proof. solve_decision. Defined.

Section types.
(** [highlight.State] and [highlight.LineMatch] belong to the highlight
    package; this core only stores, copies and clears them.  [None] is
    Go's [nil]. *)
Context {State LineMatch : Type}.

Record Line := mkLine {
  data : list byte;
  state : option State;
  match_ : option LineMatch;
  rehighlight : bool
}.

Record LineArray := mkLineArray { lines : list Line }.
End types.
Arguments Line : clear implicits.
Arguments LineArray : clear implicits.

(** [copy(s[d:], s[f:])] on one slice [s], for [d, f <= len s]: the
    overlapping move, with the number of elements copied. *)
Definition copy_within {A} (s : list A) (d f : nat) : list A * nat :=
  let n := Nat.min (length s - d) (length s - f) in
  (take d s ++ take n (drop f s) ++ drop (d + n) s, n).

Definition check (b : bool) : option unit := if b then Some tt else None.

Definition in_range (lo i hi : Z) : bool := (lo <=? i) && (i <=? hi).

(** [runeToByteIndex]: the loop body decodes one rune, drops it from
    [txt], adds its width to [count] and stops once [i] reaches [n]. *)
Fixpoint runeToByteIndex_loop (fuel : nat) (n : Z) (txt : list byte) (count i : Z) : Z :=
  match fuel with
  | O => count
  | S fuel' =>
    match txt with
    | [] => count
    | _ =>
      let size := snd (utf8.DecodeRune txt) in
      let txt := slice_from txt size in
      let count := count + size in
      let i := i + 1 in
      if i =? n then count else runeToByteIndex_loop fuel' n txt count i
    end
  end.

Definition runeToByteIndex (n : Z) (txt : list byte) : Z :=
  if n =? 0 then 0 else runeToByteIndex_loop (length txt) n txt 0 0.

(** [Append]: the reallocation only changes the capacity. *)
Definition Append {A} (slice : list A) (data : list A) : list A := slice ++ data.

(** A reader: the bytes it delivers and how it ends, with [io.EOF] or
    with another error. *)
Inductive read_end := EOF | ReadError.
Record Reader := mkReader { content : list byte; ending : read_end }.

(** [bufio.Reader.ReadBytes delim] on the unread input [s]: the bytes up
    to and including the first [delim], the input left, and whether the
    delimiter was found ([err == nil]). *)
Fixpoint ReadBytes (delim : byte) (s : list byte) : list byte * list byte * bool :=
  match s with
  | [] => ([], [], false)
  | b :: s' =>
    if decide (b = delim) then ([b], s', true)
    else let '(d, r, found) := ReadBytes delim s' in (b :: d, r, found)
  end.

Module LineArray.
Section methods.
Context {State LineMatch : Type}.
Abbreviation Line := (Line State LineMatch).
Abbreviation LineArray := (LineArray State LineMatch).

Definition set_line (la : LineArray) (y : Z) (l : Line) : LineArray :=
  mkLineArray (<[Z.to_nat y := l]> (lines la)).

Definition set_data (l : Line) (d : list byte) : Line :=
  mkLine d (state l) (match_ l) (rehighlight l).

(** The read loop of [NewLineArray].  Every iteration but the last
    consumes a line feed, so [S (length s)] iterations suffice for the
    input [s] (lemma [NewLineArray_loop_split]).  The size hint [size]
    only sets the capacity of the one reallocation after 1000 lines,
    which succeeds for the sizes the callers pass (the size of the file
    or the length of the text); it has no part in the lines. *)
Fixpoint NewLineArray_loop (fuel : nat) (s : list byte) (e : read_end)
    (ls : list Line) : list Line :=
  match fuel with
  | O => ls
  | S fuel' =>
    let '(data, rest, found) := ReadBytes LF s in
    if found then
      NewLineArray_loop fuel' rest e
        (Append ls [mkLine (slice_to data (len data - 1)) None None false])
    else
      match e with
      | EOF => Append ls [mkLine data None None false]
      | ReadError => ls
      end
  end.

Definition NewLineArray (size : Z) (reader : option Reader) : LineArray :=
  match reader with
  | None => mkLineArray (Append [] [mkLine [] None None false])
  | Some r =>
    mkLineArray (NewLineArray_loop (S (length (content r))) (content r) (ending r) [])
  end.

(** [String]: [i] runs over the indices of the lines left in [ls]. *)
Fixpoint String_loop (n i : Z) (ls : list Line) (str : list byte) : list byte :=
  match ls with
  | [] => str
  | l :: ls' =>
    let str := str ++ data l in
    let str := if decide (i ≠ n - 1) then str ++ [LF] else str in
    String_loop n (i + 1) ls' str
  end.

Definition String (la : LineArray) : list byte :=
  String_loop (len (lines la)) 0 (lines la) [].

Definition NewlineBelow (la : LineArray) (y : Z) : option LineArray :=
  let ls := lines la ++ [mkLine (bytes_of " ") None None false] in
  _ ← check (in_range 0 (y + 2) (len ls));
  _ ← check (in_range 0 (y + 1) (len ls));
  let ls := fst (copy_within ls (Z.to_nat (y + 2)) (Z.to_nat (y + 1))) in
  ly ← index ls y;
  _ ← check (in_range 0 (y + 1) (len ls - 1));
  Some (mkLineArray (<[Z.to_nat (y + 1) := mkLine [] (state ly) None false]> ls)).

Definition insertByte (la : LineArray) (pos : Loc) (value : byte) : option LineArray :=
  l ← index (lines la) (Y pos);
  let d := data l ++ [x00] in
  _ ← check (in_range 0 (X pos + 1) (len d));
  _ ← check (in_range 0 (X pos) (len d));
  let d := fst (copy_within d (Z.to_nat (X pos + 1)) (Z.to_nat (X pos))) in
  _ ← check (in_range 0 (X pos) (len d - 1));
  Some (set_line la (Y pos) (set_data l (<[Z.to_nat (X pos) := value]> d))).

(** [DeleteToEnd]: [data[:pos.X]].  Go admits [pos.X] up to the
    capacity of the slice and then shows bytes behind its length; this
    model keeps no capacity and gives [None] beyond the length.  [Split]
    and [remove] only pass offsets within the length. *)
Definition DeleteToEnd (la : LineArray) (pos : Loc) : option LineArray :=
  l ← index (lines la) (Y pos);
  _ ← check (in_range 0 (X pos) (len (data l)));
  Some (set_line la (Y pos) (set_data l (slice_to (data l) (X pos)))).

Definition DeleteFromStart (la : LineArray) (pos : Loc) : option LineArray :=
  l ← index (lines la) (Y pos);
  _ ← check (in_range 0 (X pos + 1) (len (data l)));
  Some (set_line la (Y pos) (set_data l (slice_from (data l) (X pos + 1)))).

Definition DeleteLine (la : LineArray) (y : Z) : option LineArray :=
  let ls := lines la in
  _ ← check (in_range 0 y (len ls));
  _ ← check (in_range 0 (y + 1) (len ls));
  let '(ls', n) := copy_within ls (Z.to_nat y) (Z.to_nat (y + 1)) in
  Some (mkLineArray (slice_to ls' (y + Z.of_nat n))).

(** The loop of [insert], over a given [Split]. *)
Section insert_loop.
Variable Split : LineArray → Loc → option LineArray.

Fixpoint insert_loop (la : LineArray) (x y : Z) (value : list byte)
    : option LineArray :=
  match value with
  | [] => Some la
  | v :: value' =>
    if decide (v = LF) then
      la ← Split la (mkLoc x y);
      insert_loop la 0 (y + 1) value'
    else
      la ← insertByte la (mkLoc x y) v;
      insert_loop la (x + 1) y value'
  end.
End insert_loop.

(** The body of [Split], over a given [insert]. *)
Definition Split_with (insert : LineArray → Loc → list byte → option LineArray)
    (la : LineArray) (pos : Loc) : option LineArray :=
  la ← NewlineBelow la (Y pos);
  ly ← index (lines la) (Y pos);
  _ ← check (in_range 0 (X pos) (len (data ly)));
  la ← insert la (mkLoc 0 (Y pos + 1)) (slice_from (data ly) (X pos));
  ly ← index (lines la) (Y pos);
  l1 ← index (lines la) (Y pos + 1);
  let la := set_line la (Y pos + 1) (mkLine (data l1) (state ly) (match_ l1) (rehighlight l1)) in
  ly ← index (lines la) (Y pos);
  let la := set_line la (Y pos) (mkLine (data ly) None (match_ ly) (rehighlight ly)) in
  ly ← index (lines la) (Y pos);
  let la := set_line la (Y pos) (mkLine (data ly) (state ly) None (rehighlight ly)) in
  l1 ← index (lines la) (Y pos + 1);
  let la := set_line la (Y pos + 1) (mkLine (data l1) (state l1) None (rehighlight l1)) in
  ly ← index (lines la) (Y pos);
  let la := set_line la (Y pos) (mkLine (data ly) (state ly) (match_ ly) true) in
  DeleteToEnd la (mkLoc (X pos) (Y pos)).

(** [insert] and [Split] call each other.  [insert_depth d] is [insert]
    with at most [d] nested activations of [insert]; [None] at depth 0.
    Three always suffice (lemmas [insert_depth_enough] and
    [Split_depth_enough]): [Split] inserts into the empty line it has
    just made, so a line feed met there splits at the end of that line
    and the innermost [insert] receives no bytes. *)
Fixpoint insert_depth (d : nat) (la : LineArray) (pos : Loc) (value : list byte)
    : option LineArray :=
  match d with
  | O => None
  | S d' =>
    l ← index (lines la) (Y pos);
    let x := runeToByteIndex (X pos) (data l) in
    let y := Y pos in
    insert_loop (Split_with (insert_depth d')) la x y value
  end.

Definition insert : LineArray → Loc → list byte → option LineArray :=
  insert_depth 3.

Definition Split : LineArray → Loc → option LineArray :=
  Split_with (insert_depth 2).

(** [JoinLines a b].  The bytes of line [b] are read while line [a]
    grows; the two lines are different slices in every call of the
    source ([b = a + 1]), and for [a = b] the outcome would depend on
    the capacity of the slice, which this model does not keep: [None]. *)
Definition JoinLines (la : LineArray) (a b : Z) : option LineArray :=
  la_ ← index (lines la) a;
  lb ← index (lines la) b;
  _ ← check (negb (a =? b));
  la ← insert la (mkLoc (len (data la_)) a) (data lb);
  DeleteLine la b.

(** The loop of [Substr] over the lines strictly between the two ends:
    [k] iterations from index [i]. *)
Fixpoint Substr_loop (k : nat) (i : Z) (ls : list Line) (str : list byte)
    : option (list byte) :=
  match k with
  | O => Some str
  | S k' =>
    l ← index ls i;
    Substr_loop k' (i + 1) ls (str ++ data l ++ [LF])
  end.

Definition Substr (la : LineArray) (start end_ : Loc) : option (list byte) :=
  ls ← index (lines la) (Y start);
  let startX := runeToByteIndex (X start) (data ls) in
  le ← index (lines la) (Y end_);
  let endX := runeToByteIndex (X end_) (data le) in
  if Y start =? Y end_ then
    _ ← check (in_range 0 startX endX);
    Some (slice_from (slice_to (data ls) endX) startX)
  else
    let str := slice_from (data ls) startX ++ [LF] in
    str ← Substr_loop (Z.to_nat (Y end_ - 1 - Y start)) (Y start + 1) (lines la) str;
    Some (str ++ slice_to (data le) endX).

(** The loop of [remove]: [k] times [DeleteLine y]. *)
Fixpoint DeleteLine_loop (k : nat) (la : LineArray) (y : Z) : option LineArray :=
  match k with
  | O => Some la
  | S k' => la ← DeleteLine la y; DeleteLine_loop k' la y
  end.

Definition remove (la : LineArray) (start end_ : Loc) : option (LineArray * list byte) :=
  sub ← Substr la start end_;
  ls ← index (lines la) (Y start);
  let startX := runeToByteIndex (X start) (data ls) in
  le ← index (lines la) (Y end_);
  let endX := runeToByteIndex (X end_) (data le) in
  if Y start =? Y end_ then
    Some (set_line la (Y start)
            (set_data ls (slice_to (data ls) startX ++ slice_from (data ls) endX)), sub)
  else
    la ← DeleteLine_loop (Z.to_nat (Y end_ - 1 - Y start)) la (Y start + 1);
    la ← DeleteToEnd la (mkLoc startX (Y start));
    la ← DeleteFromStart la (mkLoc (endX - 1) (Y start + 1));
    la ← JoinLines la (Y start) (Y start + 1);
    Some (la, sub).

(** [DeleteByte]: the bytes behind [pos.X] move one place down and the
    slice is cut one byte shorter. *)
Definition DeleteByte (la : LineArray) (pos : Loc) : option LineArray :=
  l ← index (lines la) (Y pos);
  _ ← check (in_range 0 (X pos) (len (data l)));
  _ ← check (in_range 0 (X pos + 1) (len (data l)));
  let '(d, n) := copy_within (data l) (Z.to_nat (X pos)) (Z.to_nat (X pos + 1)) in
  Some (set_line la (Y pos) (set_data l (slice_to d (X pos + Z.of_nat n)))).

Definition SetState (la : LineArray) (lineN : Z) (s : option State) : option LineArray :=
  l ← index (lines la) lineN;
  Some (set_line la lineN (mkLine (data l) s (match_ l) (rehighlight l))).

Definition SetMatch (la : LineArray) (lineN : Z) (m : option LineMatch) : option LineArray :=
  l ← index (lines la) lineN;
  Some (set_line la lineN (mkLine (data l) (state l) m (rehighlight l))).

End methods.

(** The two readers of the highlight data of a line. *)
Definition State {St LineMatch} (la : LineArray St LineMatch) (lineN : Z)
    : option (option St) :=
  l ← index (lines la) lineN; Some (state l).

Definition Match {St LM} (la : LineArray St LM) (lineN : Z) : option (option LM) :=
  l ← index (lines la) lineN; Some (match_ l).

End LineArray.

(** ** The buffer *)

(** A value of the settings map ([map[string]interface{}]). *)
Inductive setting := SBool (b : bool) | SString (s : string) | SInt (n : Z).

#[global] Instance setting_eq_dec : EqDecision setting.
Proof. solve_decision. Defined.

Section buffer_type.
Context {State LineMatch : Type}.

(** The fields of [Buffer] this core reads or writes; [lineArray] is the
    embedded [*LineArray]. *)
Record Buffer := mkBuffer {
  lineArray : LineArray State LineMatch;
  IsModified : bool;
  NumLines : Z;
  Settings : gmap string setting;
  Password : string
}.
End buffer_type.
Arguments Buffer : clear implicits.

(** The outcome of scanning one line for a brace: the matching location,
    or the nesting counter to carry on with. *)
Inductive scan := Found (loc : Loc) | Carry (i : Z).

(** Modelled from the spec: the type [Cursor] is declared outside the
    sources given.  The spec has a cursor as a location, an optional
    selection anchor and a stable identity; [MergeCursors] and
    [UpdateCursors] read its location [c.Loc] and write its number
    [c.Num], and touch no other field. *)
Record Cursor := mkCursor { CursorLoc : Loc; Num : Z }.

Module Buffer.
Section methods.
Context {State LineMatch : Type}.
Abbreviation Buffer := (Buffer State LineMatch).
Abbreviation line := (Line State LineMatch).

Definition blines (b : Buffer) : list line := lines (lineArray b).

Definition Update (b : Buffer) : Buffer :=
  mkBuffer (lineArray b) (IsModified b) (len (blines b)) (Settings b) (Password b).

Definition insert (b : Buffer) (pos : Loc) (value : list byte) : option Buffer :=
  let b := mkBuffer (lineArray b) true (NumLines b) (Settings b) (Password b) in
  la ← LineArray.insert (lineArray b) pos value;
  Some (Update (mkBuffer la (IsModified b) (NumLines b) (Settings b) (Password b))).

Definition remove (b : Buffer) (start end_ : Loc) : option (Buffer * list byte) :=
  let b := mkBuffer (lineArray b) true (NumLines b) (Settings b) (Password b) in
  '(la, sub) ← LineArray.remove (lineArray b) start end_;
  Some (Update (mkBuffer la (IsModified b) (NumLines b) (Settings b) (Password b)), sub).

Definition Start (b : Buffer) : Loc := mkLoc 0 0.

Definition End (b : Buffer) : option Loc :=
  l ← index (blines b) (NumLines b - 1);
  Some (mkLoc (utf8.RuneCount (data l)) (NumLines b - 1)).

Definition LineBytes (b : Buffer) (n : Z) : option (list byte) :=
  if len (blines b) <=? n then Some []
  else l ← index (blines b) n; Some (data l).

(** Modelled from the spec: [toRunes], the helper of this repository
    that [LineRunes] calls, is not among the sources.  The spec counts
    the columns of a location in runes decoded from the UTF-8 bytes of
    the line, so [toRunes] is taken to decode as the conversion
    [[]rune(string(b))] does, one rune after the other. *)
Definition toRunes (b : list byte) : list utf8.rune := utf8.runes b.

Definition LineRunes (b : Buffer) (n : Z) : option (list utf8.rune) :=
  if len (blines b) <=? n then Some []
  else l ← index (blines b) n; Some (toRunes (data l)).

Definition Line (b : Buffer) (n : Z) : option (list byte) :=
  if len (blines b) <=? n then Some (bytes_of "")
  else l ← index (blines b) n; Some (data l).

Definition LinesNum (b : Buffer) : Z := len (blines b).

(** [Encode]: the lines joined by the line ending of the [fileformat]
    setting; [encrypt filename password] stands for the OpenPGP branch
    taken when the buffer has a password. *)
Section Encode.
Variable encrypt : list byte → string → list byte → option (list byte).

Fixpoint Encode_loop (useCrlf : bool) (n i : Z) (ls : list line)
    (out : list byte) : list byte :=
  match ls with
  | [] => out
  | l :: ls' =>
    let out := out ++ data l in
    let out :=
      if decide (i ≠ n - 1) then
        if useCrlf then out ++ [CR; LF] else out ++ [LF]
      else out in
    Encode_loop useCrlf n (i + 1) ls' out
  end.

Definition Encode (b : Buffer) (filename : list byte) : option (list byte) :=
  let useCrlf := bool_decide (Settings b !! "fileformat" = Some (SString "dos")) in
  let out := Encode_loop useCrlf (len (blines b)) 0 (blines b) [] in
  if decide (Password b = "") then Some out
  else encrypt filename (Password b) out.
End Encode.

(** [MoveLinesUp] and [MoveLinesDown] edit through [Insert] and
    [Remove] of the event handler, which lies outside this core. *)
Section MoveLines.
Variable Insert : Buffer → Loc → list byte → option Buffer.
Variable Remove : Buffer → Loc → Loc → option Buffer.

Definition MoveLinesUp (b : Buffer) (start end_ : Z) : option Buffer :=
  if (start <? 1) || (end_ <=? start) || (len (blines b) <? end_) then Some b
  else
    b ← (if end_ =? len (blines b) then
           l ← index (blines b) (end_ - 1);
           s ← Line b (start - 1);
           Insert b (mkLoc (utf8.RuneCount (data l)) (end_ - 1)) ([LF] ++ s)
         else
           s ← Line b (start - 1);
           Insert b (mkLoc 0 end_) (s ++ [LF]));
    Remove b (mkLoc 0 (start - 1)) (mkLoc 0 start).

Definition MoveLinesDown (b : Buffer) (start end_ : Z) : option Buffer :=
  if (start <? 0) || (end_ <=? start) || (len (blines b) - 1 <=? end_) then Some b
  else
    s ← Line b end_;
    b ← Insert b (mkLoc 0 start) (s ++ [LF]);
    let end_ := end_ + 1 in
    Remove b (mkLoc 0 end_) (mkLoc 0 (end_ + 1)).
End MoveLines.

(** The inner loops of [FindMatchingBrace]: [k] iterations over the
    runes [l] of line [y] from column [x], upwards or downwards. *)
Fixpoint forward_x (k : nat) (open close : utf8.rune) (l : list utf8.rune)
    (x y i : Z) : option scan :=
  match k with
  | O => Some (Carry i)
  | S k' =>
    r ← index l x;
    if decide (r = open) then forward_x k' open close l (x + 1) y (i + 1)
    else if decide (r = close) then
      let i := i - 1 in
      if decide (i = 0) then Some (Found (mkLoc x y))
      else forward_x k' open close l (x + 1) y i
    else forward_x k' open close l (x + 1) y i
  end.

Fixpoint backward_x (k : nat) (open close : utf8.rune) (l : list utf8.rune)
    (x y i : Z) : option scan :=
  match k with
  | O => Some (Carry i)
  | S k' =>
    r ← index l x;
    if decide (r = open) then
      let i := i - 1 in
      if decide (i = 0) then Some (Found (mkLoc x y))
      else backward_x k' open close l (x - 1) y i
    else if decide (r = close) then backward_x k' open close l (x - 1) y (i + 1)
    else backward_x k' open close l (x - 1) y i
  end.

(** The outer loops: [k] iterations over the lines from [y]. *)
Fixpoint forward_y (k : nat) (b : Buffer) (open close : utf8.rune) (start : Loc)
    (y i : Z) : option Loc :=
  match k with
  | O => Some start
  | S k' =>
    l ← LineRunes b y;
    let xInit := if decide (y = Y start) then X start else 0 in
    r ← forward_x (Z.to_nat (len l - xInit)) open close l xInit y i;
    match r with
    | Found loc => Some loc
    | Carry i => forward_y k' b open close start (y + 1) i
    end
  end.

Fixpoint backward_y (k : nat) (b : Buffer) (open close : utf8.rune) (start : Loc)
    (y i : Z) : option Loc :=
  match k with
  | O => Some start
  | S k' =>
    ln ← index (blines b) y;
    let l := utf8.runes (data ln) in
    let xInit := if decide (y = Y start) then X start else len l - 1 in
    r ← backward_x (Z.to_nat (xInit + 1)) open close l xInit y i;
    match r with
    | Found loc => Some loc
    | Carry i => backward_y k' b open close start (y - 1) i
    end
  end.

Definition FindMatchingBrace (b : Buffer) (braceType : utf8.rune * utf8.rune)
    (start : Loc) : option Loc :=
  curLine ← LineRunes b (Y start);
  startChar ← index curLine (X start);
  if decide (startChar = fst braceType) then
    forward_y (Z.to_nat (NumLines b - Y start)) b (fst braceType) (snd braceType)
      start (Y start) 0
  else if decide (startChar = snd braceType) then
    backward_y (Z.to_nat (Y start + 1)) b (fst braceType) (snd braceType)
      start (Y start) 0
  else Some start.

Definition deleteToEnd (b : Buffer) (start : Loc) : option Buffer :=
  let b := mkBuffer (lineArray b) true (NumLines b) (Settings b) (Password b) in
  la ← LineArray.DeleteToEnd (lineArray b) start;
  Some (Update (mkBuffer la (IsModified b) (NumLines b) (Settings b) (Password b))).

(** [Len]: the runes of the lines, and one for each line feed between
    them. *)
Fixpoint Len_loop (ls : list line) (n : Z) : Z :=
  match ls with
  | [] => n
  | l :: ls' => Len_loop ls' (n + utf8.RuneCount (data l))
  end.

Definition Len (b : Buffer) : Z :=
  let n := Len_loop (blines b) 0 in
  if 1 <? len (blines b) then n + (len (blines b) - 1) else n.

(** [ClearMatches]: [k] iterations from line [i]. *)
Fixpoint ClearMatches_loop (k : nat) (i : Z) (b : Buffer) : option Buffer :=
  match k with
  | O => Some b
  | S k' =>
    la ← LineArray.SetMatch (lineArray b) i None;
    la ← LineArray.SetState la i None;
    ClearMatches_loop k' (i + 1)
      (mkBuffer la (IsModified b) (NumLines b) (Settings b) (Password b))
  end.

Definition ClearMatches (b : Buffer) : option Buffer :=
  ClearMatches_loop (length (blines b)) 0 b.

(** The function [SaveAs] hands to [overwriteFile]: the bytes it writes
    to the file and the count [fileSize] it keeps, when no write fails. *)
Fixpoint SaveAs_loop (eol : list byte) (ls : list line) (file : list byte)
    (fileSize : Z) : list byte * Z :=
  match ls with
  | [] => (file, fileSize)
  | l :: ls' =>
    let file := file ++ eol in
    let file := file ++ data l in
    SaveAs_loop eol ls' file (fileSize + (len eol + len (data l)))
  end.

Definition SaveAs_write (b : Buffer) : list byte * Z :=
  match blines b with
  | [] => ([], 0)
  | l0 :: rest =>
    let eol :=
      if bool_decide (Settings b !! "fileformat" = Some (SString "dos"))
      then [CR; LF] else [LF] in
    SaveAs_loop eol rest (data l0) (len (data l0))
  end.

(** [calcHash], [Modified] and the end of [SaveAs].  [md5sum] is the MD5
    digest of the bytes written to the hash; [origHash] is the field
    [b.origHash], passed and returned beside the buffer. *)
Section hash.
Context {digest : Type} `{EqDecision digest}.
Variable md5sum : list byte → digest.

Fixpoint calcHash_loop (ls : list line) (h : list byte) : list byte :=
  match ls with
  | [] => h
  | l :: ls' => calcHash_loop ls' ((h ++ [LF]) ++ data l)
  end.

Definition calcHash (b : Buffer) : digest :=
  md5sum match blines b with
         | [] => []
         | l0 :: rest => calcHash_loop rest (data l0)
         end.

Definition Modified (b : Buffer) (origHash : digest) : option bool :=
  match Settings b !! "fastdirty" with
  | Some (SBool true) => Some (IsModified b)
  | Some (SBool false) => Some (bool_decide (calcHash b ≠ origHash))
  | _ => None
  end.

Definition LargeFileThreshold : Z := 50000.

(** What [SaveAs] does to the buffer once the file is written with
    [fileSize] bytes: the hash or the [fastdirty] setting, and the
    modified flag. *)
Definition SaveAs_written (b : Buffer) (origHash : digest) (fileSize : Z)
    : option (Buffer * digest) :=
  '(b, origHash) ←
    match Settings b !! "fastdirty" with
    | Some (SBool true) => Some (b, origHash)
    | Some (SBool false) =>
      if LargeFileThreshold <? fileSize then
        Some (mkBuffer (lineArray b) (IsModified b) (NumLines b)
                (<["fastdirty" := SBool true]> (Settings b)) (Password b), origHash)
      else Some (b, calcHash b)
    | _ => None
    end;
  Some (mkBuffer (lineArray b) false (NumLines b) (Settings b) (Password b), origHash).
End hash.

(** [GetBufferCursorLocation].  [ParseCursorLocation] of this repository
    and the command line flag [flagStartPos] lie outside the sources
    given, [strings.Split] and [strconv.Atoi] belong to the Go library:
    the function is modelled over all four.  An error is [true] for a
    non-nil error. *)
Section cursor_location.
Variable ParseCursorLocation : list string → Loc * bool.
Variable flagStartPos : string.
Variable strings_Split : string → string → list string.
Variable Atoi : string → option Z.

End cursor_location.

(** [MergeCursors] on the fields [b.cursors] and [b.curCursor].  A
    cursor pointer is [None] for [nil]; the function compares cursors by
    their locations only and writes the field [Num] of those it keeps,
    so the cursors are held by value.  The inner loop clears the later
    and earlier entries at the location of [c1]. *)
Fixpoint MergeCursors_inner (k : nat) (j i : Z) (c1 : Cursor)
    (cursors : list (option Cursor)) : list (option Cursor) :=
  match k with
  | O => cursors
  | S k' =>
    let cursors :=
      match index cursors j with
      | Some (Some c2) =>
        if decide (i ≠ j ∧ CursorLoc c1 = CursorLoc c2)
        then <[Z.to_nat j := None]> cursors else cursors
      | _ => cursors
      end in
    MergeCursors_inner k' (j + 1) i c1 cursors
  end.




End methods.
End Buffer.

(** ** Functions used to state the properties *)

(** The byte offset behind the first [k] runes of [p] (all of [p] when it
    has fewer). *)
Fixpoint offset (k : nat) (p : list byte) : nat :=
  match k with
  | O => O
  | S k' =>
    match p with
    | [] => O
    | _ =>
      let w := Z.to_nat (snd (utf8.DecodeRune p)) in
      (w + offset k' (drop w p))%nat
    end
  end.

(** The invariant of the line store: no line holds a line feed. *)
Definition no_lf {State LineMatch} (la : LineArray State LineMatch) : bool :=
  forallb (λ ln, bool_decide (LF ∉ data ln)) (lines la).

(** A store without highlight data, from its lines. *)
Definition plain_line (s : string) : Line unit unit := mkLine (bytes_of s) None None false.
Definition plain_store (ss : list string) : LineArray unit unit :=
  mkLineArray (plain_line <$> ss).

(** The lines strictly between the line indices [a] and [b]. *)
Definition between {A} (ls : list A) (a b : Z) : list A :=
  slice_to (slice_from ls (a + 1)) (b - a - 1).

(** The pieces of [s] between its line feeds: one more piece than there
    are line feeds. *)
Fixpoint split_lf (s : list byte) : list (list byte) :=
  match s with
  | [] => [[]]
  | b :: s' =>
    if decide (b = LF) then [] :: split_lf s'
    else
      match split_lf s' with
      | seg :: segs => (b :: seg) :: segs
      | [] => [[b]]
      end
  end.

(** The pieces joined again, with [sep] between neighbours. *)
Fixpoint join_with (sep : list byte) (segs : list (list byte)) : list byte :=
  match segs with
  | [] => []
  | seg :: rest =>
    match rest with
    | [] => seg
    | _ => seg ++ sep ++ join_with sep rest
    end
  end.

(** [pre] put in front of the first piece. *)
Definition glue (pre : list byte) (segs : list (list byte)) : list (list byte) :=
  match segs with
  | [] => [pre]
  | seg :: rest => (pre ++ seg) :: rest
  end.

(** A line as [NewLineArray] makes it: bytes, and no highlight data. *)
Definition fresh {State LineMatch} (d : list byte) : Line State LineMatch :=
  mkLine d None None false.

(** The runes of a line from column [x] on, each with its location. *)
Fixpoint cells_line (x y : Z) (l : list utf8.rune) : list (Loc * utf8.rune) :=
  match l with
  | [] => []
  | r :: l' => (mkLoc x y, r) :: cells_line (x + 1) y l'
  end.

(** The runes of the lines [ls], the first of which is line [y], in
    reading order, each with its location. *)
Fixpoint cells {State LineMatch} (y : Z) (ls : list (Line State LineMatch))
    : list (Loc * utf8.rune) :=
  match ls with
  | [] => []
  | ln :: ls' => cells_line 0 y (utf8.runes (data ln)) ++ cells (y + 1) ls'
  end.

(** The runes from location [loc] to the end of the buffer, and the
    runes from [loc] back to the start of the buffer. *)
Definition cells_from {State LineMatch} (ls : list (Line State LineMatch)) (loc : Loc)
    : list (Loc * utf8.rune) :=
  match index ls (Y loc) with
  | Some ln =>
    cells_line (X loc) (Y loc) (slice_from (utf8.runes (data ln)) (X loc)) ++
    cells (Y loc + 1) (slice_from ls (Y loc + 1))
  | None => []
  end.

Definition cells_back {State LineMatch} (ls : list (Line State LineMatch)) (loc : Loc)
    : list (Loc * utf8.rune) :=
  match index ls (Y loc) with
  | Some ln =>
    rev (cells 0 (slice_to ls (Y loc)) ++
         cells_line 0 (Y loc) (slice_to (utf8.runes (data ln)) (X loc + 1)))
  | None => []
  end.

(** The nesting counter over a run of runes: an opening brace counts 1,
    a closing brace -1. *)
Definition weight (open close r : utf8.rune) : Z :=
  if decide (r = open) then 1 else if decide (r = close) then -1 else 0.

Fixpoint net (open close : utf8.rune) (cs : list (Loc * utf8.rune)) : Z :=
  match cs with
  | [] => 0
  | (_, r) :: cs' => weight open close r + net open close cs'
  end.

(** The two scans of [FindMatchingBrace] over a run of runes. *)
Fixpoint scan_forward (open close : utf8.rune) (cs : list (Loc * utf8.rune)) (i : Z) : scan :=
  match cs with
  | [] => Carry i
  | (loc, r) :: cs' =>
    if decide (r = open) then scan_forward open close cs' (i + 1)
    else if decide (r = close) then
      if decide (i - 1 = 0) then Found loc else scan_forward open close cs' (i - 1)
    else scan_forward open close cs' i
  end.

Fixpoint scan_backward (open close : utf8.rune) (cs : list (Loc * utf8.rune)) (i : Z) : scan :=
  match cs with
  | [] => Carry i
  | (loc, r) :: cs' =>
    if decide (r = open) then
      if decide (i - 1 = 0) then Found loc else scan_backward open close cs' (i - 1)
    else if decide (r = close) then scan_backward open close cs' (i + 1)
    else scan_backward open close cs' i
  end.

Definition found_or (start : Loc) (s : scan) : Loc :=
  match s with Found loc => loc | Carry _ => start end.

(** The bytes of the lines of a result. *)
Definition shown {State LineMatch} (la : option (LineArray State LineMatch))
    : option (list (list byte)) :=
  (λ s, data <$> lines s) <$> la.

(** A buffer to try the brace matching on. *)
Definition braces : Buffer unit unit :=
  mkBuffer (plain_store ["a(b"; "(c)"; "é)x"; "(("]) false 4 ∅ "".

(** The bytes of the lines, each followed by a line feed. *)
Definition flat {State LineMatch} (ls : list (Line State LineMatch)) : list byte :=
  mjoin ((λ l, data l ++ [LF]) <$> ls).

(** The place of a location in the text of the store: the number of
    bytes of the text in front of it. *)
Definition text_offset {State LineMatch} (la : LineArray State LineMatch) (pos : Loc) : Z :=
  match index (lines la) (Y pos) with
  | Some ln => len (flat (slice_to (lines la) (Y pos))) + runeToByteIndex (X pos) (data ln)
  | None => 0
  end.

(** The text behind a line that is followed by the lines [post]. *)
Definition behind {State LineMatch} (post : list (Line State LineMatch)) : list byte :=
  match post with [] => [] | _ => LF :: join_with [LF] (data <$> post) end.

(** Whether [p] is well-formed UTF-8: no step of its decoding meets an
    invalid or short encoding, which [DecodeRune] reports as
    [(RuneError, 1)]. *)
Fixpoint well_formed_loop (fuel : nat) (p : list byte) : bool :=
  match fuel with
  | O => true
  | S fuel' =>
    match p with
    | [] => true
    | _ =>
      negb (bool_decide (utf8.DecodeRune p = (utf8.RuneError, 1))) &&
      well_formed_loop fuel' (slice_from p (snd (utf8.DecodeRune p)))
    end
  end.

Definition well_formed (p : list byte) : bool := well_formed_loop (length p) p.

(** The location behind a text put in at [pos]. *)
Definition after_text (pos : Loc) (value : list byte) : Loc :=
  let segs := split_lf value in
  if len segs =? 1 then mkLoc (X pos + utf8.RuneCount value) (Y pos)
  else mkLoc (utf8.RuneCount (List.last segs [])) (Y pos + (len segs - 1)).



(** * Properties *)

(** ** Slices and indexing *)

Lemma index_Some {A} (l : list A) (i : Z) (a : A) :
  index l i = Some a ↔ 0 <= i ∧ l !! Z.to_nat i = Some a.
Proof.
  unfold index, len. split.
  - destruct (Z.leb_spec 0 i), (Z.ltb_spec i (Z.of_nat (length l))); simpl; try done.
  - intros [Hi Hl]. pose proof (lookup_lt_Some _ _ _ Hl).
    destruct (Z.leb_spec 0 i), (Z.ltb_spec i (Z.of_nat (length l))); simpl; try done; lia.
Qed.

Lemma index_nat {A} (l : list A) (i : nat) : index l (Z.of_nat i) = l !! i.
Proof.
  unfold index, len. rewrite Nat2Z.id.
  destruct (Z.leb_spec 0 (Z.of_nat i)); [|lia].
  destruct (Z.ltb_spec (Z.of_nat i) (Z.of_nat (length l))); simpl; [done|].
  symmetry. apply lookup_ge_None. lia.
Qed.

Lemma index_lt {A} (l : list A) (i : Z) (a : A) :
  index l i = Some a → 0 <= i < len l.
Proof.
  intros [? Hl]%index_Some. apply lookup_lt_Some in Hl. unfold len. lia.
Qed.

Lemma index_None {A} (l : list A) (i : Z) :
  index l i = None ↔ i < 0 ∨ len l <= i.
Proof.
  unfold index, len.
  destruct (Z.leb_spec 0 i), (Z.ltb_spec i (Z.of_nat (length l))); simpl.
  - split; [|lia]. intros Hn%lookup_ge_None. lia.
  - split; [lia|done].
  - split; [lia|done].
  - split; [lia|done].
Qed.

(** ** UTF-8 decoding *)

Abbreviation width p := (snd (utf8.DecodeRune p)).

Lemma first_cases (b : byte) :
  utf8.first b = utf8.as_ ∨ utf8.first b = utf8.xx ∨ utf8.first b = utf8.s1 ∨
  utf8.first b = utf8.s2 ∨ utf8.first b = utf8.s3 ∨ utf8.first b = utf8.s4 ∨
  utf8.first b = utf8.s5 ∨ utf8.first b = utf8.s6 ∨ utf8.first b = utf8.s7.
Proof. unfold utf8.first. repeat case_match; tauto. Qed.

Ltac eval_consts :=
  repeat match goal with
  | |- context [Z.shiftr ?a ?b] =>
    let v := eval vm_compute in (Z.shiftr a b) in change (Z.shiftr a b) with v
  | |- context [Z.land ?a 7] =>
    let v := eval vm_compute in (Z.land a 7) in change (Z.land a 7) with v
  | |- context [utf8.acceptRanges ?a] =>
    let v := eval vm_compute in (utf8.acceptRanges a) in change (utf8.acceptRanges a) with v
  | |- context [Z.leb ?a ?b] =>
    let v := eval vm_compute in (Z.leb a b) in change (Z.leb a b) with v
  | |- context [Z.eqb ?a ?b] =>
    let v := eval vm_compute in (Z.eqb a b) in change (Z.eqb a b) with v
  | |- context [fst (?a, ?b)] => change (fst (a, b)) with a
  | |- context [snd (?a, ?b)] => change (snd (a, b)) with b
  end; cbv beta iota; cbn [fst snd].

Ltac by_first p0 :=
  unfold utf8.DecodeRune;
  destruct (first_cases p0) as [Hf|[Hf|[Hf|[Hf|[Hf|[Hf|[Hf|[Hf|Hf]]]]]]]];
  rewrite Hf; clear Hf; eval_consts.

Ltac utf8_cases :=
  repeat match goal with
  | |- context [if ?c then _ else _] => destruct c eqn:?; simpl
  | |- context [match ?l with [] => _ | _ :: _ => _ end] => destruct l; simpl
  end.

Ltac ltb_lia :=
  unfold len in *; simpl length in *;
  repeat match goal with
  | H : (_ <? _) = true |- _ => apply Z.ltb_lt in H
  | H : (_ <? _) = false |- _ => apply Z.ltb_ge in H
  end; lia.

(** On a non-empty input the decoder consumes between one and four
    bytes, and never more than there are. *)
Lemma width_bounds (p : list byte) :
  p ≠ [] → 1 <= width p <= 4 ∧ width p <= len p.
Proof.
  destruct p as [|p0 t0]; [done|]. intros _.
  by_first p0; utf8_cases; ltb_lia.
Qed.

(** Decoding looks only at the bytes of the rune it returns: cutting the
    input anywhere behind that rune does not change its width. *)
Lemma width_take (p : list byte) (c : nat) :
  (Z.to_nat (width p) ≤ c)%nat → width (take c p) = width p.
Proof.
  destruct p as [|p0 t0]; [by rewrite take_nil|].
  destruct c as [|c]; [intros Hc; pose proof (width_bounds (p0 :: t0) ltac:(done)); lia|].
  destruct t0 as [|b1 [|b2 [|b3 t3]]]; destruct c as [|[|[|c]]]; simpl take; try done.
  all: by_first p0; utf8_cases; try done; ltb_lia.
Qed.

Lemma RuneCount_loop_fuel (f1 f2 : nat) (p : list byte) :
  (length p ≤ f1)%nat → (length p ≤ f2)%nat →
  utf8.RuneCount_loop f1 p = utf8.RuneCount_loop f2 p.
Proof.
  revert f2 p. induction f1 as [|f1 IH]; intros f2 p H1 H2.
  - destruct p; [|simpl in H1; lia]. by destruct f2.
  - destruct f2 as [|f2]; [destruct p; [done|simpl in H2; lia]|].
    destruct p as [|b p]; [done|]. cbn [utf8.RuneCount_loop]. f_equal.
    pose proof (width_bounds (b :: p) ltac:(done)) as [Hw _].
    unfold slice_from. apply IH; rewrite length_drop; simpl length in *; lia.
Qed.

Lemma RuneCount_nil : utf8.RuneCount [] = 0.
Proof. done. Qed.

Lemma RuneCount_cons (p : list byte) :
  p ≠ [] → utf8.RuneCount p = 1 + utf8.RuneCount (drop (Z.to_nat (width p)) p).
Proof.
  intros Hp. unfold utf8.RuneCount. destruct p as [|b p]; [done|].
  cbn [length utf8.RuneCount_loop]. f_equal. unfold slice_from.
  pose proof (width_bounds (b :: p) ltac:(done)) as [Hw _].
  apply RuneCount_loop_fuel; rewrite ?length_drop; simpl length in *; lia.
Qed.

Lemma RuneCount_bounds (p : list byte) : 0 <= utf8.RuneCount p <= len p.
Proof.
  enough (∀ n p, (length p ≤ n)%nat → 0 <= utf8.RuneCount p <= len p) by eauto.
  clear p. induction n as [|n IH]; intros p Hn.
  - destruct p; [done|simpl in Hn; lia].
  - destruct p as [|b p]; [done|].
    rewrite RuneCount_cons by done.
    pose proof (width_bounds (b :: p) ltac:(done)) as [Hw Hl].
    specialize (IH (drop (Z.to_nat (width (b :: p))) (b :: p))).
    unfold len in *. rewrite length_drop in IH. simpl length in *. lia.
Qed.

(** ** [runeToByteIndex] *)

Lemma offset_le (k : nat) (p : list byte) : (offset k p ≤ length p)%nat.
Proof.
  revert p. induction k as [|k IH]; intros p; simpl; [lia|].
  destruct p as [|b p]; [simpl; lia|].
  pose proof (width_bounds (b :: p) ltac:(done)) as [Hw Hl].
  specialize (IH (drop (Z.to_nat (width (b :: p))) (b :: p))).
  rewrite length_drop in IH. unfold len in *. lia.
Qed.

Lemma offset_mono (j k : nat) (p : list byte) :
  (j ≤ k)%nat → (offset j p ≤ offset k p)%nat.
Proof.
  revert k p. induction j as [|j IH]; intros k p Hjk; simpl; [lia|].
  destruct k as [|k]; [lia|]. simpl. destruct p; [lia|].
  apply Nat.add_le_mono_l, IH. lia.
Qed.

Lemma offset_all (k : nat) (p : list byte) :
  (length p ≤ k)%nat → offset k p = length p.
Proof.
  revert p. induction k as [|k IH]; intros p Hk.
  - by destruct p; [|simpl in Hk; lia].
  - simpl. destruct p as [|b p]; [done|].
    pose proof (width_bounds (b :: p) ltac:(done)) as [Hw Hl]. unfold len in *.
    rewrite IH; rewrite length_drop; simpl length in *; lia.
Qed.

Lemma runeToByteIndex_loop_offset (fuel : nat) (n : Z) (txt : list byte) (count i : Z) :
  (length txt ≤ fuel)%nat → i < n →
  runeToByteIndex_loop fuel n txt count i = count + Z.of_nat (offset (Z.to_nat (n - i)) txt).
Proof.
  revert txt count i. induction fuel as [|fuel IH]; intros txt count i Hf Hi.
  - destruct txt; [|simpl in Hf; lia]. simpl.
    destruct (Z.to_nat (n - i)); simpl; lia.
  - replace (Z.to_nat (n - i)) with (S (Z.to_nat (n - (i + 1)))) by lia.
    destruct txt as [|b txt]; [simpl; lia|].
    cbn [runeToByteIndex_loop offset].
    pose proof (width_bounds (b :: txt) ltac:(done)) as [Hw Hl]. unfold len in *.
    destruct (Z.eqb_spec (i + 1) n) as [->|Hne].
    + rewrite Z.sub_diag. simpl offset. lia.
    + unfold slice_from. rewrite IH; [lia| |lia].
      rewrite length_drop. simpl in *. lia.
Qed.

(** [runeToByteIndex] is the offset behind [n] runes, and the length of
    the line for a negative [n]. *)
Lemma runeToByteIndex_offset (n : Z) (txt : list byte) :
  0 <= n → runeToByteIndex n txt = Z.of_nat (offset (Z.to_nat n) txt).
Proof.
  intros Hn. unfold runeToByteIndex.
  destruct (Z.eqb_spec n 0) as [->|Hne]; [done|].
  rewrite runeToByteIndex_loop_offset by lia. rewrite Z.sub_0_r. lia.
Qed.

Lemma runeToByteIndex_loop_neg (fuel : nat) (n : Z) (txt : list byte) (count i : Z) :
  (length txt ≤ fuel)%nat → n <= i →
  runeToByteIndex_loop fuel n txt count i = count + len txt.
Proof.
  unfold len. revert txt count i. induction fuel as [|fuel IH]; intros txt count i Hf Hi.
  - destruct txt; [simpl; lia|simpl in Hf; lia].
  - destruct txt as [|b txt]; [simpl; lia|].
    cbn [runeToByteIndex_loop].
    pose proof (width_bounds (b :: txt) ltac:(done)) as [Hw Hl]. unfold len in *.
    destruct (Z.eqb_spec (i + 1) n) as [Heq|Hne]; [lia|].
    unfold slice_from. rewrite IH; rewrite ?length_drop; simpl length in *; lia.
Qed.

Lemma runeToByteIndex_neg (n : Z) (txt : list byte) :
  n < 0 → runeToByteIndex n txt = len txt.
Proof.
  intros Hn. unfold runeToByteIndex.
  destruct (Z.eqb_spec n 0) as [->|Hne]; [lia|].
  rewrite runeToByteIndex_loop_neg; lia.
Qed.

Lemma runeToByteIndex_bounds (n : Z) (txt : list byte) :
  0 <= runeToByteIndex n txt <= len txt.
Proof.
  destruct (Z.lt_ge_cases n 0).
  - rewrite runeToByteIndex_neg by done. unfold len. lia.
  - rewrite runeToByteIndex_offset by lia.
    pose proof (offset_le (Z.to_nat n) txt). unfold len. lia.
Qed.

Lemma runeToByteIndex_mono (m n : Z) (txt : list byte) :
  0 <= m <= n → runeToByteIndex m txt <= runeToByteIndex n txt.
Proof.
  intros Hmn. rewrite !runeToByteIndex_offset by lia.
  apply inj_le, offset_mono. lia.
Qed.

(** With [n] at least the length of the line in bytes, as [JoinLines]
    passes it, the result is that length. *)
Lemma runeToByteIndex_len (n : Z) (txt : list byte) :
  len txt <= n → runeToByteIndex n txt = len txt.
Proof.
  intros Hn. unfold len in *. rewrite runeToByteIndex_offset by lia.
  rewrite offset_all; lia.
Qed.

Lemma RuneCount_take_offset (k : nat) (p : list byte) :
  Z.of_nat k <= utf8.RuneCount p → utf8.RuneCount (take (offset k p) p) = Z.of_nat k.
Proof.
  revert p. induction k as [|k IH]; intros p Hk.
  - simpl. by rewrite take_0.
  - destruct p as [|b p]; [rewrite RuneCount_nil in Hk; lia|].
    cbn [offset]. set (w := Z.to_nat (width (b :: p))).
    pose proof (width_bounds (b :: p) ltac:(done)) as [Hw Hl]. unfold len in *.
    rewrite RuneCount_cons in Hk by done. fold w in Hk.
    assert (take (w + offset k (drop w (b :: p))) (b :: p) ≠ []) as Hne.
    { destruct w eqn:Hw0; [lia|]. done. }
    rewrite RuneCount_cons by done.
    rewrite width_take by (fold w; lia). fold w.
    rewrite <- take_drop_commute. rewrite IH by lia. lia.
Qed.



(** ** Moves within a slice *)

Lemma copy_up_insert {A} (s : list A) (z v : A) (f : nat) :
  (f ≤ length s)%nat →
  <[f := v]> (fst (copy_within (s ++ [z]) (S f) f)) = take f s ++ v :: drop f s.
Proof.
  intros Hf. rewrite <- (take_drop f s) at 1.
  assert (length (take f s) = f) as Ha by (rewrite length_take; lia).
  set (a := take f s) in *. set (b := drop f s).
  unfold copy_within. cbn [fst]. rewrite <- !app_assoc.
  rewrite !length_app.
  rewrite Nat.min_l by (simpl; lia). replace (length a + (length b + length [z]) - S f)%nat with (length b) by (simpl; lia).
  rewrite (drop_app_length' a) by done.
  rewrite take_app_length.
  rewrite (drop_ge _ (S f + length b)) by (rewrite !length_app; simpl; lia).
  rewrite app_nil_r.
  replace (S f) with (length a + 1)%nat by lia. rewrite take_app_add.
  replace f with (length a + 0)%nat at 1 by lia. rewrite <- app_assoc, insert_app_r.
  f_equal. destruct b; done.
Qed.

Lemma copy_down_take {A} (s : list A) (f : nat) :
  (f < length s)%nat →
  take (f + snd (copy_within s f (S f))) (fst (copy_within s f (S f))) =
  take f s ++ drop (S f) s.
Proof.
  intros Hf. unfold copy_within. cbn [fst snd].
  rewrite Nat.min_r by lia.
  rewrite (take_ge (drop (S f) s)) by (rewrite length_drop; lia).
  rewrite app_assoc. apply take_app_length'.
  rewrite length_app, length_take, length_drop. lia.
Qed.

Lemma copy_within_length {A} (s : list A) (d f : nat) :
  (d ≤ length s)%nat → length (fst (copy_within s d f)) = length s.
Proof.
  intros Hd. unfold copy_within. cbn [fst].
  rewrite !length_app, !length_take, !length_drop. lia.
Qed.

Lemma copy_up_lookup {A} (s : list A) (f i : nat) :
  (i ≤ f)%nat → fst (copy_within s (S f) f) !! i = s !! i.
Proof.
  intros Hi. unfold copy_within. cbn [fst].
  destruct (decide (i < length s)%nat) as [Hl|Hl].
  - rewrite lookup_app_l by (rewrite length_take; lia).
    apply lookup_take_lt. lia.
  - rewrite (lookup_ge_None_2 s) by lia. apply lookup_ge_None_2.
    rewrite !length_app, !length_take, !length_drop. lia.
Qed.

Lemma in_range_true (lo i hi : Z) : lo <= i <= hi → in_range lo i hi = true.
Proof. unfold in_range. intros. apply andb_true_iff. lia. Qed.

Lemma in_range_iff (lo i hi : Z) : in_range lo i hi = true ↔ lo <= i <= hi.
Proof. unfold in_range. rewrite andb_true_iff. lia. Qed.

Lemma in_range_false (lo i hi : Z) : i < lo ∨ hi < i → in_range lo i hi = false.
Proof. unfold in_range. intros. apply andb_false_iff. lia. Qed.

Lemma len_app {A} (l k : list A) : len (l ++ k) = len l + len k.
Proof. unfold len. rewrite length_app. lia. Qed.

Lemma len_nonneg {A} (l : list A) : 0 <= len l.
Proof. unfold len. lia. Qed.

Lemma index_mid {A} (k1 : list A) (a : A) (k2 : list A) :
  index (k1 ++ a :: k2) (len k1) = Some a.
Proof. unfold len. rewrite index_nat. apply list_lookup_middle. done. Qed.

Lemma index_split {A} (s : list A) (i : Z) (a : A) :
  index s i = Some a →
  ∃ k1 k2, s = k1 ++ a :: k2 ∧ i = len k1.
Proof.
  intros [Hi Hl]%index_Some.
  exists (take (Z.to_nat i) s), (drop (S (Z.to_nat i)) s). split.
  - by rewrite take_drop_middle.
  - pose proof (lookup_lt_Some _ _ _ Hl). unfold len. rewrite length_take. lia.
Qed.

Lemma mid_next {A} (k1 : list A) (a : A) (k2 : list A) :
  k1 ++ a :: k2 = (k1 ++ [a]) ++ k2.
Proof. by rewrite <- app_assoc. Qed.

Lemma len_snoc {A} (k1 : list A) (a : A) : len k1 + 1 = len (k1 ++ [a]).
Proof. rewrite len_app. done. Qed.

Ltac range_tac :=
  unfold len in *;
  repeat first
    [ rewrite copy_within_length by range_tac
    | rewrite length_app | rewrite length_insert | rewrite length_take
    | rewrite length_drop ];
  simpl length; lia.

Section line_array_facts.
Context {State LineMatch : Type}.
Abbreviation Line := (Line State LineMatch).
Abbreviation LineArray := (LineArray State LineMatch).
Implicit Types (la : LineArray) (ls pre post : list Line) (ln : Line).

Lemma NewlineBelow_nat ls (y : nat) ln :
  ls !! y = Some ln →
  LineArray.NewlineBelow (mkLineArray ls) (Z.of_nat y) =
  Some (mkLineArray (take (S y) ls ++ mkLine [] (state ln) None false :: drop (S y) ls)).
Proof.
  intros Hy. pose proof (lookup_lt_Some _ _ _ Hy) as Hlt.
  unfold LineArray.NewlineBelow. cbn [lines].
  rewrite !in_range_true by range_tac.
  cbn [check mbind option_bind].
  replace (Z.to_nat (Z.of_nat y + 2)) with (S (S y)) by lia.
  replace (Z.to_nat (Z.of_nat y + 1)) with (S y) by lia.
  rewrite index_nat, copy_up_lookup by lia.
  rewrite lookup_app_l, Hy by done. cbn [mbind option_bind].
  do 2 f_equal.
  apply copy_up_insert. lia.
Qed.

Lemma set_line_mid pre ln post ln' :
  LineArray.set_line (mkLineArray (pre ++ ln :: post)) (len pre) ln' = mkLineArray (pre ++ ln' :: post).
Proof.
  unfold LineArray.set_line, len. cbn [lines]. rewrite Nat2Z.id.
  replace (length pre) with (length pre + 0)%nat at 1 by lia.
  by rewrite insert_app_r.
Qed.

Lemma NewlineBelow_mid pre ln post :
  LineArray.NewlineBelow (mkLineArray (pre ++ ln :: post)) (len pre) =
  Some (mkLineArray (pre ++ ln :: mkLine [] (state ln) None false :: post)).
Proof.
  unfold len. rewrite (NewlineBelow_nat _ _ ln) by (by apply list_lookup_middle).
  do 2 f_equal. rewrite (mid_next pre ln post).
  rewrite take_app_length', drop_app_length' by (rewrite length_app; simpl; lia).
  by rewrite <- app_assoc.
Qed.

Lemma NewlineBelow_None la y :
  index (lines la) y = None → LineArray.NewlineBelow la y = None.
Proof.
  intros Hn%index_None. unfold LineArray.NewlineBelow.
  pose proof (len_nonneg (lines la)).
  destruct (decide (0 <= y + 2 <= len (lines la) + 1)) as [Hy|Hy].
  - assert (y = -2 ∨ y = -1) as [-> | ->] by lia.
    + rewrite (in_range_true 0 (-2 + 2)) by range_tac.
      rewrite !(in_range_false 0 (-2 + 1)) by lia. reflexivity.
    + rewrite (in_range_true 0 (-1 + 2)) by range_tac.
      rewrite (in_range_true 0 (-1 + 1) (len (_ ++ _))) by range_tac. reflexivity.
  - rewrite (in_range_false 0 (y + 2)) by (rewrite len_app; unfold len in *; simpl length; lia).
    reflexivity.
Qed.

Lemma insertByte_mid pre ln post (x : Z) (b : byte) :
  0 <= x <= len (data ln) →
  LineArray.insertByte (mkLineArray (pre ++ ln :: post)) (mkLoc x (len pre)) b =
  Some (mkLineArray
    (pre ++ LineArray.set_data ln (slice_to (data ln) x ++ b :: slice_from (data ln) x) :: post)).
Proof.
  intros Hx. unfold LineArray.insertByte. cbn [lines X Y].
  rewrite index_mid. cbn [mbind option_bind].
  rewrite !in_range_true by range_tac.
  cbn [check mbind option_bind]. rewrite set_line_mid. do 4 f_equal.
  replace (Z.to_nat (x + 1)) with (S (Z.to_nat x)) by lia.
  f_equal. apply copy_up_insert. unfold len in Hx. lia.
Qed.

Lemma DeleteToEnd_mid pre ln post (x : Z) :
  0 <= x <= len (data ln) →
  LineArray.DeleteToEnd (mkLineArray (pre ++ ln :: post)) (mkLoc x (len pre)) =
  Some (mkLineArray (pre ++ LineArray.set_data ln (slice_to (data ln) x) :: post)).
Proof.
  intros Hx. unfold LineArray.DeleteToEnd. cbn [lines X Y].
  rewrite index_mid. cbn [mbind option_bind].
  rewrite in_range_true by done. cbn [check mbind option_bind].
  by rewrite set_line_mid.
Qed.

Lemma DeleteFromStart_mid pre ln post (x : Z) :
  0 <= x + 1 <= len (data ln) →
  LineArray.DeleteFromStart (mkLineArray (pre ++ ln :: post)) (mkLoc x (len pre)) =
  Some (mkLineArray (pre ++ LineArray.set_data ln (slice_from (data ln) (x + 1)) :: post)).
Proof.
  intros Hx. unfold LineArray.DeleteFromStart. cbn [lines X Y].
  rewrite index_mid. cbn [mbind option_bind].
  rewrite in_range_true by done. cbn [check mbind option_bind].
  by rewrite set_line_mid.
Qed.

Lemma DeleteLine_mid pre ln post :
  LineArray.DeleteLine (mkLineArray (pre ++ ln :: post)) (len pre) = Some (mkLineArray (pre ++ post)).
Proof.
  unfold LineArray.DeleteLine. cbn [lines].
  rewrite !in_range_true by range_tac. cbn [check mbind option_bind].
  unfold len. replace (Z.to_nat (Z.of_nat (length pre) + 1)) with (S (length pre)) by lia.
  rewrite Nat2Z.id.
  pose proof (copy_down_take (pre ++ ln :: post) (length pre)) as Hc.
  destruct (copy_within _ _ _) as [ls' n]. cbn [fst snd] in Hc.
  unfold slice_to. replace (Z.to_nat _) with (length pre + n)%nat by lia.
  rewrite Hc by (rewrite length_app; simpl; lia).
  rewrite take_app_length. rewrite (mid_next pre ln post).
  rewrite drop_app_length' by (rewrite length_app; simpl; lia). done.
Qed.

Lemma DeleteLine_Some la y la' :
  LineArray.DeleteLine la y = Some la' →
  ∃ pre ln post, lines la = pre ++ ln :: post ∧ y = len pre ∧ lines la' = pre ++ post.
Proof.
  intros H. destruct la as [ls].
  destruct (index ls y) as [ln|] eqn:Hy.
  - apply index_split in Hy as (pre & post & -> & ->).
    rewrite DeleteLine_mid in H.
    assert (la' = mkLineArray (pre ++ post)) as -> by congruence. by exists pre, ln, post.
  - exfalso. apply index_None in Hy. revert H. unfold LineArray.DeleteLine. cbn [lines].
    destruct (in_range 0 y _) eqn:E1; [|discriminate].
    destruct (in_range 0 (y + 1) _) eqn:E2; [|discriminate].
    apply in_range_iff in E1, E2. lia.
Qed.

Lemma set_data_set_data ln d d' :
  LineArray.set_data (LineArray.set_data ln d) d' = LineArray.set_data ln d'.
Proof. done. Qed.

Lemma set_data_id ln : LineArray.set_data ln (data ln) = ln.
Proof. by destruct ln. Qed.

Lemma slice_to_from {A} (d : list A) (x : Z) : slice_to d x ++ slice_from d x = d.
Proof. apply take_drop. Qed.

Lemma slice_to_insert {A} (d : list A) (x : Z) (b : A) :
  0 <= x <= len d →
  slice_to (slice_to d x ++ b :: slice_from d x) (x + 1) = slice_to d x ++ [b].
Proof.
  intros Hx. unfold slice_to, slice_from, len in *.
  rewrite (cons_middle b), app_assoc.
  apply take_app_length'. rewrite length_app, length_take. simpl. lia.
Qed.

Lemma slice_from_insert {A} (d : list A) (x : Z) (b : A) :
  0 <= x <= len d →
  slice_from (slice_to d x ++ b :: slice_from d x) (x + 1) = slice_from d x.
Proof.
  intros Hx. unfold slice_to, slice_from, len in *.
  rewrite (cons_middle b), app_assoc.
  apply drop_app_length'. rewrite length_app, length_take. simpl. lia.
Qed.

(** Without a line feed among the bytes, [insert] splices them into the
    line, whatever [Split] is. *)
Lemma insert_loop_nolf Sp pre ln post (x : Z) (v : list byte) :
  LF ∉ v → 0 <= x <= len (data ln) →
  LineArray.insert_loop Sp (mkLineArray (pre ++ ln :: post)) x (len pre) v =
  Some (mkLineArray
    (pre ++ LineArray.set_data ln (slice_to (data ln) x ++ v ++ slice_from (data ln) x) :: post)).
Proof.
  revert ln x. induction v as [|b v IH]; intros ln x Hv Hx.
  - cbn [LineArray.insert_loop app]. by rewrite slice_to_from, set_data_id.
  - apply not_elem_of_cons in Hv as [Hb Hv].
    cbn [LineArray.insert_loop]. rewrite decide_False by done.
    rewrite insertByte_mid by done. cbn [mbind option_bind].
    rewrite IH; [|done|cbn [data LineArray.set_data]; rewrite len_app; unfold len, slice_to, slice_from in *; simpl length; rewrite length_take, length_drop; lia].
    cbn [data LineArray.set_data].
    rewrite slice_to_insert, slice_from_insert by done.
    by rewrite <- app_assoc.
Qed.

Lemma insert_depth_nolf k pre ln post (x : Z) (v : list byte) :
  LF ∉ v →
  LineArray.insert_depth (S k) (mkLineArray (pre ++ ln :: post)) (mkLoc x (len pre)) v =
  Some (mkLineArray
    (pre ++ LineArray.set_data ln
              (slice_to (data ln) (runeToByteIndex x (data ln)) ++ v ++
               slice_from (data ln) (runeToByteIndex x (data ln))) :: post)).
Proof.
  intros Hv. cbn [LineArray.insert_depth lines X Y].
  rewrite index_mid. cbn [mbind option_bind].
  apply insert_loop_nolf; [done|apply runeToByteIndex_bounds].
Qed.

Lemma index_mid1 {A} (k1 : list A) (a b : A) (k2 : list A) :
  index (k1 ++ a :: b :: k2) (len k1 + 1) = Some b.
Proof. rewrite (mid_next k1 a), (len_snoc k1 a). apply index_mid. Qed.

Lemma set_line_mid1 pre ln0 ln post ln' :
  LineArray.set_line (mkLineArray (pre ++ ln0 :: ln :: post)) (len pre + 1) ln' =
  mkLineArray (pre ++ ln0 :: ln' :: post).
Proof.
  rewrite (mid_next pre ln0), (len_snoc pre ln0), set_line_mid.
  by rewrite <- (mid_next pre ln0).
Qed.

Lemma insert_depth_nolf1 k pre ln0 ln post (x : Z) (v : list byte) :
  LF ∉ v →
  LineArray.insert_depth (S k) (mkLineArray (pre ++ ln0 :: ln :: post))
    (mkLoc x (len pre + 1)) v =
  Some (mkLineArray
    (pre ++ ln0 :: LineArray.set_data ln
              (slice_to (data ln) (runeToByteIndex x (data ln)) ++ v ++
               slice_from (data ln) (runeToByteIndex x (data ln))) :: post)).
Proof.
  intros Hv. rewrite (mid_next pre ln0), (len_snoc pre ln0), insert_depth_nolf by done.
  by rewrite <- (mid_next pre ln0).
Qed.

(** [Split] where the bytes behind the column hold no line feed. *)
Lemma Split_mid k pre ln post (x : Z) :
  0 <= x <= len (data ln) → LF ∉ slice_from (data ln) x →
  LineArray.Split_with (LineArray.insert_depth (S k)) (mkLineArray (pre ++ ln :: post))
    (mkLoc x (len pre)) =
  Some (mkLineArray
    (pre ++ mkLine (slice_to (data ln) x) None None true
         :: mkLine (slice_from (data ln) x) (state ln) None false :: post)).
Proof.
  intros Hx Hv. unfold LineArray.Split_with. cbn [X Y].
  rewrite NewlineBelow_mid. cbn [mbind option_bind lines].
  rewrite index_mid. cbn [mbind option_bind].
  rewrite in_range_true by done. cbn [check mbind option_bind].
  rewrite insert_depth_nolf1 by done. cbn [mbind option_bind lines].
  rewrite index_mid. cbn [mbind option_bind].
  rewrite index_mid1. cbn [mbind option_bind].
  rewrite set_line_mid1. cbn [lines].
  rewrite index_mid. cbn [mbind option_bind]. rewrite set_line_mid. cbn [lines].
  rewrite index_mid. cbn [mbind option_bind]. rewrite set_line_mid. cbn [lines].
  rewrite index_mid1. cbn [mbind option_bind]. rewrite set_line_mid1. cbn [lines].
  rewrite index_mid. cbn [mbind option_bind]. rewrite set_line_mid.
  rewrite DeleteToEnd_mid by done.
  cbn [data state match_ rehighlight LineArray.set_data].
  unfold runeToByteIndex. cbn [Z.eqb].
  unfold slice_to at 2, slice_from at 2. cbn [Z.to_nat take drop app].
  by rewrite app_nil_r.
Qed.

Lemma slice_to_len {A} (d : list A) : slice_to d (len d) = d.
Proof. unfold slice_to, len. rewrite Nat2Z.id. apply take_ge. lia. Qed.

Lemma slice_from_len {A} (d : list A) : slice_from d (len d) = [].
Proof. unfold slice_from, len. rewrite Nat2Z.id. apply drop_all. Qed.

Lemma JoinLines_mid pre a b post :
  LF ∉ data b →
  LineArray.JoinLines (mkLineArray (pre ++ a :: b :: post)) (len pre) (len pre + 1) =
  Some (mkLineArray (pre ++ LineArray.set_data a (data a ++ data b) :: post)).
Proof.
  intros Hb. unfold LineArray.JoinLines, LineArray.insert. cbn [lines].
  rewrite index_mid, index_mid1. cbn [mbind option_bind].
  replace (len pre =? len pre + 1) with false by (symmetry; apply Z.eqb_neq; lia).
  cbn [negb check mbind option_bind].
  rewrite insert_depth_nolf by done. cbn [mbind option_bind].
  rewrite runeToByteIndex_len by lia. rewrite slice_to_len, slice_from_len, app_nil_r.
  rewrite (mid_next pre _), (len_snoc pre (LineArray.set_data a (data a ++ data b))).
  rewrite DeleteLine_mid. by rewrite <- app_assoc.
Qed.

(** *** The nesting of [insert] and [Split] *)

Lemma insert_loop_ext Sp1 Sp2 la (x y : Z) (v : list byte) :
  (∀ la pos, Sp1 la pos = Sp2 la pos) →
  LineArray.insert_loop Sp1 la x y v = LineArray.insert_loop Sp2 la x y v.
Proof.
  intros HS. revert la x y. induction v as [|b v IH]; intros la x y; [done|].
  cbn [LineArray.insert_loop]. case_decide.
  - rewrite HS. destruct (Sp2 la _); [apply IH|done].
  - destruct (LineArray.insertByte la _ b); [apply IH|done].
Qed.

Lemma insertByte_None la pos b :
  index (lines la) (Y pos) = None → LineArray.insertByte la pos b = None.
Proof. intros H. unfold LineArray.insertByte. by rewrite H. Qed.

(** An [insert] that starts at the end of its line stays at the end of
    a line, so its [Split]s hand no bytes to the next [insert]. *)
Lemma insert_loop_at_end k la (x y : Z) (v : list byte) :
  (∀ ln, index (lines la) y = Some ln → x = len (data ln)) →
  LineArray.insert_loop (LineArray.Split_with (LineArray.insert_depth (S k))) la x y v =
  LineArray.insert_loop (LineArray.Split_with (LineArray.insert_depth 1)) la x y v.
Proof.
  revert la x y. induction v as [|b v IH]; intros la x y Hend; [done|].
  cbn [LineArray.insert_loop]. destruct la as [ls].
  destruct (index ls y) as [ln|] eqn:Hy.
  - apply index_split in Hy as (pre & post & -> & ->).
    specialize (Hend ln (index_mid _ _ _)). subst x.
    case_decide.
    + rewrite !Split_mid by (rewrite ?slice_from_len; first [unfold len; lia|apply not_elem_of_nil]).
      cbn [mbind option_bind]. apply IH. cbn [lines]. intros ln'. rewrite index_mid1.
      intros [= <-]. cbn [data]. by rewrite slice_from_len.
    + rewrite insertByte_mid by (unfold len; lia). cbn [mbind option_bind].
      apply IH. cbn [lines]. intros ln'. rewrite index_mid. intros [= <-].
      cbn [data LineArray.set_data]. rewrite slice_to_len, slice_from_len.
      by rewrite len_app.
  - case_decide.
    + unfold LineArray.Split_with. cbn [Y]. by rewrite NewlineBelow_None.
    + by rewrite insertByte_None.
Qed.

Lemma insert_depth_into_empty k la (y : Z) (v : list byte) :
  (∀ ln, index (lines la) y = Some ln → data ln = []) →
  LineArray.insert_depth (S (S k)) la (mkLoc 0 y) v =
  LineArray.insert_depth 2 la (mkLoc 0 y) v.
Proof.
  intros He. cbn [LineArray.insert_depth X Y].
  destruct (index (lines la) y) as [ln|] eqn:Hy; [|done]. cbn [mbind option_bind].
  apply insert_loop_at_end. intros ln' Hy'. rewrite Hy in Hy'. injection Hy' as <-.
  by rewrite (He ln eq_refl).
Qed.

(** Two nested activations of [insert] are all that [Split] ever needs,
    and three all that [insert] needs. *)
Lemma Split_depth_enough k la pos :
  LineArray.Split_with (LineArray.insert_depth (S (S k))) la pos = LineArray.Split la pos.
Proof.
  unfold LineArray.Split, LineArray.Split_with. destruct la as [ls].
  destruct (index ls (Y pos)) as [ln|] eqn:Hy.
  - apply index_split in Hy as (pre & post & -> & Hy). rewrite Hy.
    rewrite NewlineBelow_mid. cbn [mbind option_bind lines].
    rewrite index_mid. cbn [mbind option_bind].
    destruct (check _); [|done]. cbn [mbind option_bind].
    rewrite insert_depth_into_empty; [done|].
    cbn [lines]. intros ln'. rewrite index_mid1. by intros [= <-].
  - by rewrite NewlineBelow_None.
Qed.

Lemma insert_depth_enough k la pos (v : list byte) :
  LineArray.insert_depth (S (S (S k))) la pos v = LineArray.insert la pos v.
Proof.
  unfold LineArray.insert. cbn [LineArray.insert_depth].
  destruct (index (lines la) (Y pos)); [|done]. cbn [mbind option_bind].
  apply insert_loop_ext. intros la' pos'. apply Split_depth_enough.
Qed.
End line_array_facts.

Section round_trips.
Context {State LineMatch : Type}.
Abbreviation Line := (Line State LineMatch).
Abbreviation LineArray := (LineArray State LineMatch).
Implicit Types (la : LineArray) (ls pre post : list Line) (ln : Line).

Lemma no_lf_index la (y : Z) ln :
  no_lf la = true → index (lines la) y = Some ln → LF ∉ data ln.
Proof.
  unfold no_lf. rewrite forallb_forall. intros Hall [_ Hy]%index_Some.
  apply list_elem_of_lookup_2, list_elem_of_In, Hall in Hy.
  by apply bool_decide_eq_true in Hy.
Qed.

Lemma not_elem_of_drop {A} (a : A) (d : list A) (n : nat) : a ∉ d → a ∉ drop n d.
Proof. intros Hd Hin. apply Hd. rewrite <- (take_drop n d). set_solver. Qed.

Lemma not_elem_of_take {A} (a : A) (d : list A) (n : nat) : a ∉ d → a ∉ take n d.
Proof. intros Hd Hin. apply Hd. rewrite <- (take_drop n d). set_solver. Qed.

(** C2.  In a store without line feeds and at a valid position,
    [Split pos] followed by [JoinLines pos.Y (pos.Y + 1)] succeeds and
    gives back the bytes of every line and the line count.  The store
    itself differs from the original only in the highlight fields of
    line [pos.Y], which [Split] has reset. *)
Theorem Split_JoinLines la (pos : Loc) ln :
  no_lf la = true →
  index (lines la) (Y pos) = Some ln →
  0 <= X pos <= len (data ln) →
  ∃ la1 la2,
    LineArray.Split la pos = Some la1 ∧
    LineArray.JoinLines la1 (Y pos) (Y pos + 1) = Some la2 ∧
    la2 = LineArray.set_line la (Y pos) (mkLine (data ln) None None true) ∧
    data <$> lines la2 = data <$> lines la ∧
    len (lines la2) = len (lines la).
Proof.
  intros Hlf Hy Hx. pose proof (no_lf_index _ _ _ Hlf Hy) as Hln.
  destruct la as [ls], pos as [x y]. cbn [lines X Y] in *.
  apply index_split in Hy as (pre & post & -> & ->).
  eexists _, _. split; [|split; [|split; [reflexivity|] ] ].
  - unfold LineArray.Split. apply Split_mid; [done|]. by apply not_elem_of_drop.
  - rewrite JoinLines_mid by (by apply not_elem_of_drop).
    cbn [data LineArray.set_data]. rewrite slice_to_from. by rewrite set_line_mid.
  - rewrite set_line_mid. cbn [lines]. split.
    + by rewrite !fmap_app, !fmap_cons.
    + by rewrite !len_app.
Qed.


(** *** [Substr] and [remove] *)

Lemma Substr_loop_mid pre (mid : list Line) post (str : list byte) :
  LineArray.Substr_loop (length mid) (len pre) (pre ++ mid ++ post) str =
  Some (str ++ mjoin ((λ l, data l ++ [LF]) <$> mid)).
Proof.
  revert pre str. induction mid as [|m mid IH]; intros pre str.
  - cbn. by rewrite app_nil_r.
  - cbn [length LineArray.Substr_loop app]. rewrite index_mid. cbn [mbind option_bind].
    rewrite (mid_next pre m), (len_snoc pre m), IH.
    rewrite fmap_cons. cbn [mjoin list_join]. by rewrite <- !app_assoc.
Qed.

Lemma DeleteLine_loop_mid pre (mid : list Line) post :
  LineArray.DeleteLine_loop (length mid) (mkLineArray (pre ++ mid ++ post)) (len pre) =
  Some (mkLineArray (pre ++ post)).
Proof.
  induction mid as [|m mid IH]; [done|].
  cbn [length LineArray.DeleteLine_loop app]. rewrite DeleteLine_mid.
  cbn [mbind option_bind]. apply IH.
Qed.

Lemma DeleteFromStart_mid1 pre ln0 ln post (x : Z) :
  0 <= x + 1 <= len (data ln) →
  LineArray.DeleteFromStart (mkLineArray (pre ++ ln0 :: ln :: post)) (mkLoc x (len pre + 1)) =
  Some (mkLineArray (pre ++ ln0 :: LineArray.set_data ln (slice_from (data ln) (x + 1)) :: post)).
Proof.
  intros Hx. rewrite (mid_next pre ln0), (len_snoc pre ln0), DeleteFromStart_mid by done.
  by rewrite <- (mid_next pre ln0).
Qed.

Lemma index_split2 {A} (s : list A) (i j : Z) (a b : A) :
  index s i = Some a → index s j = Some b → i < j →
  ∃ k1 mid k2, s = k1 ++ a :: mid ++ b :: k2 ∧ i = len k1 ∧ j = len k1 + 1 + len mid.
Proof.
  intros (k1 & r & -> & ->)%index_split Hj Hij.
  apply index_Some in Hj as [_ Hj].
  rewrite lookup_app_r in Hj by (unfold len in *; lia).
  replace (Z.to_nat j - length k1)%nat with (S (Z.to_nat j - length k1 - 1)) in Hj
    by (unfold len in *; lia).
  cbn [lookup list_lookup] in Hj.
  pose proof (lookup_lt_Some _ _ _ Hj) as Hlt.
  exists k1, (take (Z.to_nat j - length k1 - 1) r), (drop (S (Z.to_nat j - length k1 - 1)) r).
  split; [by rewrite take_drop_middle|].
  split; [done|]. unfold len in *. rewrite length_take. lia.
Qed.

(** [remove] in closed form. *)
Lemma remove_closed_form la (start end_ : Loc) a b :
  no_lf la = true →
  index (lines la) (Y start) = Some a →
  index (lines la) (Y end_) = Some b →
  Y start < Y end_ ∨ (Y start = Y end_ ∧ 0 <= X start <= X end_) →
  let startX := runeToByteIndex (X start) (data a) in
  let endX := runeToByteIndex (X end_) (data b) in
  ∃ la' sub,
    LineArray.remove la start end_ = Some (la', sub) ∧
    LineArray.Substr la start end_ = Some sub ∧
    (Y start = Y end_ →
      sub = slice_from (slice_to (data a) endX) startX ∧
      la' = LineArray.set_line la (Y start)
              (LineArray.set_data a (slice_to (data a) startX ++ slice_from (data a) endX))) ∧
    (Y start < Y end_ →
      sub = slice_from (data a) startX ++ [LF] ++
            mjoin ((λ l, data l ++ [LF]) <$> between (lines la) (Y start) (Y end_)) ++
            slice_to (data b) endX ∧
      lines la' =
        slice_to (lines la) (Y start) ++
        LineArray.set_data a (slice_to (data a) startX ++ slice_from (data b) endX) ::
        slice_from (lines la) (Y end_ + 1) ∧
      len (lines la') = len (lines la) - (Y end_ - Y start)).
Proof.
  intros Hlf Hs He Hord startX endX.
  pose proof (no_lf_index _ _ _ Hlf He) as Hb.
  pose proof (runeToByteIndex_bounds (X start) (data a)) as Hsx.
  pose proof (runeToByteIndex_bounds (X end_) (data b)) as Hex.
  fold startX in Hsx. fold endX in Hex.
  destruct la as [lns0], start as [sx sy], end_ as [ex ey]. cbn [lines X Y] in *.
  destruct Hord as [Hlt|[-> Hx]].
  - (* different lines *)
    destruct (index_split2 _ _ _ _ _ Hs He Hlt) as (pre & mid & post & -> & -> & ->).
    assert (LineArray.Substr (mkLineArray (pre ++ a :: mid ++ b :: post))
              (mkLoc sx (len pre)) (mkLoc ex (len pre + 1 + len mid)) =
            Some (slice_from (data a) startX ++ [LF] ++
                  mjoin ((λ l, data l ++ [LF]) <$> mid) ++ slice_to (data b) endX)) as HS.
    { unfold LineArray.Substr. cbn [lines X Y]. rewrite Hs, He. cbn [mbind option_bind].
      replace (len pre =? len pre + 1 + len mid) with false
        by (symmetry; apply Z.eqb_neq; unfold len; lia).
      replace (Z.to_nat (len pre + 1 + len mid - 1 - len pre)) with (length mid)
        by (unfold len; lia).
      rewrite (mid_next pre a), (len_snoc pre a), Substr_loop_mid.
      cbn [mbind option_bind]. fold startX endX. by rewrite <- !app_assoc. }
    eexists _, _. split; [|split; [exact HS|split; [unfold len; lia|intros _] ] ].
    + unfold LineArray.remove. rewrite HS. cbn [mbind option_bind lines X Y].
      rewrite Hs, He. cbn [mbind option_bind].
      replace (len pre =? len pre + 1 + len mid) with false
        by (symmetry; apply Z.eqb_neq; unfold len; lia).
      replace (Z.to_nat (len pre + 1 + len mid - 1 - len pre)) with (length mid)
        by (unfold len; lia).
      rewrite (mid_next pre a), (len_snoc pre a), DeleteLine_loop_mid.
      rewrite <- (mid_next pre a), <- (len_snoc pre a). cbn [mbind option_bind].
      fold startX endX.
      rewrite DeleteToEnd_mid by done. cbn [mbind option_bind].
      rewrite DeleteFromStart_mid1 by lia. cbn [mbind option_bind].
      rewrite JoinLines_mid by (cbn [data LineArray.set_data]; by apply not_elem_of_drop).
      cbn [mbind option_bind]. reflexivity.
    + cbn [lines data LineArray.set_data].
      replace (endX - 1 + 1) with endX by lia.
      split; [|split].
      * do 3 f_equal. unfold between, slice_from, slice_to.
        replace (Z.to_nat (len pre + 1)) with (length (pre ++ [a])) by (rewrite length_app; unfold len; simpl; lia).
        rewrite (mid_next pre a (mid ++ _)), drop_app_length.
        rewrite take_app_length'; [done|unfold len; lia].
      * rewrite set_data_set_data. f_equal; [|f_equal].
        -- unfold slice_to, len. by rewrite Nat2Z.id, take_app_length.
        -- unfold slice_from.
           replace (pre ++ a :: mid ++ b :: post) with ((pre ++ a :: mid ++ [b]) ++ post)
             by (rewrite <- !app_assoc; simpl; by rewrite <- !app_assoc).
           symmetry. apply drop_app_length'.
           rewrite !length_app. simpl length. rewrite length_app. simpl length.
           unfold len. lia.
      * rewrite !len_app. unfold len. simpl length. rewrite !length_app. simpl length. lia.
  - (* one line *)
    rewrite Hs in He. injection He as <-.
    assert (startX <= endX) as Hse by (by apply runeToByteIndex_mono).
    assert (LineArray.Substr (mkLineArray lns0) (mkLoc sx ey) (mkLoc ex ey) =
            Some (slice_from (slice_to (data a) endX) startX)) as HS.
    { unfold LineArray.Substr. cbn [lines X Y]. rewrite Hs. cbn [mbind option_bind].
      rewrite Z.eqb_refl. fold startX endX. by rewrite in_range_true by lia. }
    eexists _, _. split; [|split; [exact HS|split; [intros _|lia] ] ].
    + unfold LineArray.remove. rewrite HS. cbn [mbind option_bind lines X Y].
      rewrite Hs. cbn [mbind option_bind]. rewrite Z.eqb_refl. reflexivity.
    + done.
Qed.


End round_trips.

Lemma Split_JoinLines_witness :
  ∃ la1 la2,
    LineArray.Split (plain_store ["héllo"; "world"]) (mkLoc 3 0) = Some la1 ∧
    LineArray.JoinLines la1 0 1 = Some la2 ∧
    la2 = LineArray.set_line (plain_store ["héllo"; "world"]) 0
            (mkLine (bytes_of "héllo") None None true) ∧
    data <$> lines la2 = data <$> lines (plain_store ["héllo"; "world"]) ∧
    len (lines la2) = len (lines (plain_store ["héllo"; "world"])).
Proof.
  apply (Split_JoinLines (plain_store ["héllo"; "world"]) (mkLoc 3 0) (plain_line "héllo")).
  - reflexivity.
  - reflexivity.
  - vm_compute. split; discriminate.
Defined.

(** ** Splitting at line feeds *)

Lemma split_lf_nonempty (s : list byte) : split_lf s ≠ [].
Proof. destruct s as [|b s]; [done|]. simpl. case_decide; [done|]. by destruct (split_lf s). Qed.

Lemma split_lf_cons (b : byte) (s : list byte) :
  b ≠ LF → split_lf (b :: s) = glue [b] (split_lf s).
Proof.
  intros Hb. simpl. rewrite decide_False by done.
  pose proof (split_lf_nonempty s). by destruct (split_lf s).
Qed.

Lemma split_lf_nolf (s : list byte) : LF ∉ s → split_lf s = [s].
Proof.
  induction s as [|b s IH]; [done|]. intros [Hb Hs]%not_elem_of_cons.
  rewrite split_lf_cons by done. by rewrite IH.
Qed.

Lemma split_lf_app_nolf (s r : list byte) :
  LF ∉ s → split_lf (s ++ r) = glue s (split_lf r).
Proof.
  induction s as [|b s IH]; intros Hs.
  - simpl. pose proof (split_lf_nonempty r). by destruct (split_lf r).
  - apply not_elem_of_cons in Hs as [Hb Hs]. cbn [app].
    rewrite split_lf_cons, IH by done.
    pose proof (split_lf_nonempty r). by destruct (split_lf r).
Qed.

Lemma split_lf_segments (s seg : list byte) : seg ∈ split_lf s → LF ∉ seg.
Proof.
  revert seg. induction s as [|b s IH]; intros seg.
  - simpl. intros ->%list_elem_of_singleton. apply not_elem_of_nil.
  - simpl. case_decide as Hb.
    + intros [->|Hin]%elem_of_cons; [apply not_elem_of_nil|by apply IH].
    + destruct (split_lf s) as [|seg0 segs] eqn:Hsp.
      * intros ->%list_elem_of_singleton. apply not_elem_of_cons; split; [done|apply not_elem_of_nil].
      * intros [->|Hin]%elem_of_cons.
        -- apply not_elem_of_cons; split; [done|]. apply IH. left.
        -- apply IH. by right.
Qed.

Lemma join_split_lf (s : list byte) : join_with [LF] (split_lf s) = s.
Proof.
  induction s as [|b s IH]; [done|]. simpl. case_decide as Hb.
  - subst b. pose proof (split_lf_nonempty s). cbn [join_with].
    destruct (split_lf s) eqn:E; [done|]. cbn [app]. by rewrite IH.
  - pose proof (split_lf_nonempty s). destruct (split_lf s) as [|seg segs] eqn:E; [done|].
    rewrite <- IH. cbn [join_with]. by destruct segs.
Qed.

Lemma split_lf_LF (s : list byte) : split_lf (LF :: s) = [] :: split_lf s.
Proof. done. Qed.

(** ** Construction *)

Lemma ReadBytes_found (s d r : list byte) :
  ReadBytes LF s = (d, r, true) →
  ∃ seg, d = seg ++ [LF] ∧ (LF ∉ seg) ∧ s = seg ++ LF :: r.
Proof.
  revert d r. induction s as [|b s IH]; intros d r; [done|].
  simpl. case_decide as Hb.
  - intros [= <- <-]. exists []. subst b. split; [done|]. split; [apply not_elem_of_nil|done].
  - destruct (ReadBytes LF s) as [[d' r'] f'] eqn:E. intros [= <- <- ->].
    destruct (IH _ _ eq_refl) as (seg & -> & Hseg & ->).
    exists (b :: seg). split; [done|]. split; [|done].
    apply not_elem_of_cons. done.
Qed.

Lemma ReadBytes_not_found (s d r : list byte) :
  ReadBytes LF s = (d, r, false) → d = s ∧ LF ∉ s.
Proof.
  revert d r. induction s as [|b s IH]; intros d r.
  - intros [= <- <-]. split; [done|apply not_elem_of_nil].
  - simpl. case_decide as Hb; [done|].
    destruct (ReadBytes LF s) as [[d' r'] f'] eqn:E. intros [= <- <- ->].
    destruct (IH _ _ eq_refl) as [-> Hs]. split; [done|].
    apply not_elem_of_cons. done.
Qed.


Section construction.
Context {State LineMatch : Type}.
Abbreviation Line := (Line State LineMatch).
Abbreviation LineArray := (LineArray State LineMatch).

Lemma NewLineArray_loop_split (fuel : nat) (s : list byte) (e : read_end) (acc : list Line) :
  (length s < fuel)%nat →
  LineArray.NewLineArray_loop fuel s e acc =
  acc ++ (fresh <$> match e with EOF => split_lf s | ReadError => removelast (split_lf s) end).
Proof.
  revert s acc. induction fuel as [|fuel IH]; intros s acc Hf; [lia|].
  cbn [LineArray.NewLineArray_loop].
  destruct (ReadBytes LF s) as [[d r] found] eqn:E. destruct found.
  - apply ReadBytes_found in E as (seg & -> & Hseg & ->).
    rewrite IH by (rewrite length_app in Hf; simpl in Hf; lia).
    unfold Append. rewrite <- app_assoc. f_equal.
    unfold slice_to, len. rewrite length_app. simpl length.
    replace (Z.to_nat _) with (length seg) by lia. rewrite take_app_length.
    rewrite split_lf_app_nolf by done. rewrite split_lf_LF.
    cbn [glue]. rewrite app_nil_r.
    pose proof (split_lf_nonempty r).
    destruct e; [done|]. destruct (split_lf r); done.
  - apply ReadBytes_not_found in E as [-> Hs].
    rewrite split_lf_nolf by done. destruct e; [done|]. simpl. by rewrite app_nil_r.
Qed.




(** *** [String] *)

Lemma String_loop_join (n i : Z) (ls : list Line) (str : list byte) :
  i + len ls = n →
  LineArray.String_loop n i ls str = str ++ join_with [LF] (data <$> ls).
Proof.
  revert i str. induction ls as [|l ls IH]; intros i str Hn.
  - cbn. by rewrite app_nil_r.
  - cbn [LineArray.String_loop fmap list_fmap join_with].
    rewrite IH by (unfold len in *; simpl length in *; lia).
    destruct ls as [|l' ls].
    + rewrite decide_False by (unfold len in *; simpl length in *; lia).
      cbn. by rewrite app_nil_r.
    + rewrite decide_True by (unfold len in *; simpl length in *; lia).
      by rewrite <- !app_assoc.
Qed.

Lemma String_join (la : LineArray) :
  LineArray.String la = join_with [LF] (data <$> lines la).
Proof. unfold LineArray.String. by rewrite String_loop_join by lia. Qed.

Lemma Encode_loop_join (useCrlf : bool) (n i : Z) (ls : list Line) (out : list byte) :
  i + len ls = n →
  Buffer.Encode_loop useCrlf n i ls out =
  out ++ join_with (if useCrlf then [CR; LF] else [LF]) (data <$> ls).
Proof.
  revert i out. induction ls as [|l ls IH]; intros i out Hn.
  - cbn. by rewrite app_nil_r.
  - cbn [Buffer.Encode_loop fmap list_fmap join_with].
    rewrite IH by (unfold len in *; simpl length in *; lia).
    destruct ls as [|l' ls].
    + rewrite decide_False by (unfold len in *; simpl length in *; lia).
      cbn. by rewrite app_nil_r.
    + rewrite decide_True by (unfold len in *; simpl length in *; lia).
      destruct useCrlf; by rewrite <- !app_assoc.
Qed.

End construction.



Ltac bind_inv H :=
  repeat match type of H with
  | (?m ≫= _) = Some _ =>
    let E := fresh "E" in
    destruct m eqn:E; cbn [mbind option_bind] in H; [|discriminate H]
  end.

Section counts.
Context {State LineMatch : Type}.
Abbreviation Line := (Line State LineMatch).
Abbreviation LineArray := (LineArray State LineMatch).
Implicit Types (la : LineArray) (ln : Line).

Lemma set_line_length la (y : Z) ln :
  length (lines (LineArray.set_line la y ln)) = length (lines la).
Proof. unfold LineArray.set_line. cbn [lines]. apply length_insert. Qed.

Lemma insertByte_length la pos (b : byte) la' :
  LineArray.insertByte la pos b = Some la' → length (lines la') = length (lines la).
Proof.
  unfold LineArray.insertByte. intros H. bind_inv H.
  injection H as <-. apply set_line_length.
Qed.

Lemma DeleteToEnd_length la pos la' :
  LineArray.DeleteToEnd la pos = Some la' → length (lines la') = length (lines la).
Proof.
  unfold LineArray.DeleteToEnd. intros H. bind_inv H.
  injection H as <-. apply set_line_length.
Qed.

Lemma NewlineBelow_length la (y : Z) la' :
  LineArray.NewlineBelow la y = Some la' → length (lines la') = S (length (lines la)).
Proof.
  intros H. destruct la as [ls]. destruct (index ls y) as [ln|] eqn:Hy.
  - apply index_split in Hy as (pre & post & -> & ->).
    rewrite NewlineBelow_mid in H. injection H as <-. cbn [lines].
    rewrite !length_app. simpl. lia.
  - by rewrite NewlineBelow_None in H.
Qed.

Lemma insert_loop_length Sp la (x y : Z) (v : list byte) la' :
  (∀ la pos la', Sp la pos = Some la' → (length (lines la) ≤ length (lines la'))%nat) →
  LineArray.insert_loop Sp la x y v = Some la' →
  (length (lines la) ≤ length (lines la'))%nat.
Proof.
  intros HSp. revert la x y. induction v as [|b v IH]; intros la x y H.
  - by injection H as <-.
  - cbn [LineArray.insert_loop] in H. case_decide.
    + bind_inv H. apply HSp in E. apply IH in H. lia.
    + bind_inv H. apply insertByte_length in E. apply IH in H. lia.
Qed.

Lemma Split_with_length ins la pos la' :
  (∀ la pos v la', ins la pos v = Some la' → (length (lines la) ≤ length (lines la'))%nat) →
  LineArray.Split_with ins la pos = Some la' →
  (length (lines la) ≤ length (lines la'))%nat.
Proof.
  intros Hins H. unfold LineArray.Split_with in H. bind_inv H.
  apply NewlineBelow_length in E. apply Hins in E2.
  apply DeleteToEnd_length in H. rewrite !set_line_length in H. lia.
Qed.

(** [insert] never takes a line away. *)
Lemma insert_depth_length (d : nat) la pos (v : list byte) la' :
  LineArray.insert_depth d la pos v = Some la' →
  (length (lines la) ≤ length (lines la'))%nat.
Proof.
  revert la pos v la'. induction d as [|d IH]; intros la pos v la' H; [done|].
  cbn [LineArray.insert_depth] in H. bind_inv H.
  eapply insert_loop_length; [|exact H].
  intros la1 pos1 la1'. apply Split_with_length. apply IH.
Qed.

Lemma JoinLines_length la (a b : Z) la' :
  LineArray.JoinLines la a b = Some la' → 1 <= len (lines la').
Proof.
  unfold LineArray.JoinLines, LineArray.insert. intros H.
  destruct (index (lines la) a) as [lna|] eqn:Ha; [|done].
  destruct (index (lines la) b) as [lnb|] eqn:Hb; [|done].
  cbn [mbind option_bind] in H.
  destruct (Z.eqb_spec a b) as [Hab|Hab]; [done|]. cbn [negb check mbind option_bind] in H.
  destruct (LineArray.insert_depth 3 la _ _) as [la1|] eqn:Hi; [|done].
  cbn [mbind option_bind] in H.
  apply insert_depth_length in Hi.
  apply DeleteLine_Some in H as (pre & ln & post & Hl & _ & ->).
  apply index_lt in Ha, Hb.
  unfold len in *. rewrite Hl in Hi. rewrite length_app in *. simpl length in *. lia.
Qed.

(** A [remove] that returns leaves at least one line. *)
Lemma remove_length la (start end_ : Loc) la' (sub : list byte) :
  LineArray.remove la start end_ = Some (la', sub) → 1 <= len (lines la').
Proof.
  unfold LineArray.remove. intros H. bind_inv H.
  destruct (Y start =? Y end_).
  - injection H as <- _. unfold len. rewrite set_line_length.
    match goal with E : index _ (Y start) = Some _ |- _ => apply index_lt in E; unfold len in E end.
    lia.
  - bind_inv H. injection H as <- _.
    match goal with E : LineArray.JoinLines _ _ _ = Some _ |- _ =>
      by apply JoinLines_length in E end.
Qed.

Lemma set_line_same la (y : Z) ln :
  index (lines la) y = Some ln → LineArray.set_line la y ln = la.
Proof.
  intros [_ Hy]%index_Some. destruct la as [ls]. unfold LineArray.set_line. cbn [lines] in *.
  by rewrite list_insert_id.
Qed.


(** *** [insert] *)

Lemma glue_glue (p q : list byte) (segs : list (list byte)) :
  segs ≠ [] → glue p (glue q segs) = glue (p ++ q) segs.
Proof. destruct segs; [done|]. intros _. cbn. by rewrite <- app_assoc. Qed.

Lemma glue_nil (segs : list (list byte)) : segs ≠ [] → glue [] segs = segs.
Proof. by destruct segs. Qed.

Lemma length_glue (p : list byte) (segs : list (list byte)) :
  segs ≠ [] → length (glue p segs) = length segs.
Proof. by destruct segs. Qed.

Lemma length_split_lf_app (v r : list byte) :
  LF ∉ r → length (split_lf (v ++ r)) = length (split_lf v).
Proof.
  intros Hr. induction v as [|b v IH].
  - cbn [app]. by rewrite split_lf_nolf.
  - cbn [app]. destruct (decide (b = LF)) as [->|Hb].
    + rewrite !split_lf_LF. simpl. by rewrite IH.
    + rewrite !split_lf_cons by done.
      rewrite !length_glue by apply split_lf_nonempty. done.
Qed.

Lemma Split_nolf (pre : list Line) ln (post : list Line) (x : Z) :
  0 <= x <= len (data ln) → LF ∉ slice_from (data ln) x →
  LineArray.Split (mkLineArray (pre ++ ln :: post)) (mkLoc x (len pre)) =
  Some (mkLineArray
    (pre ++ mkLine (slice_to (data ln) x) None None true
         :: mkLine (slice_from (data ln) x) (state ln) None false :: post)).
Proof. apply Split_mid. Qed.

(** The loop of [insert] on a line whose bytes from column [x] on hold
    no line feed: the bytes of the lines afterwards. *)
Lemma insert_loop_lines (v : list byte) (pre : list Line) ln (post : list Line) (x : Z) :
  0 <= x <= len (data ln) → LF ∉ slice_from (data ln) x →
  ∃ la',
    LineArray.insert_loop LineArray.Split (mkLineArray (pre ++ ln :: post)) x (len pre) v =
      Some la' ∧
    data <$> lines la' =
      (data <$> pre) ++
      glue (slice_to (data ln) x) (split_lf (v ++ slice_from (data ln) x)) ++
      (data <$> post).
Proof.
  revert pre ln x. induction v as [|b v IH]; intros pre ln x Hx Hlf.
  - eexists. split; [reflexivity|]. cbn [app lines].
    rewrite split_lf_nolf by done. cbn [glue]. rewrite slice_to_from.
    by rewrite fmap_app, fmap_cons.
  - cbn [LineArray.insert_loop app]. case_decide as Hb.
    + subst b. rewrite Split_nolf by done.
      cbn [mbind option_bind].
      rewrite (mid_next pre (mkLine (slice_to (data ln) x) None None true)),
        (len_snoc pre (mkLine (slice_to (data ln) x) None None true)).
      edestruct (IH (pre ++ [mkLine (slice_to (data ln) x) None None true])
                   (mkLine (slice_from (data ln) x) (state ln) None false) 0)
        as (la' & -> & Hla').
      { cbn [data]. unfold len. lia. }
      { done. }
      eexists. split; [reflexivity|]. rewrite Hla'. cbn [data].
      unfold slice_to at 1, slice_from at 1. cbn [Z.to_nat take drop].
      rewrite glue_nil by apply split_lf_nonempty.
      rewrite split_lf_LF. cbn [glue]. rewrite app_nil_r.
      rewrite fmap_app. cbn [fmap list_fmap data]. by rewrite <- app_assoc.
    + rewrite insertByte_mid by done. cbn [mbind option_bind].
      edestruct (IH pre (LineArray.set_data ln
                           (slice_to (data ln) x ++ b :: slice_from (data ln) x)) (x + 1))
        as (la' & -> & Hla').
      { cbn [data LineArray.set_data]. rewrite len_app.
        unfold len, slice_to, slice_from in *. simpl length.
        rewrite length_take, length_drop. lia. }
      { cbn [data LineArray.set_data]. by rewrite slice_from_insert. }
      eexists. split; [reflexivity|]. rewrite Hla'. cbn [data LineArray.set_data].
      rewrite slice_to_insert, slice_from_insert by done.
      rewrite split_lf_cons by done.
      by rewrite glue_glue by apply split_lf_nonempty.
Qed.

Lemma insert_lines la (pos : Loc) (value : list byte) ln :
  no_lf la = true →
  index (lines la) (Y pos) = Some ln →
  let x := runeToByteIndex (X pos) (data ln) in
  ∃ la',
    LineArray.insert la pos value = Some la' ∧
    data <$> lines la' =
      (data <$> slice_to (lines la) (Y pos)) ++
      glue (slice_to (data ln) x) (split_lf (value ++ slice_from (data ln) x)) ++
      (data <$> slice_from (lines la) (Y pos + 1)) ∧
    len (lines la') = len (lines la) + len (split_lf value) - 1.
Proof.
  intros Hlf Hy x.
  pose proof (no_lf_index _ _ _ Hlf Hy) as Hln.
  pose proof (runeToByteIndex_bounds (X pos) (data ln)) as Hx. fold x in Hx.
  destruct la as [lns0], pos as [px py]. cbn [lines X Y] in *.
  apply index_split in Hy as (pre & post & -> & ->).
  destruct (insert_loop_lines value pre ln post x Hx) as (la' & Hi & Hla').
  { by apply not_elem_of_drop. }
  exists la'. split; [|split].
  - unfold LineArray.insert. cbn [LineArray.insert_depth lines X Y].
    rewrite index_mid. cbn [mbind option_bind]. exact Hi.
  - rewrite Hla'. f_equal; [|f_equal].
    + unfold slice_to, len. by rewrite Nat2Z.id, take_app_length.
    + unfold slice_from. rewrite (mid_next pre ln post).
      rewrite drop_app_length'; [done|]. rewrite length_app. unfold len. simpl. lia.
  - apply (f_equal length) in Hla'. revert Hla'.
    rewrite !length_app, !length_fmap, length_glue by apply split_lf_nonempty.
    rewrite length_split_lf_app by (by apply not_elem_of_drop).
    unfold len. rewrite length_app. simpl length. lia.
Qed.
End counts.






Section accessors.
Context {State LineMatch : Type}.
Implicit Types (b : Buffer State LineMatch).

(** C9.  For every line index [n] at or behind the number of lines,
    [Line n] returns the empty string and [LineBytes n] the empty byte
    slice: both return, neither panics. *)
Theorem Line_past_end b (n : Z) :
  len (lines (lineArray b)) <= n →
  Buffer.Line b n = Some [] ∧ Buffer.LineBytes b n = Some [].
Proof.
  intros Hn. unfold Buffer.Line, Buffer.LineBytes, Buffer.blines.
  destruct (Z.leb_spec (len (lines (lineArray b))) n); [done|lia].
Qed.

(** C10.  [MoveLinesUp start end_] returns the buffer as it is when
    [start < 1], [start >= end_] or [end_] exceeds the line count, and
    [MoveLinesDown start end_] when [start < 0], [start >= end_] or
    [end_ >= line count - 1], whatever [Insert] and [Remove] of the
    event handler do; so a range that ends at the last line is never
    moved down. *)
Theorem MoveLines_guard Insert Remove b (start end_ : Z) :
  (start < 1 ∨ end_ <= start ∨ len (lines (lineArray b)) < end_ →
     Buffer.MoveLinesUp Insert Remove b start end_ = Some b) ∧
  (start < 0 ∨ end_ <= start ∨ len (lines (lineArray b)) - 1 <= end_ →
     Buffer.MoveLinesDown Insert Remove b start end_ = Some b) ∧
  (end_ = len (lines (lineArray b)) - 1 →
     Buffer.MoveLinesDown Insert Remove b start end_ = Some b).
Proof.
  unfold Buffer.MoveLinesUp, Buffer.MoveLinesDown, Buffer.blines.
  split; [|split]; intros H.
  - destruct (Z.ltb_spec start 1), (Z.leb_spec end_ start),
      (Z.ltb_spec (len (lines (lineArray b))) end_); simpl; try done; lia.
  - destruct (Z.ltb_spec start 0), (Z.leb_spec end_ start),
      (Z.leb_spec (len (lines (lineArray b)) - 1) end_); simpl; try done; lia.
  - destruct (Z.ltb_spec start 0), (Z.leb_spec end_ start),
      (Z.leb_spec (len (lines (lineArray b)) - 1) end_); simpl; try done; lia.
Qed.
End accessors.

Lemma Line_past_end_witness :
  Buffer.Line (mkBuffer (plain_store ["a"; "b"]) false 2 ∅ "") 2 = Some [] ∧
  Buffer.LineBytes (mkBuffer (plain_store ["a"; "b"]) false 2 ∅ "") 2 = Some [].
Proof.
  apply (Line_past_end (mkBuffer (plain_store ["a"; "b"]) false 2 ∅ "") 2).
  vm_compute. discriminate.
Defined.

Lemma MoveLines_guard_witness :
  let b := mkBuffer (plain_store ["a"; "b"; "c"]) false 3 ∅ "" in
  Buffer.MoveLinesUp (λ b _ _, Some b) (λ b _ _, Some b) b 0 2 = Some b ∧
  Buffer.MoveLinesDown (λ b _ _, Some b) (λ b _ _, Some b) b 1 2 = Some b.
Proof.
  intros b.
  destruct (MoveLines_guard (λ b _ _, Some b) (λ b _ _, Some b) b 0 2) as (Hup & _ & _).
  destruct (MoveLines_guard (λ b _ _, Some b) (λ b _ _, Some b) b 1 2) as (_ & _ & Hlast).
  split.
  - apply Hup. left. lia.
  - apply Hlast. reflexivity.
Defined.

(** ** Brace matching *)

Section scans.
Variables open close : utf8.rune.
Implicit Types (cs pfx sfx acc : list (Loc * utf8.rune)) (i t : Z).

Lemma scan_forward_app cs1 cs2 i :
  scan_forward open close (cs1 ++ cs2) i =
  match scan_forward open close cs1 i with
  | Found loc => Found loc
  | Carry i' => scan_forward open close cs2 i'
  end.
Proof.
  revert i. induction cs1 as [|[loc r] cs1 IH]; intros i; [done|].
  cbn [app scan_forward]. repeat case_decide; done.
Qed.

Lemma scan_backward_app cs1 cs2 i :
  scan_backward open close (cs1 ++ cs2) i =
  match scan_backward open close cs1 i with
  | Found loc => Found loc
  | Carry i' => scan_backward open close cs2 i'
  end.
Proof.
  revert i. induction cs1 as [|[loc r] cs1 IH]; intros i; [done|].
  cbn [app scan_backward]. repeat case_decide; done.
Qed.

(** A forward scan entered inside a brace finds the location where the
    counter returns to zero; scanning backward over the runes up to
    that location undoes the count. *)
Lemma scan_forward_back cs i e :
  1 <= i → scan_forward open close cs i = Found e →
  ∃ pfx r sfx,
    cs = pfx ++ (e, r) :: sfx ∧ r ≠ open ∧ r = close ∧
    net open close (pfx ++ [(e, r)]) = - i ∧
    (∀ n, (n ≤ length pfx)%nat → 1 <= i + net open close (take n cs)) ∧
    ∀ acc t, 0 <= t →
      scan_backward open close (rev (pfx ++ [(e, r)]) ++ acc) t =
      scan_backward open close acc (t + i).
Proof.
  revert i. induction cs as [|[loc r] cs IH]; intros i Hi; [done|].
  cbn [scan_forward]. destruct (decide (r = open)) as [Ho|Ho].
  - intros H. destruct (IH (i + 1) ltac:(lia) H) as (pfx & r' & sfx & -> & Hr1 & Hr2 & Hnet & Hpre & Hb).
    exists ((loc, r) :: pfx), r', sfx. split; [done|]. split; [done|]. split; [done|].
    split; [|split].
    + cbn [app net]. unfold weight. rewrite decide_True by done. lia.
    + intros [|n] Hn; [cbn; lia|]. cbn [take net app]. unfold weight at 1.
      rewrite decide_True by done. specialize (Hpre n ltac:(simpl in Hn; lia)). lia.
    + intros acc t Ht. cbn [app rev]. rewrite <- !app_assoc. cbn [app].
      rewrite Hb by done. cbn [scan_backward].
      rewrite decide_True by done. rewrite decide_False by lia. f_equal. lia.
  - destruct (decide (r = close)) as [Hc|Hc].
    + destruct (decide (i - 1 = 0)) as [Hz|Hz].
      * intros [= ->]. exists [], r, cs. split; [done|]. split; [done|]. split; [done|].
        split; [|split].
        -- cbn. unfold weight. rewrite decide_False, decide_True by done. lia.
        -- intros n Hn. replace n with 0%nat by (simpl in Hn; lia). cbn. lia.
        -- intros acc t Ht. cbn [app rev scan_backward].
           rewrite decide_False, decide_True by done. f_equal. lia.
      * intros H. destruct (IH (i - 1) ltac:(lia) H) as (pfx & r' & sfx & -> & Hr1 & Hr2 & Hnet & Hpre & Hb).
        exists ((loc, r) :: pfx), r', sfx. split; [done|]. split; [done|]. split; [done|].
        split; [|split].
        -- cbn [app net]. unfold weight. rewrite decide_False, decide_True by done. lia.
        -- intros [|n] Hn; [cbn; lia|]. cbn [take net app]. unfold weight at 1.
           rewrite decide_False, decide_True by done.
           specialize (Hpre n ltac:(simpl in Hn; lia)). lia.
        -- intros acc t Ht. cbn [app rev]. rewrite <- !app_assoc. cbn [app].
           rewrite Hb by done. cbn [scan_backward].
           rewrite decide_False, decide_True by done. f_equal. lia.
    + intros H. destruct (IH i Hi H) as (pfx & r' & sfx & -> & Hr1 & Hr2 & Hnet & Hpre & Hb).
      exists ((loc, r) :: pfx), r', sfx. split; [done|]. split; [done|]. split; [done|].
      split; [|split].
      * cbn [app net]. unfold weight. rewrite !decide_False by done. lia.
      * intros [|n] Hn; [cbn; lia|]. cbn [take net app]. unfold weight at 1.
        rewrite !decide_False by done.
        specialize (Hpre n ltac:(simpl in Hn; lia)). lia.
      * intros acc t Ht. cbn [app rev]. rewrite <- !app_assoc. cbn [app].
        rewrite Hb by done. cbn [scan_backward].
        by rewrite !decide_False by done.
Qed.

Lemma scan_backward_forth cs i e :
  1 <= i → scan_backward open close cs i = Found e →
  ∃ pfx r sfx,
    cs = pfx ++ (e, r) :: sfx ∧ r = open ∧
    net open close (pfx ++ [(e, r)]) = i ∧
    (∀ n, (n ≤ length pfx)%nat → 1 <= i - net open close (take n cs)) ∧
    ∀ acc t, 0 <= t →
      scan_forward open close (rev (pfx ++ [(e, r)]) ++ acc) t =
      scan_forward open close acc (t + i).
Proof.
  revert i. induction cs as [|[loc r] cs IH]; intros i Hi; [done|].
  cbn [scan_backward]. destruct (decide (r = open)) as [Ho|Ho].
  - destruct (decide (i - 1 = 0)) as [Hz|Hz].
    + intros [= ->]. exists [], r, cs. split; [done|]. split; [done|].
      split; [|split].
      * cbn. unfold weight. rewrite decide_True by done. lia.
      * intros n Hn. replace n with 0%nat by (simpl in Hn; lia). cbn. lia.
      * intros acc t Ht. cbn [app rev scan_forward].
        rewrite decide_True by done. f_equal. lia.
    + intros H. destruct (IH (i - 1) ltac:(lia) H) as (pfx & r' & sfx & -> & Hr1 & Hnet & Hpre & Hb).
      exists ((loc, r) :: pfx), r', sfx. split; [done|]. split; [done|].
      split; [|split].
      * cbn [app net]. unfold weight. rewrite decide_True by done. lia.
      * intros [|n] Hn; [cbn; lia|]. cbn [take net app]. unfold weight at 1.
        rewrite decide_True by done. specialize (Hpre n ltac:(simpl in Hn; lia)). lia.
      * intros acc t Ht. cbn [app rev]. rewrite <- !app_assoc. cbn [app].
        rewrite Hb by done. cbn [scan_forward].
        rewrite decide_True by done. f_equal. lia.
  - destruct (decide (r = close)) as [Hc|Hc].
    + intros H. destruct (IH (i + 1) ltac:(lia) H) as (pfx & r' & sfx & -> & Hr1 & Hnet & Hpre & Hb).
      exists ((loc, r) :: pfx), r', sfx. split; [done|]. split; [done|].
      split; [|split].
      * cbn [app net]. unfold weight. rewrite decide_False, decide_True by done. lia.
      * intros [|n] Hn; [cbn; lia|]. cbn [take net app]. unfold weight at 1.
        rewrite decide_False, decide_True by done.
        specialize (Hpre n ltac:(simpl in Hn; lia)). lia.
      * intros acc t Ht. cbn [app rev]. rewrite <- !app_assoc. cbn [app].
        rewrite Hb by done. cbn [scan_forward].
        rewrite decide_False, decide_True by done. rewrite decide_False by lia.
        f_equal. lia.
    + intros H. destruct (IH i Hi H) as (pfx & r' & sfx & -> & Hr1 & Hnet & Hpre & Hb).
      exists ((loc, r) :: pfx), r', sfx. split; [done|]. split; [done|].
      split; [|split].
      * cbn [app net]. unfold weight. rewrite !decide_False by done. lia.
      * intros [|n] Hn; [cbn; lia|]. cbn [take net app]. unfold weight at 1.
        rewrite !decide_False by done.
        specialize (Hpre n ltac:(simpl in Hn; lia)). lia.
      * intros acc t Ht. cbn [app rev]. rewrite <- !app_assoc. cbn [app].
        rewrite Hb by done. cbn [scan_forward].
        by rewrite !decide_False by done.
Qed.

(** Without a balanced prefix the scans find nothing. *)
Lemma scan_forward_none cs i :
  (∀ n, (1 ≤ n ≤ length cs)%nat → i + net open close (take n cs) ≠ 0) →
  ∃ i', scan_forward open close cs i = Carry i'.
Proof.
  revert i. induction cs as [|[loc r] cs IH]; intros i Hn; [by eexists|].
  assert (∀ w, w = weight open close r →
            ∀ n, (1 ≤ n ≤ length cs)%nat → (i + w) + net open close (take n cs) ≠ 0) as Hrest.
  { intros w -> n Hl. specialize (Hn (S n) ltac:(simpl; lia)). cbn [take net] in Hn. lia. }
  specialize (Hn 1%nat ltac:(simpl; lia)). cbn [take net] in Hn. rewrite take_0 in Hn.
  cbn [net] in Hn. unfold weight in *. cbn [scan_forward].
  repeat case_decide; try lia.
  - apply IH. by apply Hrest.
  - replace (i - 1) with (i + -1) by lia. apply IH. by apply Hrest.
  - replace i with (i + 0) by lia. apply IH. by apply Hrest.
Qed.

Lemma scan_backward_none cs i :
  (∀ n, (1 ≤ n ≤ length cs)%nat → i - net open close (take n cs) ≠ 0) →
  ∃ i', scan_backward open close cs i = Carry i'.
Proof.
  revert i. induction cs as [|[loc r] cs IH]; intros i Hn; [by eexists|].
  assert (∀ w, w = weight open close r →
            ∀ n, (1 ≤ n ≤ length cs)%nat → (i - w) - net open close (take n cs) ≠ 0) as Hrest.
  { intros w -> n Hl. specialize (Hn (S n) ltac:(simpl; lia)). cbn [take net] in Hn. lia. }
  specialize (Hn 1%nat ltac:(simpl; lia)). cbn [take net] in Hn. rewrite take_0 in Hn.
  cbn [net] in Hn. unfold weight in *. cbn [scan_backward].
  repeat case_decide; try lia.
  - apply IH. by apply Hrest.
  - replace (i + 1) with (i - -1) by lia. apply IH. by apply Hrest.
  - replace i with (i - 0) by lia. apply IH. by apply Hrest.
Qed.
End scans.

(** *** The loops of [FindMatchingBrace] as scans *)

Lemma slice_from_app_len {A} (k1 k2 : list A) : slice_from (k1 ++ k2) (len k1) = k2.
Proof. unfold slice_from, len. by rewrite Nat2Z.id, drop_app_length. Qed.

Lemma slice_to_app_len {A} (k1 k2 : list A) : slice_to (k1 ++ k2) (len k1) = k1.
Proof. unfold slice_to, len. by rewrite Nat2Z.id, take_app_length. Qed.

Lemma slice_from_next {A} (k1 : list A) (a : A) (k2 : list A) :
  slice_from (k1 ++ a :: k2) (len k1 + 1) = k2.
Proof. by rewrite (mid_next k1 a k2), (len_snoc k1 a), slice_from_app_len. Qed.


Lemma cells_line_app (x y : Z) (l1 l2 : list utf8.rune) :
  cells_line x y (l1 ++ l2) = cells_line x y l1 ++ cells_line (x + len l1) y l2.
Proof.
  revert x. induction l1 as [|r l1 IH]; intros x.
  - cbn. by rewrite Z.add_0_r.
  - cbn [app cells_line]. rewrite IH. do 3 f_equal. unfold len. simpl length. lia.
Qed.

Section loops.
Context {State LineMatch : Type}.
Abbreviation Line := (Line State LineMatch).
Implicit Types (b : Buffer State LineMatch) (ln : Line) (pre post : list Line).
Variables open close : utf8.rune.

Lemma cells_app (y : Z) pre post :
  cells y (pre ++ post) = cells y pre ++ cells (y + len pre) post.
Proof.
  revert y. induction pre as [|ln pre IH]; intros y.
  - cbn. by rewrite Z.add_0_r.
  - cbn [app cells]. rewrite IH, <- app_assoc. do 3 f_equal. unfold len. simpl length. lia.
Qed.

Lemma forward_x_scan (l1 l2 : list utf8.rune) (y i : Z) :
  Buffer.forward_x (length l2) open close (l1 ++ l2) (len l1) y i =
  Some (scan_forward open close (cells_line (len l1) y l2) i).
Proof.
  revert l1 i. induction l2 as [|r l2 IH]; intros l1 i; [done|].
  cbn [length Buffer.forward_x cells_line scan_forward].
  rewrite index_mid. cbn [mbind option_bind].
  rewrite (mid_next l1 r l2), (len_snoc l1 r).
  repeat case_decide; try done; apply IH.
Qed.

Lemma backward_x_scan (l1 l2 : list utf8.rune) (y i : Z) :
  Buffer.backward_x (length l1) open close (l1 ++ l2) (len l1 - 1) y i =
  Some (scan_backward open close (rev (cells_line 0 y l1)) i).
Proof.
  revert l2 i. induction l1 as [|r l1 IH] using rev_ind; intros l2 i; [done|].
  rewrite length_app. cbn [length]. rewrite Nat.add_1_r.
  cbn [Buffer.backward_x]. rewrite <- (len_snoc l1 r).
  replace (len l1 + 1 - 1) with (len l1) by lia.
  rewrite <- (mid_next l1 r l2), index_mid. cbn [mbind option_bind].
  rewrite cells_line_app, rev_app_distr. cbn [cells_line rev app scan_backward].
  rewrite Z.add_0_l.
  repeat case_decide; try done; apply IH.
Qed.

Lemma LineRunes_mid b pre ln post :
  Buffer.blines b = pre ++ ln :: post →
  Buffer.LineRunes b (len pre) = Some (utf8.runes (data ln)).
Proof.
  intros Hb. unfold Buffer.LineRunes. rewrite Hb, index_mid.
  destruct (Z.leb_spec (len (pre ++ ln :: post)) (len pre)) as [Hl|Hl]; [|done].
  rewrite len_app in Hl. unfold len in Hl. simpl length in Hl. lia.
Qed.

Lemma forward_y_scan b (start : Loc) post pre (i : Z) :
  Buffer.blines b = pre ++ post → Y start < len pre →
  Buffer.forward_y (length post) b open close start (len pre) i =
  Some (found_or start (scan_forward open close (cells (len pre) post) i)).
Proof.
  revert pre i. induction post as [|ln post IH]; intros pre i Hb Hy; [done|].
  cbn [length Buffer.forward_y cells].
  rewrite (LineRunes_mid b pre ln post Hb). cbn [mbind option_bind].
  rewrite decide_False by lia. rewrite Z.sub_0_r.
  replace (Z.to_nat (len (utf8.runes (data ln)))) with (length (utf8.runes (data ln)))
    by (unfold len; lia).
  rewrite (forward_x_scan [] (utf8.runes (data ln))). cbn [mbind option_bind].
  rewrite scan_forward_app. change (len (@nil utf8.rune)) with 0.
  destruct (scan_forward open close (cells_line 0 (len pre) _) i) as [loc|i']; [done|].
  rewrite (len_snoc pre ln). apply IH.
  - by rewrite <- (mid_next pre ln post).
  - rewrite <- (len_snoc pre ln). lia.
Qed.

Lemma backward_y_scan b (start : Loc) pre post (i : Z) :
  Buffer.blines b = pre ++ post → len pre <= Y start →
  Buffer.backward_y (length pre) b open close start (len pre - 1) i =
  Some (found_or start (scan_backward open close (rev (cells 0 pre)) i)).
Proof.
  revert post i. induction pre as [|ln pre IH] using rev_ind; intros post i Hb Hy; [done|].
  rewrite length_app. cbn [length]. rewrite Nat.add_1_r.
  cbn [Buffer.backward_y]. rewrite <- (len_snoc pre ln) in *.
  replace (len pre + 1 - 1) with (len pre) by lia.
  rewrite <- (mid_next pre ln post) in Hb. rewrite Hb, index_mid. cbn [mbind option_bind].
  rewrite decide_False by lia.
  replace (Z.to_nat (len (utf8.runes (data ln)) - 1 + 1))
    with (length (utf8.runes (data ln))) by (unfold len; lia).
  pose proof (backward_x_scan (utf8.runes (data ln)) [] (len pre) i) as Hx.
  rewrite app_nil_r in Hx. rewrite Hx. cbn [mbind option_bind].
  rewrite cells_app. cbn [cells]. rewrite app_nil_r, Z.add_0_l.
  rewrite rev_app_distr, scan_backward_app.
  destruct (scan_backward open close (rev (cells_line 0 (len pre) _)) i) as [loc|i']; [done|].
  apply (IH (ln :: post)); [done|lia].
Qed.

(** [FindMatchingBrace] from an opening brace is the forward scan over
    the runes from [start] on, from a closing brace the backward scan
    over the runes from [start] back. *)
Lemma FindMatchingBrace_forward b (start : Loc) (l : list utf8.rune) :
  NumLines b = len (Buffer.blines b) →
  Buffer.LineRunes b (Y start) = Some l → index l (X start) = Some open →
  Buffer.FindMatchingBrace b (open, close) start =
  Some (found_or start (scan_forward open close (cells_from (Buffer.blines b) start) 0)).
Proof.
  intros HN Hl Hx. unfold Buffer.FindMatchingBrace. rewrite Hl. cbn [mbind option_bind].
  rewrite Hx. cbn [mbind option_bind fst snd]. rewrite decide_True by done.
  unfold Buffer.LineRunes, Buffer.toRunes in Hl.
  destruct (Z.leb_spec (len (Buffer.blines b)) (Y start)) as [Hge|Hlt].
  { injection Hl as <-. apply index_lt in Hx. unfold len in Hx. simpl in Hx. lia. }
  destruct (index (Buffer.blines b) (Y start)) as [ln|] eqn:Hy; [|done].
  injection Hl as <-.
  unfold cells_from. rewrite Hy.
  apply index_split in Hy as (pre & post & Hb & Hy).
  apply index_split in Hx as (l1 & l2 & Hr & Hx).
  destruct start as [x y]. cbn [X Y] in *. subst x y.
  rewrite HN, Hb. rewrite len_app.
  replace (Z.to_nat (len pre + len (ln :: post) - len pre)) with (S (length post))
    by (unfold len; simpl length; lia).
  cbn [Buffer.forward_y]. rewrite (LineRunes_mid b pre ln post Hb). cbn [mbind option_bind].
  rewrite decide_True by done. cbn [X Y]. rewrite Hr.
  replace (Z.to_nat (len (l1 ++ open :: l2) - len l1)) with (length (open :: l2))
    by (rewrite len_app; unfold len; simpl length; lia).
  rewrite forward_x_scan. cbn [mbind option_bind].
  rewrite slice_from_app_len, slice_from_next.
  rewrite scan_forward_app.
  destruct (scan_forward open close (cells_line (len l1) (len pre) _) 0) as [loc|i']; [done|].
  rewrite (len_snoc pre ln).
  apply forward_y_scan.
  - by rewrite <- (mid_next pre ln post).
  - cbn [Y]. rewrite <- (len_snoc pre ln). lia.
Qed.

Lemma FindMatchingBrace_backward b (start : Loc) (l : list utf8.rune) :
  open ≠ close →
  Buffer.LineRunes b (Y start) = Some l → index l (X start) = Some close →
  Buffer.FindMatchingBrace b (open, close) start =
  Some (found_or start (scan_backward open close (cells_back (Buffer.blines b) start) 0)).
Proof.
  intros Hoc Hl Hx. unfold Buffer.FindMatchingBrace. rewrite Hl. cbn [mbind option_bind].
  rewrite Hx. cbn [mbind option_bind fst snd].
  rewrite decide_False by done. rewrite decide_True by done.
  unfold Buffer.LineRunes, Buffer.toRunes in Hl.
  destruct (Z.leb_spec (len (Buffer.blines b)) (Y start)) as [Hge|Hlt].
  { injection Hl as <-. apply index_lt in Hx. unfold len in Hx. simpl in Hx. lia. }
  destruct (index (Buffer.blines b) (Y start)) as [ln|] eqn:Hy; [|done].
  injection Hl as <-.
  unfold cells_back. rewrite Hy.
  apply index_split in Hy as (pre & post & Hb & Hy).
  apply index_split in Hx as (l1 & l2 & Hr & Hx).
  destruct start as [x y]. cbn [X Y] in *. subst x y.
  replace (Z.to_nat (len pre + 1)) with (S (length pre)) by (unfold len; lia).
  cbn [Buffer.backward_y]. rewrite Hb, index_mid. cbn [mbind option_bind].
  rewrite decide_True by done. cbn [X Y]. rewrite Hr.
  replace (Z.to_nat (len l1 + 1)) with (length (l1 ++ [close]))
    by (rewrite length_app; unfold len; simpl length; lia).
  rewrite (mid_next l1 close l2).
  replace (len l1) with (len (l1 ++ [close]) - 1) at 1 by (rewrite <- len_snoc; lia).
  rewrite backward_x_scan. cbn [mbind option_bind].
  rewrite (len_snoc l1 close), !slice_to_app_len.
  rewrite rev_app_distr, scan_backward_app.
  destruct (scan_backward open close (rev (cells_line 0 (len pre) _)) 0) as [loc|i']; [done|].
  apply (backward_y_scan b _ pre (ln :: post)); [done|cbn [Y]; lia].
Qed.
End loops.

(** *** Locations of the runes *)

Lemma cells_line_elem (x y : Z) (l : list utf8.rune) (loc : Loc) (r : utf8.rune) :
  (loc, r) ∈ cells_line x y l → Y loc = y ∧ x <= X loc ∧ index l (X loc - x) = Some r.
Proof.
  revert x. induction l as [|r' l IH]; intros x; [by intros ?%elem_of_nil|].
  cbn [cells_line]. intros [Heq|Hin]%elem_of_cons.
  - injection Heq as -> ->. cbn [X Y]. split; [done|]. split; [lia|].
    by rewrite Z.sub_diag.
  - destruct (IH _ Hin) as (Hy & Hx & Hi). split; [done|]. split; [lia|].
    apply index_Some in Hi as [? Hi]. apply index_Some. split; [lia|].
    replace (Z.to_nat (X loc - x)) with (S (Z.to_nat (X loc - (x + 1)))) by lia. done.
Qed.

Lemma NoDup_cells_line (x y : Z) (l : list utf8.rune) : NoDup (fst <$> cells_line x y l).
Proof.
  revert x. induction l as [|r l IH]; intros x; [constructor|].
  cbn [cells_line fmap list_fmap fst]. constructor; [|apply IH].
  intros ([loc r'] & Hloc & Hin)%list_elem_of_fmap. cbn [fst] in Hloc. subst loc.
  apply cells_line_elem in Hin as (_ & Hx & _). cbn [X] in Hx. lia.
Qed.

Lemma split_unique {A B} (l k1 k2 k1' k2' : list (A * B)) (a a' : A * B) :
  NoDup (fst <$> l) → l = k1 ++ a :: k2 → l = k1' ++ a' :: k2' → a.1 = a'.1 →
  k1 = k1' ∧ a = a' ∧ k2 = k2'.
Proof.
  intros Hnd -> Heq Ha. revert k1' Heq Hnd.
  induction k1 as [|c k1 IH]; intros k1' Heq Hnd.
  - destruct k1' as [|c' k1'].
    + by injection Heq as -> ->.
    + exfalso. injection Heq as -> ->. cbn [app fmap list_fmap] in Hnd.
      apply NoDup_cons_1_1 in Hnd. apply Hnd. rewrite fmap_app, Ha.
      apply elem_of_app. right. left.
  - destruct k1' as [|c' k1'].
    + exfalso. injection Heq as -> <-. cbn [app fmap list_fmap] in Hnd.
      apply NoDup_cons_1_1 in Hnd. apply Hnd. rewrite fmap_app, <- Ha.
      apply elem_of_app. right. left.
    + injection Heq as -> Heq. cbn [app fmap list_fmap] in Hnd.
      apply NoDup_cons_1_2 in Hnd.
      destruct (IH k1' Heq Hnd) as (-> & -> & ->). done.
Qed.

Section locations.
Context {State LineMatch : Type}.
Abbreviation Line := (Line State LineMatch).
Implicit Types (ln : Line) (ls pre post : list Line).

Lemma cells_elem (y : Z) ls (loc : Loc) (r : utf8.rune) :
  (loc, r) ∈ cells y ls →
  y <= Y loc ∧
  ∃ ln, index ls (Y loc - y) = Some ln ∧ index (utf8.runes (data ln)) (X loc) = Some r.
Proof.
  revert y. induction ls as [|ln ls IH]; intros y; [by intros ?%elem_of_nil|].
  cbn [cells]. intros [Hin|Hin]%elem_of_app.
  - apply cells_line_elem in Hin as (Hy & Hx & Hi). split; [lia|].
    exists ln. rewrite Hy, Z.sub_diag. split; [done|]. by rewrite Z.sub_0_r in Hi.
  - destruct (IH _ Hin) as (Hy & ln' & Hl & Hi). split; [lia|].
    exists ln'. split; [|done].
    apply index_Some in Hl as [? Hl]. apply index_Some. split; [lia|].
    replace (Z.to_nat (Y loc - y)) with (S (Z.to_nat (Y loc - (y + 1)))) by lia. done.
Qed.

Lemma NoDup_cells (y : Z) ls : NoDup (fst <$> cells y ls).
Proof.
  revert y. induction ls as [|ln ls IH]; intros y; [constructor|].
  cbn [cells]. rewrite fmap_app. apply NoDup_app. split; [apply NoDup_cells_line|].
  split; [|apply IH].
  intros loc ([loc1 r1] & -> & Hin1)%list_elem_of_fmap ([loc2 r2] & Heq & Hin2)%list_elem_of_fmap.
  cbn [fst] in Heq. subst loc2.
  apply cells_line_elem in Hin1 as (Hy1 & _). apply cells_elem in Hin2 as (Hy2 & _). lia.
Qed.

(** The runes around a location that holds the rune [r]. *)
Lemma cells_at ls (loc : Loc) ln (r : utf8.rune) :
  index ls (Y loc) = Some ln → index (utf8.runes (data ln)) (X loc) = Some r →
  ∃ before after,
    cells 0 ls = before ++ (loc, r) :: after ∧
    cells_from ls loc = (loc, r) :: after ∧
    cells_back ls loc = (loc, r) :: rev before.
Proof.
  intros Hy Hx. unfold cells_from, cells_back. rewrite Hy.
  apply index_split in Hy as (pre & post & -> & Hy).
  apply index_split in Hx as (l1 & l2 & Hr & Hx).
  destruct loc as [x y]. cbn [X Y] in *. subst x y. rewrite Hr.
  exists (cells 0 pre ++ cells_line 0 (len pre) l1),
         (cells_line (len l1 + 1) (len pre) l2 ++ cells (len pre + 1) post).
  split; [|split].
  - rewrite cells_app. cbn [cells]. rewrite Hr, cells_line_app. cbn [cells_line].
    rewrite !Z.add_0_l. by rewrite <- !app_assoc.
  - by rewrite slice_from_app_len, slice_from_next.
  - rewrite slice_to_app_len, (mid_next l1 r l2), (len_snoc l1 r), slice_to_app_len.
    rewrite cells_line_app. cbn [cells_line]. rewrite Z.add_0_l.
    rewrite app_assoc, rev_app_distr. done.
Qed.
End locations.

Section matching.
Context {State LineMatch : Type}.
Implicit Types (b : Buffer State LineMatch).

Lemma LineRunes_index b (y : Z) ln :
  index (Buffer.blines b) y = Some ln →
  Buffer.LineRunes b y = Some (utf8.runes (data ln)).
Proof.
  intros Hy. unfold Buffer.LineRunes. rewrite Hy. apply index_lt in Hy.
  by destruct (Z.leb_spec (len (Buffer.blines b)) y); [lia|].
Qed.

Lemma LineRunes_Some b (y x : Z) (l : list utf8.rune) (r : utf8.rune) :
  Buffer.LineRunes b y = Some l → index l x = Some r →
  ∃ ln, index (Buffer.blines b) y = Some ln ∧ l = utf8.runes (data ln).
Proof.
  unfold Buffer.LineRunes, Buffer.toRunes. intros Hl Hx.
  destruct (Z.leb_spec (len (Buffer.blines b)) y).
  - injection Hl as <-. apply index_lt in Hx. unfold len in Hx. simpl in Hx. lia.
  - destruct (index (Buffer.blines b) y) as [ln|]; [|done].
    injection Hl as <-. by exists ln.
Qed.

Lemma forward_then_backward b (open close : utf8.rune) (start e : Loc) (l : list utf8.rune) :
  NumLines b = len (Buffer.blines b) →
  Buffer.LineRunes b (Y start) = Some l → index l (X start) = Some open →
  Buffer.FindMatchingBrace b (open, close) start = Some e → e ≠ start →
  Buffer.FindMatchingBrace b (open, close) e = Some start.
Proof.
  intros HN Hl Hx HF Hne.
  rewrite (FindMatchingBrace_forward open close b start l HN Hl Hx) in HF.
  destruct (LineRunes_Some b _ _ _ _ Hl Hx) as (ln & Hy & ->).
  destruct (cells_at _ _ _ _ Hy Hx) as (before & after & Hall & Hfrom & _).
  rewrite Hfrom in HF. cbn [scan_forward] in HF. rewrite decide_True in HF by done.
  destruct (scan_forward open close after (0 + 1)) as [e'|i'] eqn:Hscan;
    cbn [found_or] in HF; [|congruence].
  injection HF as ->.
  destruct (scan_forward_back open close after 1 e ltac:(lia) Hscan)
    as (pfx & r & sfx & -> & Hro & Hrc & _ & _ & Hback).
  assert ((e, r) ∈ cells 0 (Buffer.blines b)) as Hin.
  { rewrite Hall. apply elem_of_app. right. right. apply elem_of_app. right. left. }
  apply cells_elem in Hin as (_ & lne & Hye & Hxe). rewrite Z.sub_0_r in Hye.
  destruct (cells_at _ _ _ _ Hye Hxe) as (before' & after' & Hall' & _ & Hback').
  assert (before' = before ++ (start, open) :: pfx) as ->.
  { pose proof (NoDup_cells 0 (Buffer.blines b)) as Hnd.
    rewrite Hall in Hall', Hnd.
    replace (before ++ (start, open) :: pfx ++ (e, r) :: sfx)
      with ((before ++ (start, open) :: pfx) ++ (e, r) :: sfx) in Hall', Hnd
      by (by rewrite <- app_assoc).
    by destruct (split_unique _ _ _ _ _ _ _ Hnd eq_refl Hall' eq_refl) as (<- & _ & _). }
  rewrite (FindMatchingBrace_backward open close b e _ ltac:(congruence)
             (LineRunes_index _ _ _ Hye) ltac:(by rewrite <- Hrc)).
  rewrite Hback'.
  replace ((e, r) :: rev (before ++ (start, open) :: pfx))
    with (rev (pfx ++ [(e, r)]) ++ (start, open) :: rev before).
  2:{ rewrite !rev_app_distr. cbn [rev app]. by rewrite <- !app_assoc. }
  rewrite Hback by lia. cbn [scan_backward]. rewrite decide_True by done.
  by rewrite decide_True by lia.
Qed.

Lemma backward_then_forward b (open close : utf8.rune) (start e : Loc) (l : list utf8.rune) :
  NumLines b = len (Buffer.blines b) → open ≠ close →
  Buffer.LineRunes b (Y start) = Some l → index l (X start) = Some close →
  Buffer.FindMatchingBrace b (open, close) start = Some e → e ≠ start →
  Buffer.FindMatchingBrace b (open, close) e = Some start.
Proof.
  intros HN Hoc Hl Hx HF Hne.
  rewrite (FindMatchingBrace_backward open close b start l Hoc Hl Hx) in HF.
  destruct (LineRunes_Some b _ _ _ _ Hl Hx) as (ln & Hy & ->).
  destruct (cells_at _ _ _ _ Hy Hx) as (before & after & Hall & _ & Hback).
  rewrite Hback in HF. cbn [scan_backward] in HF.
  rewrite decide_False in HF by done. rewrite decide_True in HF by done.
  destruct (scan_backward open close (rev before) (0 + 1)) as [e'|i'] eqn:Hscan;
    cbn [found_or] in HF; [|congruence].
  injection HF as ->.
  destruct (scan_backward_forth open close (rev before) 1 e ltac:(lia) Hscan)
    as (pfx & r & sfx & Hrev & -> & _ & _ & Hforth).
  assert (before = rev sfx ++ (e, open) :: rev pfx) as ->.
  { rewrite <- (rev_involutive before), Hrev, rev_app_distr. cbn [rev].
    by rewrite <- app_assoc. }
  assert ((e, open) ∈ cells 0 (Buffer.blines b)) as Hin.
  { rewrite Hall. apply elem_of_app. left. apply elem_of_app. right. left. }
  apply cells_elem in Hin as (_ & lne & Hye & Hxe). rewrite Z.sub_0_r in Hye.
  destruct (cells_at _ _ _ _ Hye Hxe) as (before' & after' & Hall' & Hfrom' & _).
  assert (after' = rev pfx ++ (start, close) :: after) as ->.
  { pose proof (NoDup_cells 0 (Buffer.blines b)) as Hnd.
    rewrite Hall in Hall', Hnd. rewrite <- app_assoc in Hall', Hnd. cbn [app] in Hall', Hnd.
    by destruct (split_unique _ _ _ _ _ _ _ Hnd eq_refl Hall' eq_refl) as (_ & _ & <-). }
  rewrite (FindMatchingBrace_forward open close b e _ HN (LineRunes_index _ _ _ Hye) Hxe).
  rewrite Hfrom'.
  replace ((e, open) :: rev pfx ++ (start, close) :: after)
    with (rev (pfx ++ [(e, open)]) ++ (start, close) :: after).
  2:{ rewrite rev_app_distr. done. }
  rewrite Hforth by lia. cbn [scan_forward]. rewrite decide_False by done.
  rewrite decide_True by done. by rewrite decide_True by lia.
Qed.

(** C8.  In a buffer whose [NumLines] is its number of lines:
    whenever [FindMatchingBrace] from [start] returns another location
    [e], [FindMatchingBrace] from [e] returns [start], whether the scan
    from [start] ran forward from an opening brace or backward from a
    closing one; and when no run of runes from an opening brace on
    [start] forward, or from a closing brace on [start] backward, is
    balanced, [start] itself is returned. *)
Theorem FindMatchingBrace_symmetric b (open close : utf8.rune) (start : Loc) :
  NumLines b = len (lines (lineArray b)) →
  (∀ e, Buffer.FindMatchingBrace b (open, close) start = Some e → e ≠ start →
     Buffer.FindMatchingBrace b (open, close) e = Some start) ∧
  (∀ l, Buffer.LineRunes b (Y start) = Some l → index l (X start) = Some open →
     (∀ n, (1 ≤ n ≤ length (cells_from (lines (lineArray b)) start))%nat →
        net open close (take n (cells_from (lines (lineArray b)) start)) ≠ 0) →
     Buffer.FindMatchingBrace b (open, close) start = Some start) ∧
  (∀ l, Buffer.LineRunes b (Y start) = Some l → index l (X start) = Some close →
     open ≠ close →
     (∀ n, (1 ≤ n ≤ length (cells_back (lines (lineArray b)) start))%nat →
        net open close (take n (cells_back (lines (lineArray b)) start)) ≠ 0) →
     Buffer.FindMatchingBrace b (open, close) start = Some start).
Proof.
  intros HN. split; [|split].
  - intros e HF Hne.
    destruct (Buffer.LineRunes b (Y start)) as [l|] eqn:Hl.
    2:{ unfold Buffer.FindMatchingBrace in HF. by rewrite Hl in HF. }
    destruct (index l (X start)) as [ch|] eqn:Hx.
    2:{ unfold Buffer.FindMatchingBrace in HF. rewrite Hl in HF. cbn in HF.
        by rewrite Hx in HF. }
    destruct (decide (ch = open)) as [->|Ho].
    { by apply (forward_then_backward b open close start e l). }
    destruct (decide (ch = close)) as [->|Hc].
    { by apply (backward_then_forward b open close start e l). }
    unfold Buffer.FindMatchingBrace in HF. rewrite Hl in HF. cbn [mbind option_bind] in HF.
    rewrite Hx in HF. cbn [mbind option_bind fst snd] in HF.
    rewrite !decide_False in HF by done. congruence.
  - intros l Hl Hx Hnone.
    rewrite (FindMatchingBrace_forward open close b start l HN Hl Hx).
    destruct (scan_forward_none open close (cells_from (Buffer.blines b) start) 0) as [i' ->];
      [|done].
    intros n Hn. rewrite Z.add_0_l. by apply Hnone.
  - intros l Hl Hx Hoc Hnone.
    rewrite (FindMatchingBrace_backward open close b start l Hoc Hl Hx).
    destruct (scan_backward_none open close (cells_back (Buffer.blines b) start) 0) as [i' ->];
      [|done].
    intros n Hn. rewrite Z.sub_0_l. specialize (Hnone n Hn). unfold Buffer.blines. lia.
Qed.
End matching.

Lemma FindMatchingBrace_symmetric_witness :
  Buffer.FindMatchingBrace braces (40, 41) (mkLoc 1 2) = Some (mkLoc 1 0) ∧
  Buffer.FindMatchingBrace braces (40, 41) (mkLoc 1 0) = Some (mkLoc 1 2) ∧
  Buffer.FindMatchingBrace braces (40, 41) (mkLoc 0 3) = Some (mkLoc 0 3).
Proof.
  destruct (FindMatchingBrace_symmetric braces 40 41 (mkLoc 1 0) eq_refl) as (Hsym & _ & _).
  destruct (FindMatchingBrace_symmetric braces 40 41 (mkLoc 1 2) eq_refl) as (Hsym' & _ & _).
  destruct (FindMatchingBrace_symmetric braces 40 41 (mkLoc 0 3) eq_refl) as (_ & Hnone & _).
  split; [|split].
  - apply Hsym; [reflexivity|discriminate].
  - apply Hsym'; [reflexivity|discriminate].
  - apply (Hnone (utf8.runes (bytes_of "(("))); [reflexivity|reflexivity|].
    intros n Hn.
    change (length (cells_from (lines (lineArray braces)) (mkLoc 0 3))) with 2%nat in Hn.
    assert (n = 1 ∨ n = 2)%nat as [-> | ->] by lia; vm_compute; discriminate.
Defined.

(** ** The invariant of the line store is kept *)

Lemma runes_loop_fuel (f1 f2 : nat) (p : list byte) :
  (length p ≤ f1)%nat → (length p ≤ f2)%nat →
  utf8.runes_loop f1 p = utf8.runes_loop f2 p.
Proof.
  revert f2 p. induction f1 as [|f1 IH]; intros f2 p H1 H2.
  - destruct p; [|simpl in H1; lia]. by destruct f2.
  - destruct f2 as [|f2]; [destruct p; [done|simpl in H2; lia]|].
    destruct p as [|b p]; [done|]. cbn [utf8.runes_loop].
    pose proof (width_bounds (b :: p) ltac:(done)) as [Hw _].
    destruct (utf8.DecodeRune (b :: p)) as [r size]. cbn [snd] in Hw. f_equal.
    unfold slice_from. apply IH; rewrite length_drop; simpl length in *; lia.
Qed.

(** [runes] gives as many runes as [RuneCount] counts. *)
Lemma length_runes (p : list byte) : len (utf8.runes p) = utf8.RuneCount p.
Proof.
  enough (∀ n p, (length p ≤ n)%nat → len (utf8.runes p) = utf8.RuneCount p) by eauto.
  clear p. induction n as [|n IH]; intros p Hn.
  - by destruct p; [|simpl in Hn; lia].
  - destruct p as [|b p]; [done|].
    rewrite RuneCount_cons by done. unfold utf8.runes. cbn [length utf8.runes_loop].
    pose proof (width_bounds (b :: p) ltac:(done)) as [Hw _].
    destruct (utf8.DecodeRune (b :: p)) as [r size] eqn:Hd. cbn [snd] in *.
    unfold len. cbn [length]. unfold slice_from.
    rewrite (runes_loop_fuel _ (length (drop (Z.to_nat size) (b :: p))))
      by (rewrite ?length_drop; simpl length in *; lia).
    specialize (IH (drop (Z.to_nat size) (b :: p))).
    unfold len, utf8.runes in IH. rewrite <- IH; [lia|].
    rewrite length_drop. simpl length in *. lia.
Qed.

Section invariant.
Context {State LineMatch : Type}.
Implicit Types (la : LineArray State LineMatch) (ln : Line State LineMatch).

Lemma no_lf_data la :
  no_lf la = true ↔ Forall (λ d, LF ∉ d) (data <$> lines la).
Proof.
  unfold no_lf. rewrite forallb_forall, Forall_fmap, Forall_forall.
  split; intros H ln Hin.
  - apply list_elem_of_In, H in Hin. by apply bool_decide_eq_true in Hin.
  - apply bool_decide_eq_true. apply H. by apply list_elem_of_In.
Qed.

Lemma Forall_nolf_glue (p : list byte) (segs : list (list byte)) :
  LF ∉ p → Forall (λ d, LF ∉ d) segs → Forall (λ d, LF ∉ d) (glue p segs).
Proof.
  intros Hp Hs. destruct Hs as [|d segs Hd Hs]; cbn [glue].
  - by repeat constructor.
  - constructor; [|done]. rewrite not_elem_of_app. done.
Qed.

(** [insert] keeps the store free of line feeds. *)
Lemma insert_no_lf la (pos : Loc) (value : list byte) la' :
  no_lf la = true → LineArray.insert la pos value = Some la' → no_lf la' = true.
Proof.
  intros Hlf Hi.
  destruct (index (lines la) (Y pos)) as [ln|] eqn:Hy.
  2:{ unfold LineArray.insert in Hi. cbn [LineArray.insert_depth] in Hi.
      by rewrite Hy in Hi. }
  destruct (insert_lines la pos value ln Hlf Hy) as (la1 & Hi1 & Hd & _).
  rewrite Hi in Hi1. injection Hi1 as <-.
  apply no_lf_data. rewrite Hd. apply no_lf_data in Hlf.
  rewrite !Forall_app. split; [|split].
  - unfold slice_to. rewrite fmap_take. by apply Forall_take.
  - apply Forall_nolf_glue.
    + apply not_elem_of_take. by apply (no_lf_index la (Y pos)); [apply no_lf_data|].
    + apply Forall_forall. intros seg. apply split_lf_segments.
  - unfold slice_from. rewrite fmap_drop. by apply Forall_drop.
Qed.

(** [remove] between valid locations keeps the store free of line
    feeds. *)
Lemma remove_no_lf la (start end_ : Loc) a b la' (sub : list byte) :
  no_lf la = true →
  index (lines la) (Y start) = Some a → index (lines la) (Y end_) = Some b →
  Y start < Y end_ ∨ (Y start = Y end_ ∧ 0 <= X start <= X end_) →
  LineArray.remove la start end_ = Some (la', sub) → no_lf la' = true.
Proof.
  intros Hlf Ha Hb Hord Hr.
  destruct (remove_closed_form la start end_ a b Hlf Ha Hb Hord)
    as (la1 & sub1 & Hr1 & _ & Hsame & Hdiff).
  rewrite Hr in Hr1. injection Hr1 as <- <-.
  pose proof (no_lf_index _ _ _ Hlf Ha) as Hna.
  pose proof (no_lf_index _ _ _ Hlf Hb) as Hnb.
  apply no_lf_data. apply no_lf_data in Hlf.
  destruct Hord as [Hlt|[Heq Hx] ].
  - destruct (Hdiff Hlt) as (_ & -> & _). rewrite fmap_app, fmap_cons, !Forall_app, Forall_cons.
    split; [|split].
    + unfold slice_to. rewrite fmap_take. by apply Forall_take.
    + cbn [data LineArray.set_data]. rewrite not_elem_of_app.
      split; [by apply not_elem_of_take|by apply not_elem_of_drop].
    + unfold slice_from. rewrite fmap_drop. by apply Forall_drop.
  - destruct (Hsame Heq) as (_ & ->). unfold LineArray.set_line. cbn [lines].
    rewrite list_fmap_insert. apply Forall_insert; [done|].
    cbn [data LineArray.set_data]. rewrite not_elem_of_app.
    split; [by apply not_elem_of_take|by apply not_elem_of_drop].
Qed.
End invariant.

(** ** The operations on examples *)

Example insert_with_line_feeds :
  shown (LineArray.insert (plain_store ["héllo"; "world"]) (mkLoc 2 0)
           (bytes_of "X" ++ [LF] ++ bytes_of "Y" ++ [LF] ++ bytes_of "Z")) =
  Some [bytes_of "héX"; bytes_of "Y"; bytes_of "Zllo"; bytes_of "world"].
Proof. reflexivity. Qed.

Example insert_into_line_with_line_feed :
  shown (LineArray.Split (mkLineArray [mkLine (State:=unit) (LineMatch:=unit)
                                         [x61; LF; x62] None None false]) (mkLoc 0 0)) =
  Some [[]; [x61]; [x62]].
Proof. reflexivity. Qed.

Example remove_across_lines :
  (λ r, (data <$> lines r.1, r.2)) <$>
    LineArray.remove (plain_store ["héllo"; "world"; "abc"; "defg"]) (mkLoc 2 0) (mkLoc 1 3) =
  Some ([bytes_of "héefg"],
        bytes_of "llo" ++ [LF] ++ bytes_of "world" ++ [LF] ++ bytes_of "abc" ++ [LF] ++
        bytes_of "d").
Proof. reflexivity. Qed.

Example remove_out_of_range :
  LineArray.remove (plain_store ["abc"]) (mkLoc 0 0) (mkLoc 0 1) = None.
Proof. reflexivity. Qed.

Example construction_keeps_last_line :
  data <$> lines (LineArray.NewLineArray (State:=unit) (LineMatch:=unit) 4
                    (Some (mkReader [x61; LF; x62; LF] EOF))) = [[x61]; [x62]; []] ∧
  data <$> lines (LineArray.NewLineArray (State:=unit) (LineMatch:=unit) 4
                    (Some (mkReader [x61; LF; x62] ReadError))) = [[x61]].
Proof. split; reflexivity. Qed.

(** [MoveLinesUp] and [MoveLinesDown] behind their guards, with the
    edits of the event handler taken to be the buffer's own [insert] and
    [remove]. *)
Example MoveLines_move :
  let Insert := Buffer.insert (State:=unit) (LineMatch:=unit) in
  let Remove := λ b s e, fst <$> Buffer.remove (State:=unit) (LineMatch:=unit) b s e in
  let b := mkBuffer (plain_store ["a"; "b"; "c"]) false 3 ∅ "" in
  (λ b', shown (Some (lineArray b'))) <$> Buffer.MoveLinesUp Insert Remove b 1 2 =
    Some (Some [bytes_of "b"; bytes_of "a"; bytes_of "c"]) ∧
  (λ b', shown (Some (lineArray b'))) <$> Buffer.MoveLinesUp Insert Remove b 1 3 =
    Some (Some [bytes_of "b"; bytes_of "c"; bytes_of "a"]) ∧
  (λ b', shown (Some (lineArray b'))) <$> Buffer.MoveLinesDown Insert Remove b 0 1 =
    Some (Some [bytes_of "b"; bytes_of "a"; bytes_of "c"]).
Proof. repeat split; reflexivity. Qed.

Example decode_invalid_bytes :
  utf8.DecodeRune [xe2; x82] = (utf8.RuneError, 1) ∧
  utf8.DecodeRune [xe2; x82; xac] = (8364, 3) ∧
  utf8.DecodeRune [xc0; x80] = (utf8.RuneError, 1) ∧
  utf8.DecodeRune [xed; xa0; x80] = (utf8.RuneError, 1) ∧
  utf8.RuneCount [xe2; x82] = 2 ∧
  runeToByteIndex 1 [xe2; x82; xac; x41] = 3.
Proof. repeat split; reflexivity. Qed.

(** * Further properties *)

(** ** More on [runeToByteIndex] *)

Lemma offset_RuneCount (k : nat) (p : list byte) :
  utf8.RuneCount p <= Z.of_nat k → offset k p = length p.
Proof.
  revert p. induction k as [|k IH]; intros p Hk.
  - destruct p as [|b p]; [done|].
    rewrite RuneCount_cons in Hk by done.
    pose proof (RuneCount_bounds (drop (Z.to_nat (width (b :: p))) (b :: p))). lia.
  - destruct p as [|b p]; [done|].
    rewrite RuneCount_cons in Hk by done.
    pose proof (width_bounds (b :: p) ltac:(done)) as [Hw1 Hw2].
    cbn [offset]. rewrite IH by lia.
    rewrite length_drop. unfold len in Hw2. lia.
Qed.

Lemma offset_step (k : nat) (p : list byte) :
  Z.of_nat k < utf8.RuneCount p → (offset k p < offset (S k) p)%nat.
Proof.
  revert p. induction k as [|k IH]; intros p Hk.
  - destruct p as [|b p]; [rewrite RuneCount_nil in Hk; lia|].
    pose proof (width_bounds (b :: p) ltac:(done)) as [Hw1 Hw2].
    cbn [offset]. lia.
  - destruct p as [|b p]; [rewrite RuneCount_nil in Hk; lia|].
    rewrite RuneCount_cons in Hk by done.
    specialize (IH (drop (Z.to_nat (width (b :: p))) (b :: p)) ltac:(lia)).
    change (offset (S (S k)) (b :: p)) with
      (Z.to_nat (width (b :: p)) + offset (S k) (drop (Z.to_nat (width (b :: p))) (b :: p)))%nat.
    change (offset (S k) (b :: p)) with
      (Z.to_nat (width (b :: p)) + offset k (drop (Z.to_nat (width (b :: p))) (b :: p)))%nat.
    lia.
Qed.

Lemma offset_strict (j k : nat) (p : list byte) :
  (j < k)%nat → Z.of_nat k <= utf8.RuneCount p → (offset j p < offset k p)%nat.
Proof.
  intros Hjk Hk.
  pose proof (offset_step j p ltac:(lia)).
  pose proof (offset_mono (S j) k p ltac:(lia)). lia.
Qed.

Lemma runeToByteIndex_all (n : Z) (txt : list byte) :
  utf8.RuneCount txt <= n → runeToByteIndex n txt = len txt.
Proof.
  intros Hn. pose proof (RuneCount_bounds txt).
  rewrite runeToByteIndex_offset by lia.
  rewrite offset_RuneCount by lia. done.
Qed.

(** X1.  [runeToByteIndex] never leaves the slice: its result lies
    between 0 and the length of [txt]; for a negative count, and for a
    count that is not less than the number of runes of [txt], it is the
    length of [txt]. *)
Theorem runeToByteIndex_clamped (n : Z) (txt : list byte) :
  0 <= runeToByteIndex n txt <= len txt ∧
  (n < 0 ∨ utf8.RuneCount txt <= n → runeToByteIndex n txt = len txt).
Proof.
  split; [apply runeToByteIndex_bounds|].
  intros [Hn|Hn]; [by apply runeToByteIndex_neg|by apply runeToByteIndex_all].
Qed.

Lemma runeToByteIndex_clamped_witness :
  runeToByteIndex 7 (bytes_of "héllo") = len (bytes_of "héllo").
Proof.
  apply (runeToByteIndex_clamped 7 (bytes_of "héllo")). right. vm_compute. discriminate.
Defined.

(** X2.  On the columns of a line [runeToByteIndex] is strictly
    increasing: two different columns up to the number of runes of
    [txt] never give the same byte offset. *)
Theorem runeToByteIndex_strict (m n : Z) (txt : list byte) :
  0 <= m < n → n <= utf8.RuneCount txt →
  runeToByteIndex m txt < runeToByteIndex n txt.
Proof.
  intros Hm Hn.
  rewrite !runeToByteIndex_offset by lia.
  pose proof (offset_strict (Z.to_nat m) (Z.to_nat n) txt). lia.
Qed.

Lemma runeToByteIndex_strict_witness :
  runeToByteIndex 1 (bytes_of "héllo") < runeToByteIndex 2 (bytes_of "héllo").
Proof.
  apply (runeToByteIndex_strict 1 2 (bytes_of "héllo")); [lia|]. vm_compute. discriminate.
Defined.

Section bytes_and_lines.
Context {State LineMatch : Type}.
Abbreviation Line := (Line State LineMatch).
Abbreviation LineArray := (LineArray State LineMatch).
Implicit Types (la : LineArray) (ls pre post : list Line) (ln : Line).

Lemma DeleteByte_mid pre ln post (x : Z) :
  0 <= x < len (data ln) →
  LineArray.DeleteByte (mkLineArray (pre ++ ln :: post)) (mkLoc x (len pre)) =
  Some (mkLineArray
    (pre ++ LineArray.set_data ln (slice_to (data ln) x ++ slice_from (data ln) (x + 1)) :: post)).
Proof.
  intros Hx. unfold LineArray.DeleteByte. cbn [X Y lines].
  rewrite index_mid. cbn [mbind option_bind].
  rewrite (in_range_true 0 x), (in_range_true 0 (x + 1)) by lia. cbn [check mbind option_bind].
  destruct (copy_within (data ln) (Z.to_nat x) (Z.to_nat (x + 1))) as [d n] eqn:E.
  rewrite set_line_mid. do 4 f_equal.
  replace (Z.to_nat (x + 1)) with (S (Z.to_nat x)) in E by lia.
  pose proof (copy_down_take (data ln) (Z.to_nat x)) as H.
  rewrite E in H. cbn [fst snd] in H.
  unfold slice_to, slice_from.
  replace (Z.to_nat (x + Z.of_nat n)) with (Z.to_nat x + n)%nat by lia.
  replace (Z.to_nat (x + 1)) with (S (Z.to_nat x)) by lia.
  rewrite H; [done|]. unfold len in Hx. lia.
Qed.

Lemma insertByte_Some la pos (b : byte) la' :
  LineArray.insertByte la pos b = Some la' →
  ∃ pre ln post,
    lines la = pre ++ ln :: post ∧ Y pos = len pre ∧ 0 <= X pos <= len (data ln) ∧
    la' = mkLineArray
      (pre ++ LineArray.set_data ln
                (slice_to (data ln) (X pos) ++ b :: slice_from (data ln) (X pos)) :: post).
Proof.
  intros H. pose proof H as H0. unfold LineArray.insertByte in H.
  destruct (index (lines la) (Y pos)) as [ln|] eqn:E; [|discriminate].
  cbn [mbind option_bind] in H.
  destruct (in_range 0 (X pos + 1) (len (data ln ++ [x00]))) eqn:E1; [|discriminate].
  destruct (in_range 0 (X pos) (len (data ln ++ [x00]))) eqn:E2; [|discriminate].
  cbn [check mbind option_bind] in H.
  destruct (in_range 0 (X pos) _) eqn:E3 in H; [|discriminate].
  apply in_range_iff in E1, E2, E3.
  rewrite len_app in E1, E2. change (len [x00]) with 1 in *.
  assert (0 <= X pos <= len (data ln)) as Hx.
  { split; [lia|]. revert E3. unfold len. rewrite copy_within_length.
    - rewrite length_app. simpl. lia.
    - rewrite length_app. simpl. unfold len in *. lia. }
  destruct (index_split _ _ _ E) as (pre & post & Hl & Hy).
  exists pre, ln, post. split; [done|]. split; [done|]. split; [done|].
  destruct la as [ls]. cbn [lines] in Hl. subst ls.
  destruct pos as [x y]. cbn [X Y] in *. subst y.
  rewrite insertByte_mid in H0 by done. congruence.
Qed.

Lemma DeleteByte_Some la pos la' :
  LineArray.DeleteByte la pos = Some la' →
  ∃ ln, index (lines la) (Y pos) = Some ln ∧ 0 <= X pos < len (data ln).
Proof.
  unfold LineArray.DeleteByte. intros H.
  destruct (index (lines la) (Y pos)) as [ln|] eqn:E; [|discriminate].
  cbn [mbind option_bind] in H.
  destruct (in_range 0 (X pos) (len (data ln))) eqn:E1; [|discriminate].
  destruct (in_range 0 (X pos + 1) (len (data ln))) eqn:E2; [|discriminate].
  apply in_range_iff in E1, E2. exists ln. split; [done|lia].
Qed.

(** X3.  [DeleteByte] takes out the one byte at the byte offset [pos.X]
    of line [pos.Y], keeps the highlight data of the line and leaves
    every other line alone; it fails exactly when the line or the byte
    does not exist. *)
Theorem DeleteByte_spec la pos :
  (∀ ln, index (lines la) (Y pos) = Some ln → 0 <= X pos < len (data ln) →
     LineArray.DeleteByte la pos =
     Some (LineArray.set_line la (Y pos)
             (LineArray.set_data ln
                (slice_to (data ln) (X pos) ++ slice_from (data ln) (X pos + 1))))) ∧
  (LineArray.DeleteByte la pos = None ↔
   ∀ ln, index (lines la) (Y pos) = Some ln → ¬ (0 <= X pos < len (data ln))).
Proof.
  assert (∀ ln, index (lines la) (Y pos) = Some ln → 0 <= X pos < len (data ln) →
     LineArray.DeleteByte la pos =
     Some (LineArray.set_line la (Y pos)
             (LineArray.set_data ln
                (slice_to (data ln) (X pos) ++ slice_from (data ln) (X pos + 1))))) as H1.
  { intros ln E Hx. destruct (index_split _ _ _ E) as (pre & post & Hl & Hy).
    destruct la as [ls]. cbn [lines] in *. subst ls.
    destruct pos as [x y]. cbn [X Y] in *. subst y.
    rewrite DeleteByte_mid by done. by rewrite set_line_mid. }
  split; [done|]. split.
  - intros HN ln E Hx. rewrite (H1 ln E Hx) in HN. discriminate.
  - intros HN. destruct (LineArray.DeleteByte la pos) as [la'|] eqn:E; [|done].
    destruct (DeleteByte_Some _ _ _ E) as (ln & E1 & Hx). by destruct (HN ln E1).
Qed.


(** X4.  A byte put in by [insertByte] is taken out again by
    [DeleteByte] at the same place: the line array is as before, with
    its highlight data. *)
Theorem insertByte_DeleteByte la pos (b : byte) la' :
  LineArray.insertByte la pos b = Some la' →
  LineArray.DeleteByte la' pos = Some la.
Proof.
  intros H. destruct (insertByte_Some _ _ _ _ H) as (pre & ln & post & Hl & Hy & Hx & ->).
  destruct la as [ls]. cbn [lines] in *. subst ls.
  destruct pos as [x y]. cbn [X Y] in *. subst y.
  rewrite DeleteByte_mid.
  - cbn [data LineArray.set_data].
    rewrite set_data_set_data.
    assert (slice_to (slice_to (data ln) x ++ b :: slice_from (data ln) x) x = slice_to (data ln) x) as ->.
    { unfold slice_to. rewrite take_app_le by (rewrite length_take; unfold len in Hx; lia).
      rewrite take_take. f_equal. lia. }
    rewrite slice_from_insert by done.
    by rewrite slice_to_from, set_data_id.
  - cbn [data LineArray.set_data]. rewrite len_app. unfold slice_to, slice_from, len in *.
    rewrite length_take. simpl length. rewrite length_drop. lia.
Qed.


End bytes_and_lines.

Lemma DeleteByte_spec_witness :
  LineArray.DeleteByte (plain_store ["abc"; "de"]) (mkLoc 1 0) =
  Some (plain_store ["ac"; "de"]).
Proof.
  exact (proj1 (DeleteByte_spec (plain_store ["abc"; "de"]) (mkLoc 1 0))
           (plain_line "abc") eq_refl ltac:(vm_compute; split; [discriminate|reflexivity])).
Defined.

Lemma insertByte_DeleteByte_witness :
  LineArray.DeleteByte (plain_store ["aXbc"; "de"]) (mkLoc 1 0) =
  Some (plain_store ["abc"; "de"]).
Proof.
  exact (insertByte_DeleteByte (plain_store ["abc"; "de"]) (mkLoc 1 0) x58
           (plain_store ["aXbc"; "de"]) eq_refl).
Defined.

Lemma slice_to_mid {A} (k1 : list A) (a : A) (k2 : list A) :
  slice_to (k1 ++ a :: k2) (len k1) = k1.
Proof. apply slice_to_app_len. Qed.

Lemma slice_to_next {A} (k1 : list A) (a : A) (k2 : list A) :
  slice_to (k1 ++ a :: k2) (len k1 + 1) = k1 ++ [a].
Proof. by rewrite (mid_next k1 a k2), (len_snoc k1 a), slice_to_app_len. Qed.

Lemma len_zero_nil {A} (l : list A) : len l = 0 → l = [].
Proof. destruct l; [done|]. unfold len. simpl. lia. Qed.

Section line_operations.
Context {State LineMatch : Type}.
Abbreviation Line := (Line State LineMatch).
Abbreviation LineArray := (LineArray State LineMatch).
Implicit Types (la : LineArray) (ls pre post : list Line) (ln : Line).

(** X5.  [NewlineBelow y] puts one empty line behind line [y]; the new
    line takes the highlight state of line [y], every old line is kept
    as it is.  It fails exactly when there is no line [y]. *)
Theorem NewlineBelow_spec la (y : Z) :
  (∀ ln, index (lines la) y = Some ln →
     LineArray.NewlineBelow la y =
     Some (mkLineArray (slice_to (lines la) (y + 1) ++
                        mkLine [] (state ln) None false ::
                        slice_from (lines la) (y + 1)))) ∧
  (LineArray.NewlineBelow la y = None ↔ index (lines la) y = None).
Proof.
  assert (∀ ln, index (lines la) y = Some ln →
     LineArray.NewlineBelow la y =
     Some (mkLineArray (slice_to (lines la) (y + 1) ++
                        mkLine [] (state ln) None false ::
                        slice_from (lines la) (y + 1)))) as H1.
  { intros ln E. destruct (index_split _ _ _ E) as (pre & post & Hl & ->).
    destruct la as [ls]. cbn [lines] in *. subst ls.
    rewrite NewlineBelow_mid, slice_to_next, slice_from_next.
    by rewrite <- app_assoc. }
  split; [done|]. split.
  - intros HN. destruct (index (lines la) y) as [ln|] eqn:E; [|done].
    rewrite (H1 ln eq_refl) in HN. discriminate.
  - apply NewlineBelow_None.
Qed.

(** X6.  [DeleteLine y] takes line [y] out and keeps the other lines in
    their order; it fails exactly when there is no line [y]; and it
    undoes [NewlineBelow]: deleting the line that [NewlineBelow y] has
    made gives the line array back. *)
Theorem DeleteLine_spec la (y : Z) :
  (∀ ln, index (lines la) y = Some ln →
     LineArray.DeleteLine la y =
     Some (mkLineArray (slice_to (lines la) y ++ slice_from (lines la) (y + 1)))) ∧
  (LineArray.DeleteLine la y = None ↔ index (lines la) y = None) ∧
  (∀ la', LineArray.NewlineBelow la y = Some la' →
     LineArray.DeleteLine la' (y + 1) = Some la).
Proof.
  assert (∀ ln, index (lines la) y = Some ln →
     LineArray.DeleteLine la y =
     Some (mkLineArray (slice_to (lines la) y ++ slice_from (lines la) (y + 1)))) as H1.
  { intros ln E. destruct (index_split _ _ _ E) as (pre & post & Hl & ->).
    destruct la as [ls]. cbn [lines] in *. subst ls.
    by rewrite DeleteLine_mid, slice_to_mid, slice_from_next. }
  split; [done|]. split; [split|].
  - intros HN. destruct (index (lines la) y) as [ln|] eqn:E; [|done].
    rewrite (H1 ln eq_refl) in HN. discriminate.
  - intros HN. destruct (LineArray.DeleteLine la y) as [la'|] eqn:E; [|done].
    destruct (DeleteLine_Some _ _ _ E) as (pre & ln & post & Hl & -> & _).
    rewrite Hl, index_mid in HN. discriminate.
  - intros la' H. destruct (index (lines la) y) as [ln|] eqn:E.
    + destruct (index_split _ _ _ E) as (pre & post & Hl & ->).
      destruct la as [ls]. cbn [lines] in *. subst ls.
      rewrite NewlineBelow_mid in H. injection H as <-.
      rewrite (mid_next pre ln (_ :: post)), (len_snoc pre ln), DeleteLine_mid.
      by rewrite <- app_assoc.
    + rewrite NewlineBelow_None in H by done. discriminate.
Qed.

(** X7.  [Split] at the byte offset [pos.X] of line [pos.Y]: the line
    keeps the bytes in front of the offset, loses its highlight state
    and match and is marked for rehighlighting; a new line behind it
    takes the bytes from the offset on and the highlight state the line
    had; the other lines are kept.  [Split] fails when there is no line
    [pos.Y] or the offset is outside the line. *)
Theorem Split_spec la (pos : Loc) :
  (∀ ln, index (lines la) (Y pos) = Some ln → 0 <= X pos <= len (data ln) →
     LF ∉ data ln →
     LineArray.Split la pos =
     Some (mkLineArray (slice_to (lines la) (Y pos) ++
                        mkLine (slice_to (data ln) (X pos)) None None true ::
                        mkLine (slice_from (data ln) (X pos)) (state ln) None false ::
                        slice_from (lines la) (Y pos + 1)))) ∧
  (index (lines la) (Y pos) = None → LineArray.Split la pos = None) ∧
  (∀ ln, index (lines la) (Y pos) = Some ln → ¬ (0 <= X pos <= len (data ln)) →
     LineArray.Split la pos = None).
Proof.
  split; [|split].
  - intros ln E Hx Hlf. destruct (index_split _ _ _ E) as (pre & post & Hl & Hy).
    destruct la as [ls]. cbn [lines] in *. subst ls.
    destruct pos as [x y]. cbn [X Y] in *. subst y.
    rewrite Split_nolf by (try done; by apply not_elem_of_drop).
    by rewrite slice_to_mid, slice_from_next.
  - intros E. unfold LineArray.Split, LineArray.Split_with.
    by rewrite NewlineBelow_None.
  - intros ln E Hx. destruct (index_split _ _ _ E) as (pre & post & Hl & Hy).
    destruct la as [ls]. cbn [lines] in *. subst ls.
    destruct pos as [x y]. cbn [X Y] in *. subst y.
    unfold LineArray.Split, LineArray.Split_with. cbn [X Y].
    rewrite NewlineBelow_mid. cbn [mbind option_bind lines].
    rewrite index_mid. cbn [mbind option_bind].
    rewrite in_range_false by lia. done.
Qed.

(** X8.  [JoinLines a (a+1)] puts the bytes of line [a+1] behind those
    of line [a] and takes line [a+1] out; line [a] keeps its highlight
    data and is not marked for rehighlighting. *)
Theorem JoinLines_spec la (a : Z) (l0 l1 : Line) :
  index (lines la) a = Some l0 → index (lines la) (a + 1) = Some l1 →
  LF ∉ data l1 →
  LineArray.JoinLines la a (a + 1) =
  Some (mkLineArray (slice_to (lines la) a ++
                     mkLine (data l0 ++ data l1) (state l0) (match_ l0) (rehighlight l0) ::
                     slice_from (lines la) (a + 2))).
Proof.
  intros E0 E1 Hlf.
  destruct (index_split2 _ _ _ _ _ E0 E1 ltac:(lia)) as (pre & mid & post & Hl & -> & Hj).
  assert (mid = []) as -> by (apply len_zero_nil; lia).
  destruct la as [ls]. cbn [lines app] in *. subst ls.
  rewrite JoinLines_mid by done.
  rewrite slice_to_mid.
  rewrite (mid_next pre l0 (l1 :: post)), (mid_next (pre ++ [l0]) l1 post).
  replace (len pre + 2) with (len ((pre ++ [l0]) ++ [l1])) by (rewrite !len_app; unfold len; simpl; lia).
  by rewrite slice_from_app_len.
Qed.

End line_operations.

Lemma NewlineBelow_spec_witness :
  LineArray.NewlineBelow (plain_store ["ab"; "cd"]) 0 =
  Some (plain_store ["ab"; ""; "cd"]).
Proof. apply (proj1 (NewlineBelow_spec (plain_store ["ab"; "cd"]) 0) (plain_line "ab") eq_refl). Defined.

Lemma DeleteLine_spec_witness :
  LineArray.DeleteLine (plain_store ["ab"; "cd"; "ef"]) 1 =
  Some (plain_store ["ab"; "ef"]).
Proof. apply (proj1 (DeleteLine_spec (plain_store ["ab"; "cd"; "ef"]) 1) (plain_line "cd") eq_refl). Defined.

Lemma Split_spec_witness :
  LineArray.Split (plain_store ["héllo"; "world"]) (mkLoc 3 0) =
  Some (mkLineArray [mkLine (bytes_of "hé") None None true; plain_line "llo";
                     plain_line "world"]).
Proof.
  apply (proj1 (Split_spec (plain_store ["héllo"; "world"]) (mkLoc 3 0))
           (plain_line "héllo") eq_refl
           ltac:(vm_compute; split; discriminate) ltac:(apply (bool_decide_unpack _); vm_compute; exact I)).
Defined.

Lemma JoinLines_spec_witness :
  LineArray.JoinLines (plain_store ["ab"; "cd"; "ef"]) 0 (0 + 1) =
  Some (plain_store ["abcd"; "ef"]).
Proof.
  apply (JoinLines_spec (plain_store ["ab"; "cd"; "ef"]) 0 (plain_line "ab") (plain_line "cd")
           eq_refl eq_refl ltac:(apply (bool_decide_unpack _); vm_compute; exact I)).
Defined.

Lemma length_split_lf (s : list byte) :
  length (split_lf s) = S (length (filter (λ b, b = LF) s)).
Proof.
  induction s as [|b s IH]; [done|].
  destruct (decide (b = LF)) as [->|Hb].
  - rewrite split_lf_LF, filter_cons_True by done. simpl. by rewrite IH.
  - rewrite split_lf_cons, filter_cons_False by done.
    rewrite length_glue by apply split_lf_nonempty. done.
Qed.

Lemma length_removelast {A} (l : list A) : length (removelast l) = pred (length l).
Proof.
  induction l as [|a l IH]; [done|]. destruct l as [|a' l]; [done|].
  change (removelast (a :: a' :: l)) with (a :: removelast (a' :: l)).
  simpl length in *. rewrite IH. done.
Qed.

Section edits.
Context {State LineMatch : Type}.
Abbreviation Line := (Line State LineMatch).
Abbreviation LineArray := (LineArray State LineMatch).
Implicit Types (la : LineArray) (ls pre post : list Line) (ln : Line).

(** X9.  Inserting bytes without a line feed changes the bytes of line
    [pos.Y] only: they are spliced in at the byte offset of column
    [pos.X]; the number of lines, the other lines and all highlight data
    stay as they are (the line is not marked for rehighlighting). *)
Theorem insert_without_line_feed la (pos : Loc) (value : list byte) ln :
  index (lines la) (Y pos) = Some ln → LF ∉ value →
  let x := runeToByteIndex (X pos) (data ln) in
  LineArray.insert la pos value =
  Some (LineArray.set_line la (Y pos)
          (mkLine (slice_to (data ln) x ++ value ++ slice_from (data ln) x)
                  (state ln) (match_ ln) (rehighlight ln))).
Proof.
  intros E Hv x. destruct (index_split _ _ _ E) as (pre & post & Hl & Hy).
  destruct la as [ls]. cbn [lines] in *. subst ls.
  destruct pos as [px py]. cbn [X Y] in *. subst py.
  unfold LineArray.insert. rewrite insert_depth_nolf by done.
  by rewrite set_line_mid.
Qed.

Lemma insert_None la (pos : Loc) (value : list byte) :
  index (lines la) (Y pos) = None → LineArray.insert la pos value = None.
Proof.
  intros E. unfold LineArray.insert. cbn [LineArray.insert_depth]. by rewrite E.
Qed.

(** X10.  In a store without line feeds [insert] fails exactly when
    there is no line [pos.Y]: the column [pos.X] is never a reason to
    fail (it is cut to the line), and neither is the value. *)
Theorem insert_fails_iff la (pos : Loc) (value : list byte) :
  no_lf la = true →
  (LineArray.insert la pos value = None ↔ index (lines la) (Y pos) = None).
Proof.
  intros Hlf. split.
  - intros HN. destruct (index (lines la) (Y pos)) as [ln|] eqn:E; [|done].
    destruct (insert_lines la pos value ln Hlf E) as (la' & Hi & _). congruence.
  - apply insert_None.
Qed.

Lemma set_line_no_lf la (y : Z) ln :
  no_lf la = true → LF ∉ data ln → no_lf (LineArray.set_line la y ln) = true.
Proof.
  intros Hlf Hd. apply no_lf_data. apply no_lf_data in Hlf.
  unfold LineArray.set_line. cbn [lines]. rewrite list_fmap_insert.
  by apply Forall_insert.
Qed.

Lemma DeleteLine_no_lf la (y : Z) la' :
  no_lf la = true → LineArray.DeleteLine la y = Some la' → no_lf la' = true.
Proof.
  intros Hlf H. apply DeleteLine_Some in H as (pre & ln & post & Hl & _ & Hl').
  apply no_lf_data. apply no_lf_data in Hlf. rewrite Hl' , Hl in *.
  rewrite fmap_app in *. rewrite fmap_cons in Hlf.
  apply Forall_app in Hlf as [H1 H2]. apply Forall_cons in H2 as [_ H2].
  by apply Forall_app.
Qed.

Lemma DeleteLine_loop_no_lf (k : nat) la (y : Z) la' :
  no_lf la = true → LineArray.DeleteLine_loop k la y = Some la' → no_lf la' = true.
Proof.
  revert la. induction k as [|k IH]; intros la Hlf H; cbn [LineArray.DeleteLine_loop] in H.
  - congruence.
  - destruct (LineArray.DeleteLine la y) as [la1|] eqn:E; [|done].
    cbn [mbind option_bind] in H. eapply IH; [|done]. by eapply DeleteLine_no_lf.
Qed.

Lemma DeleteToEnd_no_lf la pos la' :
  no_lf la = true → LineArray.DeleteToEnd la pos = Some la' → no_lf la' = true.
Proof.
  intros Hlf H. unfold LineArray.DeleteToEnd in H.
  destruct (index (lines la) (Y pos)) as [ln|] eqn:E; [|done].
  cbn [mbind option_bind] in H.
  destruct (in_range _ _ _); [|done]. cbn [check mbind option_bind] in H.
  injection H as <-. apply set_line_no_lf; [done|]. cbn [data LineArray.set_data].
  apply not_elem_of_take. by eapply no_lf_index.
Qed.

Lemma DeleteFromStart_no_lf la pos la' :
  no_lf la = true → LineArray.DeleteFromStart la pos = Some la' → no_lf la' = true.
Proof.
  intros Hlf H. unfold LineArray.DeleteFromStart in H.
  destruct (index (lines la) (Y pos)) as [ln|] eqn:E; [|done].
  cbn [mbind option_bind] in H.
  destruct (in_range _ _ _); [|done]. cbn [check mbind option_bind] in H.
  injection H as <-. apply set_line_no_lf; [done|]. cbn [data LineArray.set_data].
  apply not_elem_of_drop. by eapply no_lf_index.
Qed.

Lemma JoinLines_no_lf la (a b : Z) la' :
  no_lf la = true → LineArray.JoinLines la a b = Some la' → no_lf la' = true.
Proof.
  intros Hlf H. unfold LineArray.JoinLines in H.
  destruct (index (lines la) a) as [lna|]; [|done].
  destruct (index (lines la) b) as [lnb|]; [|done].
  cbn [mbind option_bind] in H.
  destruct (negb (a =? b)); [|done]. cbn [check mbind option_bind] in H.
  destruct (LineArray.insert la _ _) as [la1|] eqn:Hi; [|done].
  cbn [mbind option_bind] in H.
  eapply DeleteLine_no_lf; [|done]. by eapply insert_no_lf.
Qed.

Lemma remove_keeps_no_lf la (start end_ : Loc) la' (sub : list byte) :
  no_lf la = true → LineArray.remove la start end_ = Some (la', sub) → no_lf la' = true.
Proof.
  intros Hlf H. unfold LineArray.remove in H.
  destruct (LineArray.Substr la start end_) as [s|]; [|done].
  cbn [mbind option_bind] in H.
  destruct (index (lines la) (Y start)) as [a|] eqn:Ea; [|done].
  destruct (index (lines la) (Y end_)) as [b|] eqn:Eb; [|done].
  cbn [mbind option_bind] in H.
  destruct (Y start =? Y end_).
  - injection H as <- <-. apply set_line_no_lf; [done|]. cbn [data LineArray.set_data].
    intros [Hin|Hin]%elem_of_app.
    + revert Hin. apply not_elem_of_take. by eapply no_lf_index.
    + revert Hin. apply not_elem_of_drop. by eapply no_lf_index.
  - destruct (LineArray.DeleteLine_loop _ _ _) as [la1|] eqn:E1; [|done].
    cbn [mbind option_bind] in H.
    destruct (LineArray.DeleteToEnd la1 _) as [la2|] eqn:E2; [|done].
    cbn [mbind option_bind] in H.
    destruct (LineArray.DeleteFromStart la2 _) as [la3|] eqn:E3; [|done].
    cbn [mbind option_bind] in H.
    destruct (LineArray.JoinLines la3 _ _) as [la4|] eqn:E4; [|done].
    cbn [mbind option_bind] in H. injection H as <- <-.
    eapply JoinLines_no_lf; [|done]. eapply DeleteFromStart_no_lf; [|done].
    eapply DeleteToEnd_no_lf; [|done]. by eapply DeleteLine_loop_no_lf.
Qed.

(** X11.  The invariant of the line store, that no line holds a line
    feed, is kept by every [insert] and every [remove] that returns,
    whatever the locations and the value. *)
Theorem edits_keep_lines_free_of_line_feeds la :
  no_lf la = true →
  (∀ pos value la', LineArray.insert la pos value = Some la' → no_lf la' = true) ∧
  (∀ start end_ la' sub,
     LineArray.remove la start end_ = Some (la', sub) → no_lf la' = true).
Proof.
  intros Hlf. split.
  - intros pos value la'. by apply insert_no_lf.
  - intros start end_ la' sub. by apply remove_keeps_no_lf.
Qed.

(** X12.  [NewLineArray] makes one line for each line feed of the input
    and, when the reader ends with [io.EOF], one more for the bytes
    behind the last line feed.  When the reader ends with another
    error, the bytes behind the last line feed are dropped: the store
    has as many lines as the input has line feeds, none for an input
    without a line feed. *)
Theorem NewLineArray_line_count (size : Z) (s : list byte) (e : read_end) :
  let la := LineArray.NewLineArray (State:=State) (LineMatch:=LineMatch) size
              (Some (mkReader s e)) in
  len (lines la) =
    Z.of_nat (length (filter (λ b, b = LF) s)) +
    match e with EOF => 1 | ReadError => 0 end ∧
  data <$> lines la =
    match e with EOF => split_lf s | ReadError => removelast (split_lf s) end.
Proof.
  cbn zeta. unfold LineArray.NewLineArray. cbn [content ending lines].
  rewrite NewLineArray_loop_split by lia. rewrite app_nil_l.
  split.
  - unfold len. rewrite length_fmap.
    destruct e; [|rewrite length_removelast]; rewrite length_split_lf; lia.
  - rewrite <- list_fmap_compose. apply list_fmap_id.
Qed.

End edits.

Lemma insert_without_line_feed_witness :
  LineArray.insert (plain_store ["héllo"; "world"]) (mkLoc 2 0) (bytes_of "XY") =
  Some (plain_store ["héXYllo"; "world"]).
Proof.
  apply (insert_without_line_feed (plain_store ["héllo"; "world"]) (mkLoc 2 0) (bytes_of "XY")
           (plain_line "héllo") eq_refl ltac:(apply (bool_decide_unpack _); vm_compute; exact I)).
Defined.

Lemma insert_fails_iff_witness :
  LineArray.insert (plain_store ["ab"]) (mkLoc 0 1) (bytes_of "X") = None ↔
  index (lines (plain_store ["ab"])) (Y (mkLoc 0 1)) = None.
Proof. apply (insert_fails_iff (plain_store ["ab"]) (mkLoc 0 1) (bytes_of "X") eq_refl). Defined.

Lemma edits_keep_lines_free_of_line_feeds_witness :
  ∃ la', LineArray.insert (plain_store ["ab"; "cd"]) (mkLoc 1 0) [x58; LF; x59] = Some la' ∧
         no_lf la' = true.
Proof.
  eexists. split; [reflexivity|].
  apply (proj1 (edits_keep_lines_free_of_line_feeds (plain_store ["ab"; "cd"]) eq_refl)
           (mkLoc 1 0) [x58; LF; x59]).
  reflexivity.
Defined.

(** ** The text of the store under the edits *)

Lemma join_with_cons (sep d : list byte) (rest : list (list byte)) :
  join_with sep (d :: rest) =
  d ++ match rest with [] => [] | _ => sep ++ join_with sep rest end.
Proof. destruct rest; [by rewrite app_nil_r|done]. Qed.

Lemma join_with_cons_ne (sep d : list byte) (rest : list (list byte)) :
  rest ≠ [] → join_with sep (d :: rest) = d ++ sep ++ join_with sep rest.
Proof. by destruct rest. Qed.

Lemma join_with_glue (sep p : list byte) (segs : list (list byte)) :
  segs ≠ [] → join_with sep (glue p segs) = p ++ join_with sep segs.
Proof.
  destruct segs as [|seg rest]; [done|]. intros _. cbn [glue].
  rewrite !join_with_cons. by rewrite <- app_assoc.
Qed.

Lemma join_with_app (sep : list byte) (A B : list (list byte)) :
  A ≠ [] → B ≠ [] →
  join_with sep (A ++ B) = join_with sep A ++ sep ++ join_with sep B.
Proof.
  induction A as [|a A IH]; [done|]. intros _ HB.
  destruct A as [|a' A].
  - destruct B; [done|]. done.
  - change ((a :: a' :: A) ++ B) with (a :: (a' :: A) ++ B).
    rewrite (join_with_cons sep a ((a' :: A) ++ B)).
    rewrite (join_with_cons sep a (a' :: A)).
    cbn [app]. rewrite <- !app_assoc. do 2 f_equal. by apply IH.
Qed.

Section text.
Context {State LineMatch : Type}.
Abbreviation Line := (Line State LineMatch).
Abbreviation LineArray := (LineArray State LineMatch).
Implicit Types (la : LineArray) (ls pre post mid : list Line) (ln : Line).

Lemma flat_app pre post : flat (pre ++ post) = flat pre ++ flat post.
Proof. unfold flat. by rewrite fmap_app, join_app. Qed.

Lemma flat_nil : flat (@nil Line) = [].
Proof. done. Qed.

Lemma flat_cons ln post : flat (ln :: post) = data ln ++ LF :: flat post.
Proof. unfold flat. cbn. by rewrite <- app_assoc. Qed.

Lemma join_flat pre (d : list byte) (rest : list (list byte)) :
  join_with [LF] ((data <$> pre) ++ d :: rest) = flat pre ++ join_with [LF] (d :: rest).
Proof.
  induction pre as [|ln pre IH]; [done|].
  rewrite fmap_cons, flat_cons. cbn [app].
  rewrite join_with_cons_ne by (by destruct (data <$> pre)).
  rewrite IH. by rewrite <- app_assoc.
Qed.


Lemma String_mid pre ln post :
  LineArray.String (mkLineArray (pre ++ ln :: post)) = flat pre ++ data ln ++ behind post.
Proof.
  rewrite String_join. cbn [lines]. rewrite fmap_app, fmap_cons, join_flat, join_with_cons.
  by destruct post.
Qed.

Lemma String_data la la' :
  data <$> lines la = data <$> lines la' → LineArray.String la = LineArray.String la'.
Proof. intros H. by rewrite !String_join, H. Qed.

Lemma text_offset_mid pre ln post (x : Z) :
  text_offset (mkLineArray (pre ++ ln :: post)) (mkLoc x (len pre)) =
  len (flat pre) + runeToByteIndex x (data ln).
Proof.
  unfold text_offset. cbn [X Y lines]. by rewrite index_mid, slice_to_mid.
Qed.

Lemma slice_to_app_add {A} (k1 k2 : list A) (x : Z) :
  0 <= x → slice_to (k1 ++ k2) (len k1 + x) = k1 ++ slice_to k2 x.
Proof.
  intros Hx. unfold slice_to, len.
  replace (Z.to_nat (Z.of_nat (length k1) + x)) with (length k1 + Z.to_nat x)%nat by lia.
  by rewrite take_app_add.
Qed.

Lemma slice_from_app_add {A} (k1 k2 : list A) (x : Z) :
  0 <= x → slice_from (k1 ++ k2) (len k1 + x) = slice_from k2 x.
Proof.
  intros Hx. unfold slice_from, len.
  replace (Z.to_nat (Z.of_nat (length k1) + x)) with (length k1 + Z.to_nat x)%nat by lia.
  by rewrite drop_app_add.
Qed.

Lemma slice_to_app_le {A} (k1 k2 : list A) (x : Z) :
  x <= len k1 → slice_to (k1 ++ k2) x = slice_to k1 x.
Proof. intros Hx. unfold slice_to, len in *. apply take_app_le. lia. Qed.

Lemma slice_from_app_le {A} (k1 k2 : list A) (x : Z) :
  x <= len k1 → slice_from (k1 ++ k2) x = slice_from k1 x ++ k2.
Proof. intros Hx. unfold slice_from, len in *. apply drop_app_le. lia. Qed.

(** X13.  On the text of the store ([String]), [insert] is the splice
    of the value at the place of the location: the text in front of
    that place, the value, and the text behind it. *)
Theorem String_insert la (pos : Loc) (value : list byte) ln la' :
  no_lf la = true → index (lines la) (Y pos) = Some ln →
  LineArray.insert la pos value = Some la' →
  LineArray.String la' =
    slice_to (LineArray.String la) (text_offset la pos) ++ value ++
    slice_from (LineArray.String la) (text_offset la pos).
Proof.
  intros Hlf E Hi.
  destruct (insert_lines la pos value ln Hlf E) as (la1 & Hi1 & Hd & _).
  rewrite Hi in Hi1. injection Hi1 as <-.
  destruct (index_split _ _ _ E) as (pre & post & Hl & Hy).
  destruct la as [ls]. cbn [lines] in *. subst ls.
  destruct pos as [px py]. cbn [X Y] in *. subst py.
  rewrite slice_to_mid, slice_from_next in Hd.
  set (x := runeToByteIndex px (data ln)) in *.
  pose proof (runeToByteIndex_bounds px (data ln)) as Hx. fold x in Hx.
  rewrite text_offset_mid. fold x.
  rewrite String_mid, String_join, Hd.
  pose proof (split_lf_nonempty (value ++ slice_from (data ln) x)) as Hne.
  assert (glue (slice_to (data ln) x) (split_lf (value ++ slice_from (data ln) x)) ≠ []) as Hg.
  { by destruct (split_lf (value ++ slice_from (data ln) x)). }
  assert (join_with [LF]
            (glue (slice_to (data ln) x) (split_lf (value ++ slice_from (data ln) x)) ++
             (data <$> post)) =
          slice_to (data ln) x ++ value ++ slice_from (data ln) x ++ behind post) as Hj.
  { destruct post as [|p post].
    - rewrite fmap_nil, app_nil_r, join_with_glue, join_split_lf by done.
      cbn [behind]. by rewrite ?app_nil_r, <- ?app_assoc.
    - rewrite join_with_app, join_with_glue, join_split_lf by done.
      cbn [behind]. by rewrite <- ?app_assoc. }
  destruct (glue (slice_to (data ln) x) (split_lf (value ++ slice_from (data ln) x)))
    as [|g gs] eqn:Eg; [done|].
  cbn [app] in *. rewrite join_flat, Hj.
  rewrite slice_to_app_add, slice_from_app_add by lia.
  rewrite slice_to_app_le, slice_from_app_le by lia.
  by rewrite <- !app_assoc.
Qed.

Lemma between_mid pre (a : Line) mid (b : Line) post :
  between (pre ++ a :: mid ++ b :: post) (len pre) (len pre + 1 + len mid) = mid.
Proof.
  unfold between. rewrite slice_from_next.
  replace (len pre + 1 + len mid - len pre - 1) with (len mid) by lia.
  apply slice_to_app_len.
Qed.

Lemma len_slice_to {A} (d : list A) (x : Z) : 0 <= x <= len d → len (slice_to d x) = x.
Proof. intros Hx. unfold slice_to, len in *. rewrite length_take. lia. Qed.

Lemma len_slice_from {A} (d : list A) (x : Z) :
  0 <= x <= len d → len (slice_from d x) = len d - x.
Proof. intros Hx. unfold slice_from, len in *. rewrite length_drop. lia. Qed.

Lemma cut_text {A} (P M Q : list A) (o1 o2 : Z) :
  o1 = len P → o2 = len P + len M →
  slice_from (slice_to (P ++ M ++ Q) o2) o1 = M ∧
  slice_to (P ++ M ++ Q) o1 ++ slice_from (P ++ M ++ Q) o2 = P ++ Q.
Proof.
  intros -> ->. split.
  - rewrite app_assoc. rewrite <- len_app, slice_to_app_len. apply slice_from_app_len.
  - rewrite slice_to_app_len. f_equal.
    rewrite app_assoc. rewrite <- len_app. apply slice_from_app_len.
Qed.

(** X14.  On the text of the store, [remove] cuts out the bytes between
    the places of the two locations and returns them: the text
    afterwards is the text in front of the first place followed by the
    text behind the second. *)
Theorem String_remove la (start end_ : Loc) a b :
  no_lf la = true →
  index (lines la) (Y start) = Some a →
  index (lines la) (Y end_) = Some b →
  Y start < Y end_ ∨ (Y start = Y end_ ∧ 0 <= X start <= X end_) →
  ∃ la' sub,
    LineArray.remove la start end_ = Some (la', sub) ∧
    text_offset la start <= text_offset la end_ ∧
    sub = slice_from (slice_to (LineArray.String la) (text_offset la end_))
            (text_offset la start) ∧
    LineArray.String la' =
      slice_to (LineArray.String la) (text_offset la start) ++
      slice_from (LineArray.String la) (text_offset la end_).
Proof.
  intros Hlf Ea Eb Hord.
  destruct (remove_closed_form la start end_ a b Hlf Ea Eb Hord)
    as (la' & sub & Hr & _ & Hsame & Hless).
  exists la', sub. split; [done|]. clear Hr.
  pose proof (runeToByteIndex_bounds (X start) (data a)) as Hsx.
  pose proof (runeToByteIndex_bounds (X end_) (data b)) as Hex.
  destruct start as [sx sy], end_ as [ex ey]. cbn [X Y] in *.
  destruct Hord as [Hlt|[-> Hxs]].
  - clear Hsame. destruct (Hless Hlt) as (-> & Hl' & _). clear Hless.
    destruct (index_split2 _ _ _ _ _ Ea Eb Hlt) as (pre & mid & post & Hl & -> & ->).
    destruct la as [ls], la' as [ls']. cbn [lines] in *. subst ls.
    rewrite between_mid.
    rewrite slice_to_mid in Hl'.
    assert (slice_from (pre ++ a :: mid ++ b :: post) (len pre + 1 + len mid + 1) = post) as Hp.
    { rewrite (mid_next pre a), app_assoc.
      replace (len pre + 1 + len mid) with (len ((pre ++ [a]) ++ mid))
        by (rewrite !len_app; unfold len; simpl; lia).
      apply slice_from_next. }
    rewrite Hp in Hl'. subst ls'.
    rewrite text_offset_mid.
    assert (text_offset (mkLineArray (pre ++ a :: mid ++ b :: post))
              (mkLoc ex (len pre + 1 + len mid)) =
            len (flat pre) + len (data a) + 1 + len (flat mid) +
            runeToByteIndex ex (data b)) as ->.
    { rewrite (mid_next pre a), app_assoc.
      replace (len pre + 1 + len mid) with (len ((pre ++ [a]) ++ mid))
        by (rewrite !len_app; unfold len; simpl; lia).
      rewrite text_offset_mid. rewrite !flat_app, flat_cons, flat_nil.
      rewrite !len_app. unfold len. simpl length. lia. }
    set (x1 := runeToByteIndex sx (data a)) in *.
    set (x2 := runeToByteIndex ex (data b)) in *.
    set (M := slice_from (data a) x1 ++ [LF] ++
              mjoin ((λ l : Line, data l ++ [LF]) <$> mid) ++ slice_to (data b) x2).
    assert (LineArray.String (mkLineArray (pre ++ a :: mid ++ b :: post)) =
            (flat pre ++ slice_to (data a) x1) ++ M ++
            (slice_from (data b) x2 ++ behind post)) as HS.
    { rewrite (mid_next pre a), app_assoc, String_mid, !flat_app, flat_cons, flat_nil.
      rewrite <- (slice_to_from (data a) x1) at 1.
      rewrite <- (slice_to_from (data b) x2) at 1.
      unfold M, flat. rewrite <- !app_assoc. done. }
    rewrite HS, String_mid. cbn [data LineArray.set_data].
    assert (len M = len (data a) - x1 + 1 + len (flat mid) + x2) as HM.
    { unfold M. rewrite !len_app, len_slice_from, len_slice_to by lia.
      unfold flat, len. simpl length. lia. }
    pose proof (len_nonneg (flat mid)).
    split; [lia|].
    destruct (cut_text (flat pre ++ slice_to (data a) x1) M
                (slice_from (data b) x2 ++ behind post)
                (len (flat pre) + x1)
                (len (flat pre) + len (data a) + 1 + len (flat mid) + x2)) as [H1 H2].
    { rewrite len_app, len_slice_to by lia. done. }
    { rewrite len_app, len_slice_to by lia. lia. }
    rewrite H1, H2. split; [done|]. by rewrite <- !app_assoc.
  - clear Hless. destruct (Hsame eq_refl) as (-> & ->). clear Hsame.
    assert (a = b) as <- by congruence.
    pose proof (runeToByteIndex_mono sx ex (data a) Hxs) as Hmono.
    destruct (index_split _ _ _ Ea) as (pre & post & Hl & ->).
    destruct la as [ls]. cbn [lines] in *. subst ls.
    rewrite set_line_mid, !text_offset_mid, !String_mid. cbn [data LineArray.set_data].
    set (x1 := runeToByteIndex sx (data a)) in *.
    set (x2 := runeToByteIndex ex (data a)) in *.
    split; [lia|].
    set (M := slice_from (slice_to (data a) x2) x1).
    assert (data a = slice_to (data a) x1 ++ M ++ slice_from (data a) x2) as Hd.
    { rewrite <- (slice_to_from (data a) x2) at 1.
      rewrite <- (slice_to_from (slice_to (data a) x2) x1) at 1.
      rewrite <- app_assoc. f_equal. unfold slice_to. rewrite take_take. f_equal. lia. }
    assert (len M = x2 - x1) as HM.
    { unfold M. rewrite len_slice_from; rewrite len_slice_to by lia; lia. }
    assert (flat pre ++ data a ++ behind post =
            (flat pre ++ slice_to (data a) x1) ++ M ++
            (slice_from (data a) x2 ++ behind post)) as HS.
    { rewrite Hd at 1. by rewrite <- !app_assoc. }
    rewrite HS.
    destruct (cut_text (flat pre ++ slice_to (data a) x1) M
                (slice_from (data a) x2 ++ behind post)
                (len (flat pre) + x1) (len (flat pre) + x2)) as [H1 H2].
    { rewrite len_app, len_slice_to by lia. done. }
    { rewrite len_app, len_slice_to by lia. lia. }
    rewrite H1, H2. split; [done|]. by rewrite <- !app_assoc.
Qed.

Lemma Substr_whole (b : Buffer State LineMatch) (e : Loc) :
  NumLines b = len (lines (lineArray b)) →
  Buffer.End b = Some e →
  LineArray.Substr (lineArray b) (Buffer.Start b) e =
  Some (LineArray.String (lineArray b)).
Proof.
  intros Hn He. unfold Buffer.End, Buffer.blines in He. rewrite Hn in He.
  destruct (index (lines (lineArray b)) _) as [lz|] eqn:Ez; [|done].
  cbn [mbind option_bind] in He. injection He as <-.
  destruct (lineArray b) as [ls]. cbn [lines] in *. clear Hn.
  unfold Buffer.Start, LineArray.Substr. cbn [X Y lines].
  assert (runeToByteIndex (utf8.RuneCount (data lz)) (data lz) = len (data lz)) as Hend.
  { apply runeToByteIndex_all. lia. }
  destruct ls as [|l0 ls']; [done|].
  change (index (l0 :: ls') 0) with (Some l0). cbn [mbind option_bind].
  rewrite Ez. cbn [mbind option_bind]. rewrite Hend.
  change (runeToByteIndex 0 (data l0)) with 0.
  change (slice_from (data l0) 0) with (data l0).
  destruct (Z.eqb_spec 0 (len (l0 :: ls') - 1)) as [H0|H0].
  - assert (ls' = []) as ->.
    { apply len_zero_nil. unfold len in *. simpl length in H0. lia. }
    change (len [l0] - 1) with 0 in Ez. assert (lz = l0) as -> by (cbv in Ez; congruence).
    rewrite in_range_true by (pose proof (len_nonneg (data l0)); lia).
    cbn [check mbind option_bind]. rewrite slice_to_len.
    pose proof (String_mid [] l0 []) as HS. cbn [app behind] in HS. rewrite HS.
    rewrite flat_nil, app_nil_r. done.
  - destruct (index_split _ _ _ Ez) as (pre & post & Hl & Hy).
    assert (post = []) as ->.
    { apply len_zero_nil. apply (f_equal len) in Hl. rewrite len_app in Hl.
      unfold len in *. simpl length in *. lia. }
    destruct pre as [|p0 pre]; [unfold len in *; simpl in *; lia|].
    cbn [app] in Hl. injection Hl as <- ->.
    replace (Z.to_nat (len (l0 :: pre ++ [lz]) - 1 - 1 - 0)) with (length pre)
      by (unfold len; simpl; rewrite length_app; simpl; lia).
    pose proof (Substr_loop_mid [l0] pre [lz] (data l0 ++ [LF])) as HS.
    change (len [l0]) with (0 + 1) in HS. cbn [app] in HS. rewrite HS.
    cbn [mbind option_bind]. rewrite slice_to_len.
    pose proof (String_mid (l0 :: pre) lz []) as HS'. cbn [app behind] in HS'. rewrite HS'.
    rewrite flat_cons, app_nil_r.
    unfold flat. rewrite <- !app_assoc. done.
Qed.

(** X15.  The text between the start and the end of the buffer is all
    of its text: [Substr] from [Start] to [End] returns what [String]
    returns. *)
Theorem Substr_Start_End (b : Buffer State LineMatch) (e : Loc) :
  NumLines b = len (lines (lineArray b)) →
  Buffer.End b = Some e →
  LineArray.Substr (lineArray b) (Buffer.Start b) e =
  Some (LineArray.String (lineArray b)).
Proof. apply Substr_whole. Qed.

(** X30.  Removing from [Start] to [End] empties the buffer: [remove]
    returns the whole text and leaves one line without bytes. *)
Theorem remove_Start_End (b : Buffer State LineMatch) (e : Loc) :
  no_lf (lineArray b) = true →
  NumLines b = len (lines (lineArray b)) →
  Buffer.End b = Some e →
  ∃ la',
    LineArray.remove (lineArray b) (Buffer.Start b) e =
      Some (la', LineArray.String (lineArray b)) ∧
    data <$> lines la' = [[]].
Proof.
  intros Hlf Hn He. pose proof (Substr_whole b e Hn He) as HS.
  unfold Buffer.End, Buffer.blines in He. rewrite Hn in He.
  destruct (index (lines (lineArray b)) _) as [lz|] eqn:Ez; [|done].
  cbn [mbind option_bind] in He. injection He as <-.
  destruct (lineArray b) as [ls]. cbn [lines] in *. clear Hn.
  destruct ls as [|l0 ls']; [done|].
  unfold Buffer.Start in *.
  pose proof (RuneCount_bounds (data lz)) as Hrc.
  destruct (remove_closed_form (mkLineArray (l0 :: ls')) (mkLoc 0 0)
              (mkLoc (utf8.RuneCount (data lz)) (len (l0 :: ls') - 1)) l0 lz Hlf eq_refl Ez)
    as (la' & sub & Hr & HS' & Hsame & Hless).
  { cbn [X Y]. unfold len in *. simpl length in *. lia. }
  rewrite HS in HS'. injection HS' as <-.
  exists la'. split; [done|].
  cbn [X Y lines] in Hsame, Hless.
  assert (runeToByteIndex (utf8.RuneCount (data lz)) (data lz) = len (data lz)) as Hend
    by (apply runeToByteIndex_all; lia).
  change (runeToByteIndex 0 (data l0)) with 0 in *.
  rewrite Hend in *.
  destruct (decide (0 = len (l0 :: ls') - 1)) as [H0|H0].
  - destruct (Hsame H0) as [_ ->].
    assert (ls' = []) as ->.
    { apply len_zero_nil. unfold len in *. simpl length in H0. lia. }
    rewrite <- H0 in Ez. assert (lz = l0) as -> by (cbv in Ez; congruence).
    cbn. rewrite slice_from_len. done.
  - destruct Hless as (_ & Hl' & _).
    { pose proof (len_nonneg ls'). unfold len in *. simpl length in *. lia. }
    rewrite Hl'. change (slice_to (l0 :: ls') 0) with (@nil Line).
    replace (len (l0 :: ls') - 1 + 1) with (len (l0 :: ls')) by lia.
    rewrite !slice_from_len. done.
Qed.

End text.

Lemma String_insert_witness :
  LineArray.String (plain_store ["héllo"; "wXYorld"]) =
  slice_to (LineArray.String (plain_store ["héllo"; "world"]))
    (text_offset (plain_store ["héllo"; "world"]) (mkLoc 1 1)) ++
  bytes_of "XY" ++
  slice_from (LineArray.String (plain_store ["héllo"; "world"]))
    (text_offset (plain_store ["héllo"; "world"]) (mkLoc 1 1)).
Proof.
  apply (String_insert (plain_store ["héllo"; "world"]) (mkLoc 1 1) (bytes_of "XY")
           (plain_line "world") (plain_store ["héllo"; "wXYorld"]));
    reflexivity.
Defined.

Lemma String_remove_witness :
  ∃ la' sub,
    LineArray.remove (plain_store ["héllo"; "world"; "abc"]) (mkLoc 2 0) (mkLoc 1 2) =
      Some (la', sub) ∧
    text_offset (plain_store ["héllo"; "world"; "abc"]) (mkLoc 2 0) <=
      text_offset (plain_store ["héllo"; "world"; "abc"]) (mkLoc 1 2) ∧
    sub = slice_from
            (slice_to (LineArray.String (plain_store ["héllo"; "world"; "abc"]))
               (text_offset (plain_store ["héllo"; "world"; "abc"]) (mkLoc 1 2)))
            (text_offset (plain_store ["héllo"; "world"; "abc"]) (mkLoc 2 0)) ∧
    LineArray.String la' =
      slice_to (LineArray.String (plain_store ["héllo"; "world"; "abc"]))
        (text_offset (plain_store ["héllo"; "world"; "abc"]) (mkLoc 2 0)) ++
      slice_from (LineArray.String (plain_store ["héllo"; "world"; "abc"]))
        (text_offset (plain_store ["héllo"; "world"; "abc"]) (mkLoc 1 2)).
Proof.
  apply (String_remove (plain_store ["héllo"; "world"; "abc"]) (mkLoc 2 0) (mkLoc 1 2)
           (plain_line "héllo") (plain_line "abc"));
    [reflexivity | reflexivity | reflexivity | left; vm_compute; reflexivity].
Defined.

Lemma Substr_Start_End_witness :
  LineArray.Substr (plain_store ["héllo"; "world"]) (mkLoc 0 0) (mkLoc 5 1) =
  Some (LineArray.String (plain_store ["héllo"; "world"])).
Proof.
  apply (Substr_Start_End (mkBuffer (plain_store ["héllo"; "world"]) false 2 ∅ "")
           (mkLoc 5 1)); reflexivity.
Defined.

Lemma remove_Start_End_witness :
  ∃ la',
    LineArray.remove (plain_store ["héllo"; "world"]) (mkLoc 0 0) (mkLoc 5 1) =
      Some (la', LineArray.String (plain_store ["héllo"; "world"])) ∧
    data <$> lines la' = [[]].
Proof.
  apply (remove_Start_End (mkBuffer (plain_store ["héllo"; "world"]) false 2 ∅ "")
           (mkLoc 5 1)); reflexivity.
Defined.

(** ** Line feeds and decoding *)

Ltac orb_cases :=
  repeat match goal with
  | H : (_ || _) = true |- _ => apply orb_true_iff in H; destruct H as [H|H]
  | H : (_ || _) = false |- _ => apply orb_false_iff in H; destruct H as [? H]
  | H : (_ <? _) = true |- _ => apply Z.ltb_lt in H
  | H : (_ <? _) = false |- _ => apply Z.ltb_ge in H
  | H : (_ <=? _) = true |- _ => apply Z.leb_le in H
  | H : (_ <=? _) = false |- _ => apply Z.leb_gt in H
  end.

Lemma DecodeRune_LF (p r : list byte) :
  p ≠ [] → utf8.DecodeRune (p ++ LF :: r) = utf8.DecodeRune p.
Proof.
  destruct p as [|p0 [|b1 [|b2 [|b3 t3]]]]; [done|..]; intros _; cbn [app].
  all: by_first p0; change (utf8.bv LF) with 10;
       unfold utf8.locb, utf8.hicb; utf8_cases; try done.
  all: exfalso; orb_cases; unfold len in *; simpl length in *; try lia.
Qed.

Lemma drop_app_width (p q : list byte) (w : nat) :
  (w ≤ length p)%nat → drop w (p ++ q) = drop w p ++ q.
Proof. intros. by apply drop_app_le. Qed.

Lemma RuneCount_LF (p r : list byte) :
  utf8.RuneCount (p ++ LF :: r) = utf8.RuneCount p + 1 + utf8.RuneCount r.
Proof.
  enough (∀ n p, (length p ≤ n)%nat →
    utf8.RuneCount (p ++ LF :: r) = utf8.RuneCount p + 1 + utf8.RuneCount r) by eauto.
  clear p. induction n as [|n IH]; intros p Hn.
  - destruct p; [|simpl in Hn; lia]. cbn [app].
    rewrite RuneCount_cons by done. rewrite RuneCount_nil. done.
  - destruct p as [|b p].
    + cbn [app]. rewrite RuneCount_cons by done. rewrite RuneCount_nil. done.
    + rewrite (RuneCount_cons ((b :: p) ++ LF :: r)) by done.
      rewrite (RuneCount_cons (b :: p)) by done.
      rewrite DecodeRune_LF by done.
      pose proof (width_bounds (b :: p) ltac:(done)) as [Hw Hl]. unfold len in Hl.
      rewrite drop_app_width by lia.
      rewrite IH; [lia|]. rewrite length_drop. simpl length in *. lia.
Qed.

Section length_in_runes.
Context {State LineMatch : Type}.
Abbreviation Line := (Line State LineMatch).

Lemma Len_loop_sum (ls : list Line) (n : Z) :
  Buffer.Len_loop ls n = n + Buffer.Len_loop ls 0.
Proof.
  revert n. induction ls as [|l ls IH]; intros n; cbn [Buffer.Len_loop]; [lia|].
  rewrite (IH (n + _)), (IH (0 + _)). lia.
Qed.

Lemma RuneCount_join (ls : list Line) :
  utf8.RuneCount (join_with [LF] (data <$> ls)) =
  Buffer.Len_loop ls 0 + (if 1 <? len ls then len ls - 1 else 0).
Proof.
  induction ls as [|l ls IH]; [done|].
  rewrite fmap_cons. destruct ls as [|l' ls].
  - cbn [fmap list_fmap join_with Buffer.Len_loop]. change (1 <? len [l]) with false. cbv iota. lia.
  - rewrite join_with_cons_ne by done. cbn [app].
    rewrite RuneCount_LF, IH.
    cbn [Buffer.Len_loop]. rewrite (Len_loop_sum ls (0 + _ + _)), (Len_loop_sum ls (0 + _)).
    destruct (Z.ltb_spec 1 (len (l' :: ls))) as [H1|H1];
      destruct (Z.ltb_spec 1 (len (l :: l' :: ls))) as [H2|H2];
      unfold len in *; simpl length in *; lia.
Qed.

(** X16.  [Len], which adds up the runes of the lines and the line
    feeds between them, is the number of runes of the text of the
    buffer as [String] returns it, whatever bytes the lines hold. *)
Theorem Len_String (b : Buffer State LineMatch) :
  Buffer.Len b = utf8.RuneCount (LineArray.String (lineArray b)).
Proof.
  unfold Buffer.Len, Buffer.blines. rewrite String_join, RuneCount_join.
  destruct (1 <? len (lines (lineArray b))); lia.
Qed.

End length_in_runes.

(** ** Well-formed UTF-8 *)

Lemma well_formed_loop_fuel (f1 f2 : nat) (p : list byte) :
  (length p ≤ f1)%nat → (length p ≤ f2)%nat →
  well_formed_loop f1 p = well_formed_loop f2 p.
Proof.
  revert f2 p. induction f1 as [|f1 IH]; intros f2 p H1 H2.
  - destruct p; [|simpl in H1; lia]. by destruct f2.
  - destruct f2 as [|f2]; [destruct p; [done|simpl in H2; lia]|].
    destruct p as [|b p]; [done|]. cbn [well_formed_loop]. f_equal.
    pose proof (width_bounds (b :: p) ltac:(done)) as [Hw _].
    unfold slice_from. apply IH; rewrite length_drop; simpl length in *; lia.
Qed.

Lemma well_formed_cons (p : list byte) :
  p ≠ [] →
  well_formed p =
  negb (bool_decide (utf8.DecodeRune p = (utf8.RuneError, 1))) &&
  well_formed (drop (Z.to_nat (width p)) p).
Proof.
  intros Hp. unfold well_formed. destruct p as [|b p]; [done|].
  cbn [length well_formed_loop]. f_equal. unfold slice_from.
  pose proof (width_bounds (b :: p) ltac:(done)) as [Hw _].
  apply well_formed_loop_fuel; rewrite ?length_drop; simpl length in *; lia.
Qed.

Lemma well_formed_cons_inv (p : list byte) :
  p ≠ [] → well_formed p = true →
  utf8.DecodeRune p ≠ (utf8.RuneError, 1) ∧
  well_formed (drop (Z.to_nat (width p)) p) = true.
Proof.
  intros Hp H. rewrite well_formed_cons in H by done.
  apply andb_true_iff in H as [H1 H2]. split; [|done].
  apply negb_true_iff in H1. by apply bool_decide_eq_false in H1.
Qed.

(** A rune that decodes without error is decoded from its own bytes
    alone: bytes put behind the input do not change it. *)
Lemma DecodeRune_app (p q : list byte) :
  p ≠ [] → utf8.DecodeRune p ≠ (utf8.RuneError, 1) →
  utf8.DecodeRune (p ++ q) = utf8.DecodeRune p.
Proof.
  destruct p as [|p0 [|b1 [|b2 [|b3 t3]]]]; [done|..]; intros _; cbn [app].
  all: by_first p0; utf8_cases; try done.
  all: intros _; exfalso; orb_cases; unfold len in *; simpl length in *; try lia.
Qed.

Lemma strong_list_ind (P : list byte → Prop) :
  (∀ p, (∀ q, (length q < length p)%nat → P q) → P p) → ∀ p, P p.
Proof.
  intros H p. enough (∀ n q, (length q < n)%nat → P q) as Hn by (apply (Hn (S (length p))); lia).
  induction n as [|n IH]; intros q Hq; [lia|]. apply H. intros q' Hq'. apply IH. lia.
Qed.

Lemma length_drop_width (p : list byte) :
  p ≠ [] → (length (drop (Z.to_nat (width p)) p) < length p)%nat.
Proof.
  intros Hp. pose proof (width_bounds p Hp) as [Hw Hl]. unfold len in Hl.
  rewrite length_drop. destruct p; [done|]. simpl length in *. lia.
Qed.

Lemma RuneCount_app (p q : list byte) :
  well_formed p = true → utf8.RuneCount (p ++ q) = utf8.RuneCount p + utf8.RuneCount q.
Proof.
  induction p as [p IH] using strong_list_ind. intros Hwf.
  destruct (decide (p = [])) as [->|Hp]; [rewrite RuneCount_nil; cbn [app]; lia|].
  destruct (well_formed_cons_inv p Hp Hwf) as [Hd Hwf'].
  assert (p ++ q ≠ []) as Hpq by (by destruct p).
  rewrite (RuneCount_cons (p ++ q)), (RuneCount_cons p) by done.
  rewrite DecodeRune_app by done.
  pose proof (width_bounds p Hp) as [Hw Hl]. unfold len in Hl.
  rewrite drop_app_width by lia.
  rewrite IH; [lia| by apply length_drop_width |done].
Qed.

Lemma offset_app (p q : list byte) :
  well_formed p = true → offset (Z.to_nat (utf8.RuneCount p)) (p ++ q) = length p.
Proof.
  induction p as [p IH] using strong_list_ind. intros Hwf.
  destruct (decide (p = [])) as [->|Hp]; [done|].
  destruct (well_formed_cons_inv p Hp Hwf) as [Hd Hwf'].
  rewrite (RuneCount_cons p) by done.
  pose proof (RuneCount_bounds (drop (Z.to_nat (width p)) p)) as [Hr _].
  replace (Z.to_nat (1 + utf8.RuneCount (drop (Z.to_nat (width p)) p)))
    with (S (Z.to_nat (utf8.RuneCount (drop (Z.to_nat (width p)) p)))) by lia.
  destruct (p ++ q) as [|c pq] eqn:Epq; [by destruct p|].
  cbn [offset]. rewrite <- Epq. rewrite DecodeRune_app by done.
  pose proof (width_bounds p Hp) as [Hw Hl]. unfold len in Hl.
  rewrite drop_app_width by lia.
  rewrite IH; [|by apply length_drop_width|done].
  rewrite length_drop. lia.
Qed.

Lemma runeToByteIndex_app (p q : list byte) :
  well_formed p = true → runeToByteIndex (utf8.RuneCount p) (p ++ q) = len p.
Proof.
  intros Hwf. pose proof (RuneCount_bounds p).
  rewrite runeToByteIndex_offset by lia. by rewrite offset_app.
Qed.

Lemma well_formed_app (p q : list byte) :
  well_formed p = true → well_formed q = true → well_formed (p ++ q) = true.
Proof.
  induction p as [p IH] using strong_list_ind. intros Hwf Hq.
  destruct (decide (p = [])) as [->|Hp]; [done|].
  destruct (well_formed_cons_inv p Hp Hwf) as [Hd Hwf'].
  assert (p ++ q ≠ []) as Hpq by (by destruct p).
  rewrite well_formed_cons by done. rewrite DecodeRune_app by done.
  pose proof (width_bounds p Hp) as [Hw Hl]. unfold len in Hl.
  rewrite drop_app_width by lia.
  rewrite IH; [|by apply length_drop_width|done|done].
  rewrite andb_true_r. apply negb_true_iff. by apply bool_decide_eq_false.
Qed.

Lemma well_formed_LF (p r : list byte) :
  well_formed (p ++ LF :: r) = well_formed p && well_formed r.
Proof.
  induction p as [p IH] using strong_list_ind.
  destruct (decide (p = [])) as [->|Hp].
  - cbn [app]. rewrite well_formed_cons by done. done.
  - assert (p ++ LF :: r ≠ []) as Hpq by (by destruct p).
    rewrite (well_formed_cons (p ++ LF :: r)), (well_formed_cons p) by done.
    rewrite DecodeRune_LF by done.
    pose proof (width_bounds p Hp) as [Hw Hl]. unfold len in Hl.
    rewrite drop_app_width by lia.
    rewrite IH by (by apply length_drop_width). by rewrite andb_assoc.
Qed.

Lemma split_lf_first (v : list byte) :
  ∃ s0, (LF ∉ s0) ∧
    ((v = s0 ∧ split_lf v = [s0]) ∨
     ∃ v', v = s0 ++ LF :: v' ∧ split_lf v = s0 :: split_lf v').
Proof.
  induction v as [|b v IH].
  - exists []. split; [apply not_elem_of_nil|]. by left.
  - destruct (decide (b = LF)) as [->|Hb].
    + exists []. split; [apply not_elem_of_nil|]. right. by exists v.
    + destruct IH as (s0 & Hs0 & [[-> Hs]|(v' & -> & Hs)]).
      * exists (b :: s0). split; [by apply not_elem_of_cons|]. left. split; [done|].
        by rewrite split_lf_cons, Hs.
      * exists (b :: s0). split; [by apply not_elem_of_cons|]. right. exists v'. split; [done|].
        by rewrite split_lf_cons, Hs.
Qed.

Lemma well_formed_split_lf (v : list byte) :
  well_formed v = true → Forall (λ s, well_formed s = true) (split_lf v).
Proof.
  induction v as [v IH] using strong_list_ind. intros Hwf.
  destruct (split_lf_first v) as (s0 & Hs0 & [[-> Hs]|(v' & -> & Hs)]).
  - rewrite Hs. by apply Forall_singleton.
  - rewrite Hs. rewrite well_formed_LF in Hwf. apply andb_true_iff in Hwf as [H1 H2].
    apply Forall_cons. split; [done|]. apply IH; [|done].
    rewrite length_app. simpl. lia.
Qed.

(** ** Undoing an edit *)

Lemma split_lf_last (v r : list byte) :
  LF ∉ r →
  ∃ init lst,
    split_lf v = init ++ [lst] ∧ split_lf (v ++ r) = init ++ [lst ++ r].
Proof.
  intros Hr. induction v as [v IH] using strong_list_ind.
  destruct (split_lf_first v) as (s0 & Hs0 & [[-> Hs]|(v' & -> & Hs)]).
  - exists [], s0. split; [done|]. cbn [app]. apply split_lf_nolf.
    intros [H|H]%elem_of_app; done.
  - assert (length v' < length (s0 ++ LF :: v'))%nat as Hlt by (rewrite length_app; simpl; lia).
    destruct (IH v' Hlt) as (init & lst & H1 & H2).
    exists (s0 :: init), lst. split; [by rewrite Hs, H1|].
    rewrite <- app_assoc. cbn [app].
    rewrite split_lf_app_nolf, split_lf_LF, H2 by done. cbn [glue]. by rewrite app_nil_r.
Qed.

Lemma join_with_snoc (init : list (list byte)) (lst : list byte) :
  join_with [LF] (init ++ [lst]) = mjoin ((λ s, s ++ [LF]) <$> init) ++ lst.
Proof.
  induction init as [|s init IH]; [done|].
  cbn [app]. rewrite join_with_cons_ne by (by destruct init).
  rewrite IH. cbn. by rewrite <- !app_assoc.
Qed.

Lemma split_join_lf (segs : list (list byte)) :
  segs ≠ [] → Forall (λ s, LF ∉ s) segs → split_lf (join_with [LF] segs) = segs.
Proof.
  induction segs as [|s segs IH]; [done|]. intros _ Hall.
  apply Forall_cons in Hall as [Hs Hall].
  destruct segs as [|s' segs].
  - cbn. by apply split_lf_nolf.
  - rewrite join_with_cons_ne by done. cbn [app].
    rewrite split_lf_app_nolf, split_lf_LF by done. rewrite IH by done.
    cbn [glue]. by rewrite app_nil_r.
Qed.

Lemma index_mid2 {A} (k1 : list A) (a : A) (mid : list A) (b : A) (k2 : list A) :
  index (k1 ++ a :: mid ++ b :: k2) (len k1 + 1 + len mid) = Some b.
Proof.
  rewrite (mid_next k1 a), app_assoc.
  replace (len k1 + 1 + len mid) with (len ((k1 ++ [a]) ++ mid))
    by (rewrite !len_app; unfold len; simpl; lia).
  apply index_mid.
Qed.

Lemma slice_from_mid2 {A} (k1 : list A) (a : A) (mid : list A) (b : A) (k2 : list A) :
  slice_from (k1 ++ a :: mid ++ b :: k2) (len k1 + 1 + len mid + 1) = k2.
Proof.
  rewrite (mid_next k1 a), app_assoc.
  replace (len k1 + 1 + len mid) with (len ((k1 ++ [a]) ++ mid))
    by (rewrite !len_app; unfold len; simpl; lia).
  apply slice_from_next.
Qed.

Lemma len_fmap {A B} (f : A → B) (l : list A) : len (f <$> l) = len l.
Proof. unfold len. by rewrite length_fmap. Qed.

Lemma slice_from_app_eq {A} (k1 k2 : list A) (o : Z) :
  o = len k1 → slice_from (k1 ++ k2) o = k2.
Proof. intros ->. apply slice_from_app_len. Qed.

Lemma slice_to_app_eq {A} (k1 k2 : list A) (o : Z) :
  o = len k1 → slice_to (k1 ++ k2) o = k1.
Proof. intros ->. apply slice_to_app_len. Qed.

Section undo.
Context {State LineMatch : Type}.
Abbreviation Line := (Line State LineMatch).
Abbreviation LineArray := (LineArray State LineMatch).
Implicit Types (la : LineArray) (ls pre post mid : list Line) (ln : Line).

(** X17.  Taking out again what [insert] has put in restores the bytes
    of every line: after [insert] of a well-formed value at a column of
    the line, [remove] from that location to the location behind the
    value returns the value and leaves the lines with the bytes they
    had. *)
Theorem insert_then_remove la (pos : Loc) (value : list byte) ln :
  no_lf la = true →
  index (lines la) (Y pos) = Some ln →
  0 <= X pos <= utf8.RuneCount (data ln) →
  well_formed (slice_to (data ln) (runeToByteIndex (X pos) (data ln))) = true →
  well_formed value = true →
  ∃ la1 la2,
    LineArray.insert la pos value = Some la1 ∧
    LineArray.remove la1 pos (after_text pos value) = Some (la2, value) ∧
    data <$> lines la2 = data <$> lines la.
Proof.
  intros Hlf E HX Hwp Hwv.
  destruct (insert_lines la pos value ln Hlf E) as (la1 & Hi & Hd & _).
  pose proof (insert_no_lf la pos value la1 Hlf Hi) as Hlf1.
  exists la1.
  pose proof (no_lf_index la (Y pos) ln Hlf E) as Hln.
  destruct (index_split _ _ _ E) as (pre & post & Hl & Hy).
  destruct pos as [px py]. cbn [X Y] in *. subst py.
  rewrite Hl in Hd |- *. rewrite slice_to_mid, slice_from_next in Hd.
  set (x := runeToByteIndex px (data ln)) in *.
  pose proof (runeToByteIndex_bounds px (data ln)) as Hx. fold x in Hx.
  assert (utf8.RuneCount (slice_to (data ln) x) = px) as Hrc.
  { unfold x, slice_to. rewrite runeToByteIndex_offset by lia.
    rewrite Nat2Z.id. rewrite RuneCount_take_offset by lia. lia. }
  assert (len (slice_to (data ln) x) = x) as Hlx by (by apply len_slice_to).
  destruct (split_lf_last value (slice_from (data ln) x)) as (init & lst & Hs & Hs').
  { by apply not_elem_of_drop. }
  pose proof (join_split_lf value) as Hjoin. rewrite Hs in Hjoin.
  pose proof (well_formed_split_lf value Hwv) as Hwsegs. rewrite Hs in Hwsegs.
  rewrite Hs' in Hd.
  destruct la1 as [L1]. cbn [lines] in *.
  destruct init as [|s0 init].
  - (* the value holds no line feed *)
    cbn [app glue] in Hd, Hjoin. cbn [join_with] in Hjoin. subst lst.
    apply fmap_app_inv in Hd as (pre1 & rest & Hpre & Hrest & ->).
    symmetry in Hrest. apply fmap_cons_inv in Hrest as (a & post1 & Ha & Hpost & ->).
    assert (len pre = len pre1) as Hlen by (rewrite <- (len_fmap data pre), Hpre; apply len_fmap).
    assert (after_text (mkLoc px (len pre)) value = mkLoc (px + utf8.RuneCount value) (len pre1))
      as ->.
    { unfold after_text. rewrite Hs. cbn [X Y]. by rewrite Hlen. }
    rewrite Hlen in Hi |- *.
    destruct (remove_closed_form (mkLineArray (pre1 ++ a :: post1))
                (mkLoc px (len pre1)) (mkLoc (px + utf8.RuneCount value) (len pre1)) a a)
      as (la2 & sub & Hr & _ & Hsame & _); cbn [X Y lines]; try apply index_mid; try done.
    { right. pose proof (RuneCount_bounds value). lia. }
    destruct (Hsame eq_refl) as (Hsub & Hla2). clear Hsame.
    cbn [X Y] in Hsub, Hla2.
    assert (runeToByteIndex px (data a) = x) as Hsx.
    { rewrite <- Ha, <- Hrc at 1. rewrite runeToByteIndex_app by done. done. }
    assert (runeToByteIndex (px + utf8.RuneCount value) (data a) = x + len value) as Hex.
    { rewrite <- Ha. rewrite app_assoc.
      rewrite <- Hrc at 1. rewrite <- RuneCount_app by done.
      rewrite runeToByteIndex_app by (by apply well_formed_app).
      rewrite len_app. lia. }
    rewrite Hsx, Hex in Hsub, Hla2.
    destruct (cut_text (slice_to (data ln) x) value (slice_from (data ln) x)
                x (x + len value)) as [Hc1 Hc2]; [done|lia|].
    rewrite Ha in Hc1, Hc2.
    assert (sub = value) as -> by (by rewrite Hsub).
    exists la2. split; [done|]. split; [done|].
    rewrite Hla2, set_line_mid. cbn [lines].
    rewrite !fmap_app, !fmap_cons. cbn [data LineArray.set_data].
    rewrite <- Hpre, <- Hpost. do 2 f_equal.
    rewrite Hc2. apply slice_to_from.
  - (* the value holds line feeds *)
    cbn [app glue] in Hd.
    apply fmap_app_inv in Hd as (pre1 & rest & Hpre & Hrest & ->).
    symmetry in Hrest. apply fmap_cons_inv in Hrest as (a & rest1 & Ha & Hrest & ->).
    rewrite <- app_assoc in Hrest.
    symmetry in Hrest. apply fmap_app_inv in Hrest as (mid1 & rest2 & Hmid & Hrest & ->).
    cbn [app] in Hrest.
    symmetry in Hrest. apply fmap_cons_inv in Hrest as (b & post1 & Hb & Hpost & ->).
    assert (len pre = len pre1) as Hlen by (rewrite <- (len_fmap data pre), Hpre; apply len_fmap).
    assert (len init = len mid1) as Hlenm by (rewrite Hmid; apply len_fmap).
    assert (after_text (mkLoc px (len pre)) value =
            mkLoc (utf8.RuneCount lst) (len pre1 + 1 + len mid1)) as ->.
    { unfold after_text. rewrite Hs. cbn [X Y].
      assert ((len ((s0 :: init) ++ [lst]) =? 1) = false) as ->.
      { apply Z.eqb_neq. rewrite len_app. unfold len. simpl length. lia. }
      rewrite last_last. f_equal. rewrite len_app. unfold len in *. simpl length. lia. }
    rewrite Hlen in Hi |- *.
    destruct (remove_closed_form (mkLineArray (pre1 ++ a :: mid1 ++ b :: post1))
                (mkLoc px (len pre1)) (mkLoc (utf8.RuneCount lst) (len pre1 + 1 + len mid1)) a b)
      as (la2 & sub & Hr & _ & _ & Hless); cbn [X Y lines];
      try apply index_mid; try apply index_mid2; try done.
    { left. pose proof (len_nonneg mid1). lia. }
    destruct (Hless ltac:(cbn [X Y]; pose proof (len_nonneg mid1); lia)) as (Hsub & Hla2 & _).
    clear Hless.
    cbn [X Y lines] in Hsub, Hla2.
    rewrite between_mid in Hsub. rewrite slice_to_mid, slice_from_mid2 in Hla2.
    apply Forall_cons in Hwsegs as [Hws0 Hwsegs].
    apply Forall_app in Hwsegs as [_ Hwlst]. apply Forall_inv in Hwlst.
    assert (runeToByteIndex px (data a) = x) as Hsx.
    { rewrite <- Ha, <- Hrc at 1. rewrite runeToByteIndex_app by done. done. }
    assert (runeToByteIndex (utf8.RuneCount lst) (data b) = len lst) as Hex.
    { rewrite <- Hb. by rewrite runeToByteIndex_app. }
    rewrite Hsx, Hex in Hsub, Hla2.
    assert (sub = value) as ->.
    { rewrite Hsub, <- Hjoin, <- Ha, <- Hb.
      rewrite slice_from_app_eq, slice_to_app_len by done.
      cbn [app]. rewrite join_with_cons_ne by (by destruct init).
      rewrite join_with_snoc, Hmid, <- list_fmap_compose. done. }
    exists la2. split; [done|]. split; [done|].
    rewrite Hla2. rewrite !fmap_app, !fmap_cons. cbn [data LineArray.set_data].
    rewrite <- Hpre, <- Hpost. do 2 f_equal.
    rewrite <- Ha, <- Hb.
    rewrite slice_to_app_eq, slice_from_app_len by done.
    apply slice_to_from.
Qed.

(** X18.  Putting back what [remove] has taken out restores the bytes
    of every line: after [remove] between two locations, [insert] of
    the returned text at the first location gives the lines the bytes
    they had. *)
Theorem remove_then_insert la (start end_ : Loc) a b :
  no_lf la = true →
  index (lines la) (Y start) = Some a →
  index (lines la) (Y end_) = Some b →
  Y start < Y end_ ∨ (Y start = Y end_ ∧ X start <= X end_) →
  0 <= X start <= utf8.RuneCount (data a) →
  well_formed (slice_to (data a) (runeToByteIndex (X start) (data a))) = true →
  ∃ la1 sub la2,
    LineArray.remove la start end_ = Some (la1, sub) ∧
    LineArray.insert la1 start sub = Some la2 ∧
    data <$> lines la2 = data <$> lines la.
Proof.
  intros Hlf Ea Eb Hord HX Hwp.
  destruct (remove_closed_form la start end_ a b Hlf Ea Eb ltac:(lia))
    as (la1 & sub & Hr & _ & Hsame & Hless).
  pose proof (remove_keeps_no_lf la start end_ la1 sub Hlf Hr) as Hlf1.
  exists la1, sub.
  pose proof (no_lf_index la _ a Hlf Ea) as Hna.
  pose proof (no_lf_index la _ b Hlf Eb) as Hnb.
  pose proof (runeToByteIndex_bounds (X start) (data a)) as Hsx.
  pose proof (runeToByteIndex_bounds (X end_) (data b)) as Hex.
  destruct start as [sx sy], end_ as [ex ey]. cbn [X Y] in *.
  set (x1 := runeToByteIndex sx (data a)) in *.
  set (x2 := runeToByteIndex ex (data b)) in *.
  assert (utf8.RuneCount (slice_to (data a) x1) = sx) as Hrc.
  { unfold x1, slice_to. rewrite runeToByteIndex_offset by lia.
    rewrite Nat2Z.id. rewrite RuneCount_take_offset by lia. lia. }
  assert (len (slice_to (data a) x1) = x1) as Hlx by (by apply len_slice_to).
  assert (∀ q, runeToByteIndex sx (slice_to (data a) x1 ++ q) = x1) as Hback.
  { intros q. rewrite <- Hrc at 1. by rewrite runeToByteIndex_app. }
  destruct Hord as [Hlt|[-> Hxs]].
  - clear Hsame. destruct (Hless Hlt) as (Hsub & Hl1 & _). clear Hless.
    destruct (index_split2 _ _ _ _ _ Ea Eb Hlt) as (pre & mid & post & Hl & -> & ->).
    rewrite Hl in Hl1, Hsub |- *. rewrite between_mid in Hsub.
    rewrite slice_to_mid, slice_from_mid2 in Hl1.
    destruct la1 as [L1]. cbn [lines] in *. subst L1.
    destruct (insert_lines (mkLineArray (pre ++ _ :: post)) (mkLoc sx (len pre)) sub _
                Hlf1 (index_mid _ _ _)) as (la2 & Hi & Hd & _).
    exists la2. split; [done|]. split; [done|].
    rewrite Hd. cbn [X Y lines data LineArray.set_data].
    rewrite slice_to_mid, slice_from_next, Hback.
    rewrite slice_to_app_eq, slice_from_app_eq by done.
    assert (sub ++ slice_from (data b) x2 =
            join_with [LF] (slice_from (data a) x1 :: (data <$> mid) ++ [data b])) as ->.
    { rewrite Hsub. rewrite join_with_cons_ne by (by destruct (data <$> mid)).
      rewrite join_with_snoc, <- list_fmap_compose.
      rewrite <- !app_assoc. cbn [app]. do 3 f_equal. apply slice_to_from. }
    rewrite split_join_lf.
    + cbn [glue]. rewrite slice_to_from.
      rewrite !fmap_app, !fmap_cons, fmap_app. cbn [fmap list_fmap].
      cbn [app]. by rewrite <- app_assoc.
    + done.
    + apply no_lf_data in Hlf. rewrite Hl in Hlf.
      rewrite !fmap_app, !fmap_cons, fmap_app, !fmap_cons in Hlf.
      apply Forall_app in Hlf as [_ Hlf]. apply Forall_cons in Hlf as [_ Hlf].
      apply Forall_app in Hlf as [Hmid Hlf].
      apply Forall_cons. split; [by apply not_elem_of_drop|].
      apply Forall_app. split; [done|]. by apply Forall_singleton.
  - clear Hless. destruct (Hsame eq_refl) as (Hsub & Hl1). clear Hsame.
    assert (a = b) as <- by congruence. fold x2 in Hex.
    assert (x1 <= x2) as Hmono.
    { unfold x1, x2. destruct (decide (ex < 0)).
      - rewrite (runeToByteIndex_neg ex) by done. apply runeToByteIndex_bounds.
      - apply runeToByteIndex_mono. lia. }
    destruct (index_split _ _ _ Ea) as (pre & post & Hl & ->).
    rewrite Hl in *.
    destruct la as [L0]. cbn [lines] in Hl. subst L0.
    rewrite set_line_mid in Hl1. subst la1.
    destruct (insert_lines (mkLineArray (pre ++ _ :: post)) (mkLoc sx (len pre)) sub _
                Hlf1 (index_mid _ _ _)) as (la2 & Hi & Hd & _).
    exists la2. split; [done|]. split; [done|].
    rewrite Hd. cbn [X Y lines data LineArray.set_data].
    rewrite slice_to_mid, slice_from_next, Hback.
    rewrite slice_to_app_eq, slice_from_app_eq by done.
    assert (data a = slice_to (data a) x1 ++ sub ++ slice_from (data a) x2) as Hda.
    { rewrite Hsub.
      rewrite <- (slice_to_from (data a) x2) at 1.
      rewrite <- (slice_to_from (slice_to (data a) x2) x1) at 1.
      rewrite <- app_assoc. f_equal. unfold slice_to. rewrite take_take. f_equal. lia. }
    rewrite split_lf_nolf.
    + cbn [glue]. rewrite <- Hda. by rewrite fmap_app, fmap_cons.
    + intros Hin. apply Hna. rewrite Hda. apply elem_of_app. by right.
Qed.

End undo.

Lemma insert_then_remove_witness :
  ∃ la1 la2,
    LineArray.insert (plain_store ["héllo"; "world"]) (mkLoc 2 0) [x58; LF; xc3; xa9] =
      Some la1 ∧
    LineArray.remove la1 (mkLoc 2 0) (after_text (mkLoc 2 0) [x58; LF; xc3; xa9]) =
      Some (la2, [x58; LF; xc3; xa9]) ∧
    data <$> lines la2 = data <$> lines (plain_store ["héllo"; "world"]).
Proof.
  apply (insert_then_remove (plain_store ["héllo"; "world"]) (mkLoc 2 0) [x58; LF; xc3; xa9]
           (plain_line "héllo") eq_refl eq_refl
           ltac:(vm_compute; split; discriminate) eq_refl eq_refl).
Defined.

Lemma remove_then_insert_witness :
  ∃ la1 sub la2,
    LineArray.remove (plain_store ["héllo"; "world"; "abc"]) (mkLoc 2 0) (mkLoc 1 2) =
      Some (la1, sub) ∧
    LineArray.insert la1 (mkLoc 2 0) sub = Some la2 ∧
    data <$> lines la2 = data <$> lines (plain_store ["héllo"; "world"; "abc"]).
Proof.
  apply (remove_then_insert (plain_store ["héllo"; "world"; "abc"]) (mkLoc 2 0) (mkLoc 1 2)
           (plain_line "héllo") (plain_line "abc") eq_refl eq_refl eq_refl
           ltac:(left; vm_compute; reflexivity)
           ltac:(vm_compute; split; discriminate) eq_refl).
Defined.

Section brace_results.
Context {State LineMatch : Type}.
Implicit Types (b : Buffer State LineMatch).

Lemma weight_open (open close : utf8.rune) : weight open close open = 1.
Proof. unfold weight. by rewrite decide_True. Qed.

Lemma weight_close (open close : utf8.rune) : open ≠ close → weight open close close = -1.
Proof. intros H. unfold weight. rewrite decide_False by done. by rewrite decide_True. Qed.

Lemma net_cons (open close : utf8.rune) (c : Loc * utf8.rune) cs :
  net open close (c :: cs) = weight open close c.2 + net open close cs.
Proof. by destruct c. Qed.

(** X19.  The brace that [FindMatchingBrace] returns is the nearest one
    that balances the brace at [start].  From an opening brace: the
    runes from [start] on up to the returned location end in a closing
    brace there and hold as many opening as closing braces, and no
    shorter run from [start] does (its opening braces are more).  From
    a closing brace the same holds backwards. *)
Theorem FindMatchingBrace_balanced b (open close : utf8.rune) (start e : Loc)
    (l : list utf8.rune) :
  NumLines b = len (lines (lineArray b)) →
  Buffer.LineRunes b (Y start) = Some l →
  Buffer.FindMatchingBrace b (open, close) start = Some e → e ≠ start →
  (index l (X start) = Some open →
     ∃ pfx sfx,
       cells_from (lines (lineArray b)) start = pfx ++ (e, close) :: sfx ∧
       net open close (pfx ++ [(e, close)]) = 0 ∧
       ∀ n, (1 ≤ n ≤ length pfx)%nat → 1 <= net open close (take n pfx)) ∧
  (index l (X start) = Some close → open ≠ close →
     ∃ pfx sfx,
       cells_back (lines (lineArray b)) start = pfx ++ (e, open) :: sfx ∧
       net open close (pfx ++ [(e, open)]) = 0 ∧
       ∀ n, (1 ≤ n ≤ length pfx)%nat → net open close (take n pfx) <= -1).
Proof.
  intros HN Hl HF Hne. split.
  - intros Hx.
    rewrite (FindMatchingBrace_forward open close b start l HN Hl Hx) in HF.
    destruct (LineRunes_Some b _ _ _ _ Hl Hx) as (ln & Hy & ->).
    destruct (cells_at _ _ _ _ Hy Hx) as (before & after & Hall & Hfrom & _).
    unfold Buffer.blines in *.
    rewrite Hfrom in HF |- *. cbn [scan_forward] in HF. rewrite decide_True in HF by done.
    destruct (scan_forward open close after (0 + 1)) as [e'|i'] eqn:Hscan;
      cbn [found_or] in HF; [|congruence].
    injection HF as ->.
    destruct (scan_forward_back open close after 1 e ltac:(lia) Hscan)
      as (pfx & r & sfx & -> & Hro & -> & Hnet & Hpos & _).
    exists ((start, open) :: pfx), sfx. split; [done|]. split.
    + cbn [app]. rewrite net_cons. cbn [snd]. rewrite weight_open, Hnet. lia.
    + intros n Hn. destruct n as [|n]; [lia|]. cbn [take length] in *.
      rewrite net_cons. cbn [snd]. rewrite weight_open.
      specialize (Hpos n ltac:(lia)).
      rewrite take_app_le in Hpos by lia. lia.
  - intros Hx Hoc.
    rewrite (FindMatchingBrace_backward open close b start l Hoc Hl Hx) in HF.
    destruct (LineRunes_Some b _ _ _ _ Hl Hx) as (ln & Hy & ->).
    destruct (cells_at _ _ _ _ Hy Hx) as (before & after & Hall & _ & Hback).
    unfold Buffer.blines in *.
    rewrite Hback in HF |- *. cbn [scan_backward] in HF.
    rewrite decide_False in HF by done. rewrite decide_True in HF by done.
    destruct (scan_backward open close (rev before) (0 + 1)) as [e'|i'] eqn:Hscan;
      cbn [found_or] in HF; [|congruence].
    injection HF as ->.
    destruct (scan_backward_forth open close (rev before) 1 e ltac:(lia) Hscan)
      as (pfx & r & sfx & Hrev & -> & Hnet & Hpos & _).
    rewrite Hrev.
    exists ((start, close) :: pfx), sfx. split; [done|]. split.
    + cbn [app]. rewrite net_cons. cbn [snd]. rewrite weight_close, Hnet by done. lia.
    + intros n Hn. destruct n as [|n]; [lia|]. cbn [take length] in *.
      rewrite net_cons. cbn [snd]. rewrite weight_close by done.
      specialize (Hpos n ltac:(lia)). rewrite Hrev in Hpos.
      rewrite take_app_le in Hpos by lia. lia.
Qed.

(** X20.  [FindMatchingBrace] returns a location exactly when [start]
    is the location of a rune of the buffer; in every other case the
    source indexes a slice out of its range. *)
Theorem FindMatchingBrace_defined b (open close : utf8.rune) (start : Loc) :
  NumLines b = len (lines (lineArray b)) →
  (is_Some (Buffer.FindMatchingBrace b (open, close) start) ↔
   ∃ ln r, index (lines (lineArray b)) (Y start) = Some ln ∧
           index (utf8.runes (data ln)) (X start) = Some r).
Proof.
  intros HN. split.
  - intros [e He]. unfold Buffer.FindMatchingBrace in He.
    destruct (Buffer.LineRunes b (Y start)) as [l|] eqn:Hl; [|done].
    cbn [mbind option_bind] in He.
    destruct (index l (X start)) as [r|] eqn:Hx; [|done].
    destruct (LineRunes_Some b _ _ _ _ Hl Hx) as (ln & Hy & ->).
    by exists ln, r.
  - intros (ln & r & Hy & Hx).
    pose proof (LineRunes_index b _ _ Hy) as Hl.
    destruct (decide (r = open)) as [->|Ho].
    { rewrite (FindMatchingBrace_forward open close b start _ HN Hl Hx). done. }
    destruct (decide (r = close)) as [->|Hc].
    { rewrite (FindMatchingBrace_backward open close b start _ ltac:(congruence) Hl Hx). done. }
    unfold Buffer.FindMatchingBrace. rewrite Hl. cbn [mbind option_bind].
    rewrite Hx. cbn [mbind option_bind fst snd].
    rewrite !decide_False by done. done.
Qed.

End brace_results.

Lemma FindMatchingBrace_balanced_witness :
  ∃ pfx sfx,
    cells_from (lines (lineArray braces)) (mkLoc 1 0) = pfx ++ (mkLoc 1 2, 41) :: sfx ∧
    net 40 41 (pfx ++ [(mkLoc 1 2, 41)]) = 0 ∧
    ∀ n, (1 ≤ n ≤ length pfx)%nat → 1 <= net 40 41 (take n pfx).
Proof.
  apply (proj1 (FindMatchingBrace_balanced braces 40 41 (mkLoc 1 0) (mkLoc 1 2)
                  (utf8.runes (bytes_of "a(b")) eq_refl eq_refl eq_refl
                  ltac:(discriminate)) eq_refl).
Defined.

Lemma FindMatchingBrace_defined_witness :
  is_Some (Buffer.FindMatchingBrace braces (40, 41) (mkLoc 1 0)) ↔
  ∃ ln r, index (lines (lineArray braces)) (Y (mkLoc 1 0)) = Some ln ∧
          index (utf8.runes (data ln)) (X (mkLoc 1 0)) = Some r.
Proof. apply (FindMatchingBrace_defined braces 40 41 (mkLoc 1 0) eq_refl). Defined.

(** ** Saving, hashing and the modified flag *)

Section saving.
Context {State LineMatch : Type}.
Abbreviation Line := (Line State LineMatch).
Implicit Types (b : Buffer State LineMatch) (ls : list Line).

Lemma SaveAs_loop_join (eol : list byte) ls (d0 : list byte) (file : list byte) (n : Z) :
  Buffer.SaveAs_loop eol ls (file ++ d0) (n + len d0) =
  (file ++ join_with eol (d0 :: (data <$> ls)),
   n + len (join_with eol (d0 :: (data <$> ls)))).
Proof.
  revert d0 file n. induction ls as [|l ls IH]; intros d0 file n.
  - done.
  - cbn [Buffer.SaveAs_loop]. rewrite fmap_cons.
    rewrite (join_with_cons_ne eol d0) by done.
    rewrite <- (app_assoc (file ++ d0) eol (data l)).
    rewrite <- (app_assoc file d0 (eol ++ data l)).
    replace (n + len d0 + (len eol + len (data l)))
      with ((n + len d0 + len eol) + len (data l)) by lia.
    rewrite (app_assoc file d0 (eol ++ data l)), (app_assoc (file ++ d0) eol (data l)).
    rewrite IH. rewrite <- !app_assoc. f_equal.
    rewrite !len_app. lia.
Qed.

(** X21.  [SaveAs] writes to the file exactly the bytes that [Encode]
    returns for a buffer without password (the lines joined by the line
    ending of the [fileformat] setting, nothing for a buffer without
    lines), and its count [fileSize] is the number of these bytes. *)
Theorem SaveAs_writes_Encode b encrypt (filename : list byte) :
  Password b = "" →
  Buffer.Encode encrypt b filename = Some (Buffer.SaveAs_write b).1 ∧
  (Buffer.SaveAs_write b).1 =
    join_with (if bool_decide (Settings b !! "fileformat" = Some (SString "dos"))
               then [CR; LF] else [LF]) (data <$> lines (lineArray b)) ∧
  (Buffer.SaveAs_write b).2 = len (Buffer.SaveAs_write b).1.
Proof.
  intros Hp. unfold Buffer.Encode, Buffer.SaveAs_write, Buffer.blines.
  rewrite Hp. rewrite decide_True by done.
  rewrite Encode_loop_join by lia. cbn [app].
  destruct (lines (lineArray b)) as [|l0 rest]; [done|].
  pose proof (SaveAs_loop_join
    (if bool_decide (Settings b !! "fileformat" = Some (SString "dos"))
     then [CR; LF] else [LF]) rest (data l0) [] 0) as H.
  cbn [app] in H. rewrite Z.add_0_l in H. rewrite H. cbn [fst snd].
  rewrite fmap_cons. split; [|split]; [|done|lia].
  by destruct (bool_decide _).
Qed.

Section hash.
Context {digest : Type} `{EqDecision digest}.
Variable md5sum : list byte → digest.

Lemma calcHash_loop_join ls (d0 h : list byte) :
  Buffer.calcHash_loop ls (h ++ d0) = h ++ join_with [LF] (d0 :: (data <$> ls)).
Proof.
  revert d0 h. induction ls as [|l ls IH]; intros d0 h; [done|].
  cbn [Buffer.calcHash_loop]. rewrite fmap_cons.
  rewrite (join_with_cons_ne [LF] d0) by done.
  rewrite <- (app_assoc h d0 [LF]). rewrite IH. by rewrite <- !app_assoc.
Qed.

Lemma calcHash_join b :
  Buffer.calcHash md5sum b = md5sum (LineArray.String (lineArray b)).
Proof.
  unfold Buffer.calcHash, Buffer.blines. rewrite String_join. f_equal.
  destruct (lines (lineArray b)) as [|l0 rest]; [done|].
  apply (calcHash_loop_join rest (data l0) []).
Qed.

(** X22.  [calcHash] is the digest of the text of the buffer as
    [String] returns it.  So without [fastdirty], [Modified] is false
    for every buffer whose text is the text that was hashed, whatever
    its flag [IsModified] says. *)
Theorem calcHash_String b :
  Buffer.calcHash md5sum b = md5sum (LineArray.String (lineArray b)) ∧
  ∀ b0, Settings b !! "fastdirty" = Some (SBool false) →
        LineArray.String (lineArray b) = LineArray.String (lineArray b0) →
        Buffer.Modified md5sum b (Buffer.calcHash md5sum b0) = Some false.
Proof.
  split; [apply calcHash_join|].
  intros b0 Hf Hs. unfold Buffer.Modified. rewrite Hf.
  rewrite !calcHash_join, Hs. f_equal. by apply bool_decide_eq_false; intros [].
Qed.

(** X23.  After a save, [Modified] is false: in each of its cases the
    end of [SaveAs] leaves the buffer so, with the hash of the text
    written, or with the flag cleared when [fastdirty] is on or is
    turned on for a file above the size threshold. *)
Theorem Modified_after_SaveAs b (origHash : digest) (fileSize : Z) b' (origHash' : digest) :
  Buffer.SaveAs_written md5sum b origHash fileSize = Some (b', origHash') →
  Buffer.Modified md5sum b' origHash' = Some false ∧
  lineArray b' = lineArray b ∧ IsModified b' = false.
Proof.
  unfold Buffer.SaveAs_written, Buffer.Modified. intros H.
  destruct (Settings b !! "fastdirty") as [[[|]| |]|] eqn:Hf; try done.
  - cbn [mbind option_bind] in H. injection H as <- <-.
    cbn [Settings IsModified lineArray]. by rewrite Hf.
  - destruct (Buffer.LargeFileThreshold <? fileSize).
    + cbn [mbind option_bind] in H. injection H as <- <-.
      cbn [Settings IsModified lineArray]. by rewrite lookup_insert_eq.
    + cbn [mbind option_bind] in H. injection H as <- <-.
      cbn [Settings IsModified lineArray]. rewrite Hf. split; [|done]. f_equal.
      apply bool_decide_eq_false. intros Hne. apply Hne. done.
Qed.

End hash.

(** X24.  Every edit of the buffer that returns sets the flag
    [IsModified] and brings [NumLines] up to date: it is the number of
    lines again, at least one, so that [End] is defined afterwards. *)
Theorem edits_update_the_buffer b :
  (∀ pos value b', Buffer.insert b pos value = Some b' →
     IsModified b' = true ∧ NumLines b' = Buffer.LinesNum b' ∧ 1 <= NumLines b' ∧
     is_Some (Buffer.End b')) ∧
  (∀ start end_ b' sub, Buffer.remove b start end_ = Some (b', sub) →
     IsModified b' = true ∧ NumLines b' = Buffer.LinesNum b' ∧ 1 <= NumLines b' ∧
     is_Some (Buffer.End b')) ∧
  (∀ start b', Buffer.deleteToEnd b start = Some b' →
     IsModified b' = true ∧ NumLines b' = Buffer.LinesNum b' ∧ 1 <= NumLines b' ∧
     is_Some (Buffer.End b')).
Proof.
  assert (∀ la m n s p, 1 <= len (lines la) →
    let b' := Buffer.Update (mkBuffer (State:=State) (LineMatch:=LineMatch) la m n s p) in
    NumLines b' = Buffer.LinesNum b' ∧ 1 <= NumLines b' ∧ is_Some (Buffer.End b')) as HU.
  { intros la m n s p Hla. cbn zeta. unfold Buffer.Update, Buffer.LinesNum, Buffer.End, Buffer.blines.
    cbn [lineArray NumLines]. split; [done|]. split; [done|].
    destruct (index (lines la) (len (lines la) - 1)) as [l|] eqn:E; [by eexists|].
    apply index_None in E. lia. }
  split; [|split].
  - intros pos value b' H. unfold Buffer.insert in H. cbn [lineArray IsModified] in H.
    destruct (LineArray.insert (lineArray b) pos value) as [la|] eqn:E; [|done].
    cbn [mbind option_bind] in H. injection H as <-.
    split; [done|]. apply HU.
    pose proof (insert_depth_length _ _ _ _ _ E) as Hlen.
    destruct (index (lines (lineArray b)) (Y pos)) as [ln|] eqn:Ey.
    + apply index_lt in Ey. unfold len in *. lia.
    + by rewrite insert_None in E.
  - intros start end_ b' sub H. unfold Buffer.remove in H. cbn [lineArray IsModified] in H.
    destruct (LineArray.remove (lineArray b) start end_) as [[la s]|] eqn:E; [|done].
    cbn [mbind option_bind] in H. injection H as <- <-.
    split; [done|]. apply HU. by eapply remove_length.
  - intros start b' H. unfold Buffer.deleteToEnd in H. cbn [lineArray IsModified] in H.
    destruct (LineArray.DeleteToEnd (lineArray b) start) as [la|] eqn:E; [|done].
    cbn [mbind option_bind] in H. injection H as <-.
    split; [done|]. apply HU.
    pose proof (DeleteToEnd_length _ _ _ E) as Hlen.
    unfold LineArray.DeleteToEnd in E.
    destruct (index (lines (lineArray b)) (Y start)) as [ln|] eqn:Ey; [|done].
    apply index_lt in Ey. unfold len in *. lia.
Qed.

Lemma ClearMatches_loop_spec (done_ todo : list Line) (m : bool) (n : Z)
    (s : gmap string setting) (p : string) :
  Buffer.ClearMatches_loop (length todo) (len done_)
    (mkBuffer (mkLineArray (done_ ++ todo)) m n s p) =
  Some (mkBuffer
          (mkLineArray (done_ ++ ((λ l, mkLine (data l) None None (rehighlight l)) <$> todo)))
          m n s p).
Proof.
  revert done_. induction todo as [|l todo IH]; intros done_; [done|].
  cbn [length Buffer.ClearMatches_loop lineArray IsModified NumLines Settings Password].
  unfold LineArray.SetMatch. cbn [lines]. rewrite index_mid. cbn [mbind option_bind].
  rewrite set_line_mid.
  unfold LineArray.SetState. cbn [lines]. rewrite index_mid. cbn [mbind option_bind].
  rewrite set_line_mid. cbn [data state match_ rehighlight].
  rewrite (mid_next done_ _ todo), (len_snoc done_ (mkLine (data l) None None (rehighlight l))).
  rewrite IH. rewrite fmap_cons. by rewrite <- app_assoc.
Qed.

(** X25.  [ClearMatches] always returns; it clears the highlight state
    and the match of every line and changes nothing else: the bytes of
    the lines, their rehighlight marks and the other fields of the
    buffer stay, and so does the text. *)
Theorem ClearMatches_spec b :
  ∃ b',
    Buffer.ClearMatches b = Some b' ∧
    lines (lineArray b') =
      (λ l, mkLine (data l) None None (rehighlight l)) <$> lines (lineArray b) ∧
    LineArray.String (lineArray b') = LineArray.String (lineArray b) ∧
    (IsModified b', NumLines b', Settings b', Password b') =
      (IsModified b, NumLines b, Settings b, Password b) ∧
    ∀ i, 0 <= i < len (lines (lineArray b)) →
      LineArray.State (lineArray b') i = Some None ∧
      LineArray.Match (lineArray b') i = Some None.
Proof.
  destruct b as [[ls] m n s p]. unfold Buffer.ClearMatches, Buffer.blines. cbn [lineArray lines].
  pose proof (ClearMatches_loop_spec [] ls m n s p) as H. cbn [app] in H.
  change (len []) with 0 in H. rewrite H. eexists. split; [done|].
  cbn [lineArray lines IsModified NumLines Settings Password].
  split; [done|]. split.
  { apply String_data. cbn [lines]. rewrite <- list_fmap_compose. done. }
  split; [done|].
  intros i Hi. unfold LineArray.State, LineArray.Match. cbn [lines].
  destruct (index ((λ l, mkLine (data l) None None (rehighlight l)) <$> ls) i) as [l'|] eqn:E.
  - apply index_Some in E as [_ E]. rewrite list_lookup_fmap in E.
    destruct (ls !! Z.to_nat i); [|done]. cbn in E. injection E as <-. done.
  - apply index_None in E. rewrite len_fmap in E. lia.
Qed.

End saving.

Lemma SaveAs_writes_Encode_witness :
  let b := mkBuffer (plain_store ["ab"; "c"]) false 2 {[ "fileformat" := SString "dos" ]} "" in
  Buffer.Encode (λ _ _ out, Some out) b [] = Some (Buffer.SaveAs_write b).1 ∧
  (Buffer.SaveAs_write b).1 =
    join_with (if bool_decide (Settings b !! "fileformat" = Some (SString "dos"))
               then [CR; LF] else [LF]) (data <$> lines (lineArray b)) ∧
  (Buffer.SaveAs_write b).2 = len (Buffer.SaveAs_write b).1.
Proof.
  apply (SaveAs_writes_Encode
           (mkBuffer (plain_store ["ab"; "c"]) false 2 {[ "fileformat" := SString "dos" ]} "")
           (λ _ _ out, Some out) [] ltac:(vm_compute; reflexivity)).
Defined.

Lemma calcHash_String_witness :
  Buffer.Modified (λ s, s)
    (mkBuffer (plain_store ["ab"; "c"]) true 2 {[ "fastdirty" := SBool false ]} "")
    (Buffer.calcHash (λ s, s)
       (mkBuffer (plain_store ["ab"; "c"]) false 2 ∅ "")) = Some false.
Proof.
  apply (proj2 (calcHash_String (λ s : list byte, s)
           (mkBuffer (plain_store ["ab"; "c"]) true 2 {[ "fastdirty" := SBool false ]} "")));
    reflexivity.
Defined.

Lemma Modified_after_SaveAs_witness :
  Buffer.Modified (λ s, s)
    (mkBuffer (plain_store ["ab"; "c"]) false 2 {[ "fastdirty" := SBool false ]} "")
    (bytes_of "ab" ++ LF :: bytes_of "c") = Some false.
Proof.
  apply (Modified_after_SaveAs (λ s : list byte, s)
           (mkBuffer (plain_store ["ab"; "c"]) true 2 {[ "fastdirty" := SBool false ]} "")
           [] 4).
  reflexivity.
Defined.

Lemma edits_update_the_buffer_witness :
  ∃ b', Buffer.insert (mkBuffer (plain_store ["ab"; "c"]) false 2 ∅ "") (mkLoc 1 0)
          [x58; LF] = Some b' ∧
    IsModified b' = true ∧ NumLines b' = Buffer.LinesNum b' ∧ 1 <= NumLines b' ∧
    is_Some (Buffer.End b').
Proof.
  eexists. split; [reflexivity|].
  apply (proj1 (edits_update_the_buffer (mkBuffer (plain_store ["ab"; "c"]) false 2 ∅ ""))
           (mkLoc 1 0) [x58; LF]).
  reflexivity.
Defined.

Lemma ClearMatches_spec_witness :
  ∃ b',
    Buffer.ClearMatches (mkBuffer (mkLineArray [mkLine (State:=nat) (LineMatch:=nat)
                                                   (bytes_of "ab") (Some 1%nat) (Some 2%nat) true])
                           false 1 ∅ "") = Some b' ∧
    lines (lineArray b') = [mkLine (bytes_of "ab") None None true] ∧
    LineArray.State (lineArray b') 0 = Some None ∧
    LineArray.Match (lineArray b') 0 = Some None.
Proof.
  destruct (ClearMatches_spec (mkBuffer (mkLineArray [mkLine (State:=nat) (LineMatch:=nat)
                                                   (bytes_of "ab") (Some 1%nat) (Some 2%nat) true])
                           false 1 ∅ "")) as (b' & H1 & H2 & _ & _ & H5).
  exists b'. split; [exact H1|]. split; [exact H2|].
  apply (H5 0). vm_compute. split; [discriminate|reflexivity].
Defined.

(** ** The cursor location of a new buffer *)

Section cursor_location.
Context {State LineMatch : Type}.
Variable ParseCursorLocation : list string → Loc * bool.
Variable flagStartPos : string.
Variable strings_Split : string → string → list string.
Variable Atoi : string → option Z.


End cursor_location.


(** ** Merging cursors *)


Lemma inner_length (k : nat) (j i : Z) (c1 : Cursor) (cs : list (option Cursor)) :
  length (Buffer.MergeCursors_inner k j i c1 cs) = length cs.
Proof.
  revert j cs. induction k as [|k IH]; intros j cs; [done|].
  cbn [Buffer.MergeCursors_inner]. rewrite IH.
  destruct (index cs j) as [[c2|]|]; try done.
  destruct (decide _); [|done]. apply length_insert.
Qed.










(** ** Moving lines *)

Ltac list_norm :=
  repeat first [rewrite fmap_app | rewrite fmap_cons | rewrite fmap_nil
               | rewrite <- app_assoc | rewrite app_nil_r];
  cbn [app].


Section moving.
Context {State LineMatch : Type}.
Abbreviation Line := (Line State LineMatch).
Abbreviation LineArray := (LineArray State LineMatch).
Implicit Types (la : LineArray) (ls pre post mid A M C : list Line) (ln u d : Line).

Lemma no_lf_mid pre ln post :
  no_lf (mkLineArray (pre ++ ln :: post)) = true → LF ∉ data ln.
Proof.
  intros H. apply (no_lf_index (mkLineArray (pre ++ ln :: post)) (len pre) ln H).
  apply index_mid.
Qed.

(** Inserting a line and a line feed at the start of line [y] puts the
    line in front of line [y]. *)
Lemma insert_line_before pre ln post (v : list byte) :
  no_lf (mkLineArray (pre ++ ln :: post)) = true → LF ∉ v →
  ∃ la',
    LineArray.insert (mkLineArray (pre ++ ln :: post)) (mkLoc 0 (len pre)) (v ++ [LF]) =
      Some la' ∧
    no_lf la' = true ∧
    data <$> lines la' = (data <$> pre) ++ v :: data ln :: (data <$> post).
Proof.
  intros Hlf Hv.
  destruct (insert_lines _ (mkLoc 0 (len pre)) (v ++ [LF]) ln Hlf (index_mid _ _ _))
    as (la' & Hi & Hd & _).
  exists la'. split; [done|]. split; [by eapply insert_no_lf|].
  rewrite Hd. cbn [X Y lines]. rewrite slice_to_mid, slice_from_next.
  change (runeToByteIndex 0 (data ln)) with 0.
  change (slice_to (data ln) 0) with (@nil byte).
  change (slice_from (data ln) 0) with (data ln).
  rewrite <- app_assoc. cbn [app].
  rewrite split_lf_app_nolf, split_lf_LF by done.
  rewrite split_lf_nolf by (by eapply no_lf_mid).
  cbn [glue app]. by rewrite app_nil_r.
Qed.

(** Inserting a line feed and a line at the end of the last line puts
    the line behind the last line. *)
Lemma insert_line_behind_last pre ln (v : list byte) :
  no_lf (mkLineArray (pre ++ [ln])) = true → LF ∉ v →
  ∃ la',
    LineArray.insert (mkLineArray (pre ++ [ln])) (mkLoc (utf8.RuneCount (data ln)) (len pre))
      ([LF] ++ v) = Some la' ∧
    no_lf la' = true ∧
    data <$> lines la' = (data <$> pre) ++ [data ln; v].
Proof.
  intros Hlf Hv.
  destruct (insert_lines _ (mkLoc (utf8.RuneCount (data ln)) (len pre)) ([LF] ++ v) ln Hlf
              (index_mid _ _ _)) as (la' & Hi & Hd & _).
  exists la'. split; [done|]. split; [by eapply insert_no_lf|].
  rewrite Hd. cbn [X Y lines]. rewrite slice_to_mid, slice_from_next.
  rewrite runeToByteIndex_all by lia.
  rewrite slice_to_len, slice_from_len. cbn [app]. rewrite !app_nil_r.
  rewrite split_lf_LF, split_lf_nolf by done.
  cbn [glue fmap list_fmap]. by rewrite app_nil_r.
Qed.

(** Removing from the start of line [y] to the start of line [y + 1]
    takes line [y] out. *)
Lemma remove_line la (dA : list (list byte)) (d0 d1 : list byte) (rest : list (list byte)) :
  no_lf la = true →
  data <$> lines la = dA ++ d0 :: d1 :: rest →
  ∃ la' sub,
    LineArray.remove la (mkLoc 0 (len dA)) (mkLoc 0 (len dA + 1)) = Some (la', sub) ∧
    data <$> lines la' = dA ++ d1 :: rest.
Proof.
  intros Hlf Hd. destruct la as [L]. cbn [lines] in Hd.
  apply fmap_app_inv in Hd as (A1 & R1 & -> & HR & ->).
  symmetry in HR. apply fmap_cons_inv in HR as (a & R2 & -> & HR & ->).
  symmetry in HR. apply fmap_cons_inv in HR as (b & R3 & -> & -> & ->).
  rewrite len_fmap.
  destruct (remove_closed_form (mkLineArray (A1 ++ a :: b :: R3))
              (mkLoc 0 (len A1)) (mkLoc 0 (len A1 + 1)) a b Hlf)
    as (la' & sub & Hr & _ & _ & Hless); cbn [X Y lines];
    try apply index_mid; try apply index_mid1; try lia.
  destruct (Hless ltac:(cbn [X Y]; lia)) as (_ & Hl' & _). clear Hless.
  exists la', sub. split; [done|]. rewrite Hl'. cbn [X Y lines].
  rewrite slice_to_mid.
  replace (len A1 + 1 + 1) with (len ((A1 ++ [a]) ++ [b]))
    by (rewrite !len_app; unfold len; simpl; lia).
  rewrite (mid_next A1 a), (mid_next (A1 ++ [a]) b), slice_from_app_len.
  rewrite fmap_app, fmap_cons. done.
Qed.

Lemma Line_mid (b : Buffer State LineMatch) pre ln post :
  lines (lineArray b) = pre ++ ln :: post → Buffer.Line b (len pre) = Some (data ln).
Proof.
  intros Hl. unfold Buffer.Line, Buffer.blines. rewrite Hl.
  destruct (Z.leb_spec (len (pre ++ ln :: post)) (len pre)) as [H|H].
  { rewrite len_app in H. unfold len in H. simpl length in H. lia. }
  by rewrite index_mid.
Qed.

(** X28.  When [Insert] and [Remove] of the event handler edit the
    buffer with its own [insert] and [remove], [MoveLinesUp start end]
    moves the lines from [start] up to [end - 1] one place up and puts
    the line that was above them below them; the bytes of the other
    lines stay where they are. *)
Theorem MoveLinesUp_moves (b : Buffer State LineMatch) (start end_ : Z) A u M C :
  no_lf (lineArray b) = true →
  lines (lineArray b) = A ++ u :: M ++ C →
  start = len A + 1 → end_ = start + len M → M ≠ [] →
  ∃ b',
    Buffer.MoveLinesUp Buffer.insert (λ b s e, fst <$> Buffer.remove b s e) b start end_ =
      Some b' ∧
    data <$> lines (lineArray b') = data <$> (A ++ M ++ u :: C).
Proof.
  intros Hlf Hl -> -> HM.
  pose proof (len_nonneg A) as HA. pose proof (len_nonneg M) as HlM.
  assert (1 <= len M) as HM1 by (destruct M; [done|unfold len; simpl; lia]).
  assert (len (lines (lineArray b)) = len A + 1 + len M + len C) as Hlen.
  { rewrite Hl, !len_app. unfold len. simpl length. rewrite length_app. lia. }
  pose proof (len_nonneg C) as HC.
  unfold Buffer.MoveLinesUp, Buffer.blines.
  destruct (Z.ltb_spec (len A + 1) 1); [lia|].
  destruct (Z.leb_spec (len A + 1 + len M) (len A + 1)); [lia|].
  destruct (Z.ltb_spec (len (lines (lineArray b))) (len A + 1 + len M)); [lia|].
  cbn [orb].
  replace (len A + 1 - 1) with (len A) by lia.
  rewrite (Line_mid b A u (M ++ C) Hl).
  pose proof (no_lf_mid A u (M ++ C)) as Hu.
  destruct b as [[L] m n s p]. cbn [lineArray lines] in *. subst L.
  specialize (Hu Hlf).
  assert (∃ b1,
    (if len A + 1 + len M =? len (A ++ u :: M ++ C)
     then index (A ++ u :: M ++ C) (len A + 1 + len M - 1) ≫= λ l,
            Some (data u) ≫= λ s0,
              Buffer.insert (mkBuffer (mkLineArray (A ++ u :: M ++ C)) m n s p)
                (mkLoc (utf8.RuneCount (data l)) (len A + 1 + len M - 1)) ([LF] ++ s0)
     else Some (data u) ≫= λ s0,
            Buffer.insert (mkBuffer (mkLineArray (A ++ u :: M ++ C)) m n s p)
              (mkLoc 0 (len A + 1 + len M)) (s0 ++ [LF])) = Some b1 ∧
    no_lf (lineArray b1) = true ∧
    data <$> lines (lineArray b1) =
      (data <$> A) ++ data u :: (data <$> M) ++ data u :: (data <$> C)) as (b1 & -> & Hlf1 & Hd1).
  { destruct (Z.eqb_spec (len A + 1 + len M) (len (A ++ u :: M ++ C))) as [He|He].
    - assert (C = []) as -> by (apply len_zero_nil; lia).
      rewrite app_nil_r in *.
      destruct (exists_last HM) as (M' & z & ->).
      assert (A ++ u :: M' ++ [z] = (A ++ u :: M') ++ [z]) as Hz by (by rewrite <- app_assoc).
      rewrite Hz in *.
      replace (len A + 1 + len (M' ++ [z]) - 1) with (len (A ++ u :: M'))
        by (rewrite !len_app; unfold len; simpl length; lia).
      rewrite index_mid. cbn [mbind option_bind].
      destruct (insert_line_behind_last (A ++ u :: M') z (data u) Hlf Hu)
        as (la1 & Hi & Hlf1 & Hd).
      unfold Buffer.insert. cbn [lineArray]. rewrite Hi. cbn [mbind option_bind].
      eexists. split; [done|]. cbn [Buffer.Update lineArray]. split; [done|].
      rewrite Hd. by list_norm.
    - destruct C as [|c0 C'].
      { exfalso. apply He. rewrite app_nil_r, len_app. unfold len. simpl length. lia. }
      cbn [mbind option_bind].
      assert (A ++ u :: M ++ c0 :: C' = (A ++ u :: M) ++ c0 :: C') as Hz
        by (by rewrite <- app_assoc).
      rewrite Hz in *.
      replace (len A + 1 + len M) with (len (A ++ u :: M))
        by (rewrite !len_app; unfold len; simpl length; lia).
      destruct (insert_line_before (A ++ u :: M) c0 C' (data u) Hlf Hu)
        as (la1 & Hi & Hlf1 & Hd).
      unfold Buffer.insert. cbn [lineArray]. rewrite Hi. cbn [mbind option_bind].
      eexists. split; [done|]. cbn [Buffer.Update lineArray]. split; [done|].
      rewrite Hd. by list_norm. }
  cbn [mbind option_bind].
  destruct M as [|m0 M']; [done|].
  rewrite fmap_cons in Hd1. cbn [app] in Hd1.
  destruct (remove_line (lineArray b1) (data <$> A) (data u) (data m0)
              ((data <$> M') ++ data u :: (data <$> C)) Hlf1 Hd1) as (la2 & sub & Hr & Hd2).
  rewrite len_fmap in Hr.
  unfold Buffer.remove. cbn [lineArray]. rewrite Hr. cbn [mbind option_bind fmap option_fmap option_map].
  eexists. split; [done|]. cbn [Buffer.Update lineArray fst].
  rewrite Hd2. by list_norm.
Qed.

(** X29.  When [Insert] and [Remove] of the event handler edit the
    buffer with its own [insert] and [remove], [MoveLinesDown start
    end] puts line [end] in front of line [start]: the lines from
    [start] up to [end - 1] move one place down, the bytes of the
    other lines stay where they are. *)
Theorem MoveLinesDown_moves (b : Buffer State LineMatch) (start end_ : Z) A M d C :
  no_lf (lineArray b) = true →
  lines (lineArray b) = A ++ M ++ d :: C →
  start = len A → end_ = start + len M → M ≠ [] → C ≠ [] →
  ∃ b',
    Buffer.MoveLinesDown Buffer.insert (λ b s e, fst <$> Buffer.remove b s e) b start end_ =
      Some b' ∧
    data <$> lines (lineArray b') = data <$> (A ++ d :: M ++ C).
Proof.
  intros Hlf Hl -> -> HM HC.
  pose proof (len_nonneg A) as HA.
  assert (1 <= len M) as HM1 by (destruct M; [done|unfold len; simpl; lia]).
  assert (1 <= len C) as HC1 by (destruct C; [done|unfold len; simpl; lia]).
  assert (len (lines (lineArray b)) = len A + len M + 1 + len C) as Hlen.
  { rewrite Hl, !len_app. unfold len. simpl length. lia. }
  unfold Buffer.MoveLinesDown, Buffer.blines.
  destruct (Z.ltb_spec (len A) 0); [lia|].
  destruct (Z.leb_spec (len A + len M) (len A)); [lia|].
  destruct (Z.leb_spec (len (lines (lineArray b)) - 1) (len A + len M)); [lia|].
  cbn [orb].
  assert (Buffer.Line b (len A + len M) = Some (data d)) as ->.
  { rewrite <- len_app. apply (Line_mid b (A ++ M) d C). by rewrite <- app_assoc. }
  cbn [mbind option_bind].
  pose proof (no_lf_mid (A ++ M) d C) as Hd.
  destruct b as [[L] m n s p]. cbn [lineArray lines] in *. subst L.
  rewrite <- app_assoc in Hd. specialize (Hd Hlf).
  destruct M as [|m0 M']; [done|]. cbn [app] in *.
  destruct (insert_line_before A m0 (M' ++ d :: C) (data d) Hlf Hd)
    as (la1 & Hi & Hlf1 & Hd1).
  unfold Buffer.insert at 1. cbn [lineArray]. rewrite Hi. cbn [mbind option_bind].
  destruct C as [|c0 C']; [done|].
  assert (data <$> lines la1 =
          ((data <$> A) ++ data d :: data m0 :: (data <$> M')) ++
          data d :: data c0 :: (data <$> C')) as Hd1'.
  { rewrite Hd1. by list_norm. }
  destruct (remove_line la1 _ _ _ _ Hlf1 Hd1') as (la2 & sub & Hr & Hd2).
  assert (len ((data <$> A) ++ data d :: data m0 :: (data <$> M')) =
          len A + len (m0 :: M') + 1) as Hlen1.
  { rewrite len_app, len_fmap. unfold len. simpl length. rewrite length_fmap. lia. }
  rewrite Hlen1 in Hr.
  unfold Buffer.remove. cbn [Buffer.Update lineArray]. rewrite Hr.
  cbn [mbind option_bind fmap option_fmap option_map].
  eexists. split; [done|]. cbn [Buffer.Update lineArray fst].
  rewrite Hd2. by list_norm.
Qed.

End moving.

Lemma MoveLinesUp_moves_witness :
  ∃ b',
    Buffer.MoveLinesUp Buffer.insert (λ b s e, fst <$> Buffer.remove b s e)
      (mkBuffer (plain_store ["a"; "b"; "c"; "d"]) false 4 ∅ "") 1 3 = Some b' ∧
    data <$> lines (lineArray b') =
      data <$> ([] ++ [plain_line "b"; plain_line "c"] ++ plain_line "a" :: [plain_line "d"]).
Proof.
  apply (MoveLinesUp_moves (mkBuffer (plain_store ["a"; "b"; "c"; "d"]) false 4 ∅ "") 1 3
           [] (plain_line "a") [plain_line "b"; plain_line "c"] [plain_line "d"]);
    try reflexivity; discriminate.
Defined.

Lemma MoveLinesDown_moves_witness :
  ∃ b',
    Buffer.MoveLinesDown Buffer.insert (λ b s e, fst <$> Buffer.remove b s e)
      (mkBuffer (plain_store ["a"; "b"; "c"; "d"]) false 4 ∅ "") 0 2 = Some b' ∧
    data <$> lines (lineArray b') =
      data <$> ([] ++ plain_line "c" :: [plain_line "a"; plain_line "b"] ++ [plain_line "d"]).
Proof.
  apply (MoveLinesDown_moves (mkBuffer (plain_store ["a"; "b"; "c"; "d"]) false 4 ∅ "") 0 2
           [] [plain_line "a"; plain_line "b"] (plain_line "c") [plain_line "d"]);
    try reflexivity; discriminate.
Defined.
